(** * k3air: offline k3s cluster installer -- a shallow embedding

    The Go packages [internal/config], [internal/install] and
    [internal/sshclient] are embedded as Rocq functions.  Pure code
    (service-unit generation, CIDR checks, the kubeconfig patcher) becomes
    plain functions; code that talks to remote hosts, the local file system
    or the network becomes a computation in a state-and-error monad that
    records every operation it performs in a trace.  Functions of Go's
    standard library and of third-party packages that the repository calls
    but does not define (address-literal parsing, YAML coding, path joining,
    text templates) are fields of the class [GoLib]; every theorem holds for
    all implementations of that class. *)

From Stdlib Require Import ZArith Lia List Bool Ascii String Sorted.
From stdpp Require Import base gmap strings list.
Import ListNotations.

Set Warnings "-register-all".
Local Open Scope string_scope.
Local Open Scope list_scope.

(** String concatenation (Go's [+] on strings) is written [+:+]; [++] is
    list concatenation (Go's [append]). *)

(* stdpp turns unfolding of [String.append] off; the proofs below compute with it. *)
Local Arguments String.append !s1 s2 : simpl nomatch.

(** ** Package [strings] of the Go standard library, as far as it is used *)

Module strings.

(** [strings.HasPrefix(s, prefix)] *)
Fixpoint HasPrefix (s prefix : string) : bool :=
  match prefix, s with
  | EmptyString, _ => true
  | String _ _, EmptyString => false
  | String a p', String b s' => Ascii.eqb a b && HasPrefix s' p'
  end.

(** [strings.Contains(s, substr)] *)
Fixpoint Contains (s substr : string) : bool :=
  HasPrefix s substr ||
  match s with
  | EmptyString => false
  | String _ s' => Contains s' substr
  end.

(** [strings.Join(elems, sep)] *)
Fixpoint Join (elems : list string) (sep : string) : string :=
  match elems with
  | [] => ""
  | [x] => x
  | x :: rest => x +:+ sep +:+ Join rest sep
  end.

(** [strings.ReplaceAll(s, old, new)] for a non-empty [old]: occurrences
    are replaced from left to right without overlap.  [skip] counts the
    bytes of a matched occurrence that are still to be dropped. *)
Fixpoint replace_from (skip : nat) (s old new : string) : string :=
  match s with
  | EmptyString => ""
  | String c s' =>
      match skip with
      | S k => replace_from k s' old new
      | O =>
          if HasPrefix s old
          then new +:+ replace_from (String.length old - 1) s' old new
          else String c (replace_from 0 s' old new)
      end
  end.

Definition ReplaceAll (s old new : string) : string :=
  replace_from 0 s old new.

(** [strings.Split(s, sep)] for a one-byte separator. *)
Fixpoint Split (s : string) (sep : ascii) : list string :=
  match s with
  | EmptyString => [""]
  | String c s' =>
      if Ascii.eqb c sep then "" :: Split s' sep
      else match Split s' sep with
           | [] => [String c ""]
           | p :: ps => String c p :: ps
           end
  end.

(** Does the byte [c] occur in [s]? *)
Fixpoint has_byte (c : ascii) (s : string) : bool :=
  match s with
  | EmptyString => false
  | String b s' => Ascii.eqb c b || has_byte c s'
  end.

End strings.

(** The line feed written ["\n"] in the Go source. *)
Definition LF : string := String (ascii_of_nat 10) "".

(** ** Package [internal/config]: the data model *)

Record AssetSource := {
  K3sBinary : string;
  K3sAirgapTarball : string
}.

Record Cluster := {
  FlannelBackend : string;
  ClusterCidr : string;
  ServiceCidr : string;
  Token : string;
  TLSSAN : list string;
  Disable : list string;
  DataDir : string;
  EmbeddedRegistry : bool;
  Registries : string
}.

Record Node := {
  NodeName : string;
  IP : string;
  Port : Z;
  User : string;
  Password : string;
  KeyPath : string;
  Labels : list string
}.

Record Config := {
  cluster : Cluster;
  Assets : AssetSource;
  Servers : list Node;
  Agents : list Node
}.

(** ** Package [internal/install]: generated service units *)

(** The [Installer] struct.  Its [assetManager] field is a pointer to mutable
    state; that state is held in the machine state of the effectful part
    (see [State] below), so the record keeps the immutable fields only. *)
Record Installer := {
  cfg : Config;
  assetsDir : string;
  templateAssetsDir : string;
  verbose : bool
}.

(** [s != ""] *)
Definition nonempty (s : string) : bool := negb (String.eqb s "").

(** [unitService]: each [b.WriteString(x)] appends [x] to the builder. *)
Definition unitService (name exec : string) : string :=
  let b := "" in
  let b := b +:+ ("[Unit]" +:+ LF) in
  let b := b +:+ ("Description=" +:+ name +:+ LF) in
  let b := b +:+ ("After=network.target" +:+ LF) in
  let b := b +:+ ("[Service]" +:+ LF) in
  let b := b +:+ ("Type=notify" +:+ LF) in
  let b := b +:+ ("ExecStart=" +:+ exec +:+ LF) in
  let b := b +:+ ("Restart=always" +:+ LF) in
  let b := b +:+ ("LimitNOFILE=1048576" +:+ LF) in
  let b := b +:+ ("[Install]" +:+ LF) in
  let b := b +:+ ("WantedBy=multi-user.target" +:+ LF) in
  b.

(** One iteration of [for _, s := range xs { if s != "" { args = append(args, flag, s) } }] *)
Definition append_flag (flag : string) (args : list string) (s : string) : list string :=
  if nonempty s then args ++ [flag; s] else args.

(** The argument slice built by [serverServiceContent], before it is joined. *)
Definition serverArgs (i : Installer) (node : Node) (primaryIP : string)
    (isPrimary : bool) : list string :=
  let cluster := cluster (cfg i) in
  let args : list string := [] in
  let args :=
    if isPrimary then args ++ ["server"; "--cluster-init"]
    else args ++ ["server"; "--server"; "https://" +:+ primaryIP +:+ ":6443"] in
  let args :=
    if nonempty (FlannelBackend cluster)
    then args ++ ["--flannel-backend"; FlannelBackend cluster] else args in
  let args :=
    if nonempty (ClusterCidr cluster)
    then args ++ ["--cluster-cidr"; ClusterCidr cluster] else args in
  let args :=
    if nonempty (ServiceCidr cluster)
    then args ++ ["--service-cidr"; ServiceCidr cluster] else args in
  let args :=
    if nonempty (DataDir cluster)
    then args ++ ["--data-dir"; DataDir cluster] else args in
  let args :=
    if nonempty (NodeName node)
    then args ++ ["--node-name"; NodeName node] else args in
  let args :=
    if EmbeddedRegistry cluster then args ++ ["--embedded-registry"] else args in
  let args := fold_left (append_flag "--tls-san") (TLSSAN cluster) args in
  let args := fold_left (append_flag "--disable") (Disable cluster) args in
  let args := fold_left (append_flag "--node-label") (Labels node) args in
  args.

Definition serverServiceContent (i : Installer) (node : Node) (primaryIP : string)
    (isPrimary : bool) : string :=
  let cluster := cluster (cfg i) in
  let args := serverArgs i node primaryIP isPrimary in
  let cmd := "/usr/local/bin/k3s " +:+ strings.Join args " " +:+ " --token " +:+ Token cluster in
  unitService "k3s" cmd.

(** The argument slice built by [agentServiceContent]. *)
Definition agentArgs (i : Installer) (node : Node) (primaryIP : string) : list string :=
  let cluster := cluster (cfg i) in
  let args : list string := [] in
  let args := args ++ ["agent"; "--server"; "https://" +:+ primaryIP +:+ ":6443"] in
  let args :=
    if nonempty (DataDir cluster)
    then args ++ ["--data-dir"; DataDir cluster] else args in
  let args :=
    if nonempty (NodeName node)
    then args ++ ["--node-name"; NodeName node] else args in
  let args := fold_left (append_flag "--node-label") (Labels node) args in
  let args := args ++ ["--token"; Token cluster] in
  args.

Definition agentServiceContent (i : Installer) (node : Node) (primaryIP : string) : string :=
  let args := agentArgs i node primaryIP in
  let cmd := "/usr/local/bin/k3s " +:+ strings.Join args " " in
  unitService "k3s-agent" cmd.

(** *** The flag layout in the words of the specification

    A command line is a sequence of items; an item belongs to a group and
    carries the words it contributes (a flag and, if it takes one, its
    argument).  [serverItems] and [agentItems] lay the items out group by
    group, as section 4.5 of the specification describes them. *)

Inductive FlagGroup :=
| GRole | GNetwork | GDataDir | GNodeName | GRegistry
| GCertNames | GDisabled | GLabels | GToken.

Definition rank (g : FlagGroup) : nat :=
  match g with
  | GRole => 0 | GNetwork => 1 | GDataDir => 2 | GNodeName => 3
  | GRegistry => 4 | GCertNames => 5 | GDisabled => 6 | GLabels => 7
  | GToken => 8
  end.

Record Item := { group : FlagGroup; words : list string }.

(** A flag with an argument, left out when the argument is empty. *)
Definition opt (g : FlagGroup) (flag value : string) : list Item :=
  if nonempty value then [ {| group := g; words := [flag; value] |} ] else [].

Definition joinTarget (primaryIP : string) : string :=
  "https://" +:+ primaryIP +:+ ":6443".

Definition serverItems (c : Cluster) (node : Node) (primaryIP : string)
    (isPrimary : bool) : list Item :=
  [ {| group := GRole;
       words := if isPrimary then ["server"; "--cluster-init"]
                else ["server"; "--server"; joinTarget primaryIP] |} ]
  ++ opt GNetwork "--flannel-backend" (FlannelBackend c)
  ++ opt GNetwork "--cluster-cidr" (ClusterCidr c)
  ++ opt GNetwork "--service-cidr" (ServiceCidr c)
  ++ opt GDataDir "--data-dir" (DataDir c)
  ++ opt GNodeName "--node-name" (NodeName node)
  ++ (if EmbeddedRegistry c
      then [ {| group := GRegistry; words := ["--embedded-registry"] |} ] else [])
  ++ flat_map (opt GCertNames "--tls-san") (TLSSAN c)
  ++ flat_map (opt GDisabled "--disable") (Disable c)
  ++ flat_map (opt GLabels "--node-label") (Labels node)
  ++ [ {| group := GToken; words := ["--token"; Token c] |} ].

Definition agentItems (c : Cluster) (node : Node) (primaryIP : string) : list Item :=
  [ {| group := GRole; words := ["agent"; "--server"; joinTarget primaryIP] |} ]
  ++ opt GDataDir "--data-dir" (DataDir c)
  ++ opt GNodeName "--node-name" (NodeName node)
  ++ flat_map (opt GLabels "--node-label") (Labels node)
  ++ [ {| group := GToken; words := ["--token"; Token c] |} ].

(** The text a list of items stands for. *)
Definition renderUnit (name : string) (items : list Item) : string :=
  unitService name ("/usr/local/bin/k3s " +:+ strings.Join (flat_map words items) " ").

(** The configured strings that [serverServiceContent] writes into the
    command line. *)
Definition serverValues (c : Cluster) (node : Node) : list string :=
  [FlannelBackend c; ClusterCidr c; ServiceCidr c; DataDir c; NodeName node]
  ++ TLSSAN c ++ Disable c ++ Labels node ++ [Token c].

(** The configured strings that [agentServiceContent] writes. *)
Definition agentValues (c : Cluster) (node : Node) : list string :=
  [DataDir c; NodeName node] ++ Labels node ++ [Token c].

Definition mentions (flag : string) (values : list string) : bool :=
  existsb (fun v => strings.Contains v flag) values.

(** The line feed as a byte. *)
Definition lf : ascii := ascii_of_nat 10.

(** The fixed words of a unit file. *)
Definition skeleton : list string :=
  ["[Unit]"; "Description"; "After"; "network.target"; "[Service]"; "Type";
   "notify"; "ExecStart"; "Restart"; "always"; "LimitNOFILE"; "1048576";
   "[Install]"; "WantedBy"; "multi-user.target"; "/usr/local/bin/k3s"].

(** The two role flags. *)
Definition initFlag : string := "--cluster-init".
Definition joinFlag : string := "--server".

(** The order of the groups, on items. *)
Definition before (x y : Item) : Prop := rank (group x) <= rank (group y).

(** The groups whose flags take an argument from the configuration. *)
Definition takesArgument (g : FlagGroup) : bool :=
  match g with
  | GRole | GRegistry => false
  | _ => true
  end.

(** An item is complete when none of its words is empty and, if its flag
    takes an argument, it consists of the flag and the argument. *)
Definition complete (it : Item) : Prop :=
  Forall (fun w => w <> "") (words it)
  /\ (takesArgument (group it) = true -> length (words it) = 2).

(** ** Go values shared by the packages *)

(** A Go [error]: its message, and whether [os.IsNotExist] holds of it. *)
Record error := { Error : string; IsNotExist : bool }.

(** [fmt.Errorf(...)] and [errors.New(...)], given the formatted message.
    [os.IsNotExist] does not look through the [%w] wrapping of
    [fmt.Errorf], so the result never satisfies it. *)
Definition Errorf (message : string) : error :=
  {| Error := message; IsNotExist := false |}.

(** The two ways a Go function of type [(T, error)] returns. *)
Inductive result (T : Type) :=
| Ok (v : T)
| Err (e : error).
Arguments Ok {T} v.
Arguments Err {T} e.

(** [netip.Addr]: an IPv4 address of 32 bits, or an IPv6 address of 128
    bits with its zone. *)
Inductive Addr :=
| AddrFrom4 (v : Z)
| AddrFrom16 (v : Z) (zone : string).

(** A YAML document decoded into [interface{}] by [gopkg.in/yaml.v3]:
    mappings with string keys become [map[string]interface{}] ([YMap]),
    other mappings [map[interface{}]interface{}] ([YMapAny]), sequences
    [[]interface{}] ([YSeq]). *)
Inductive yval :=
| YNull
| YBool (b : bool)
| YInt (n : Z)
| YFloat (repr : string)
| YStr (s : string)
| YSeq (l : list yval)
| YMap (m : gmap string yval)
| YMapAny (l : list (yval * yval)).

(** The functions of the Go standard library and of third-party packages
    that the repository calls.  Their code is not part of the repository;
    nothing is assumed about them. *)
Class GoLib := {
  (** [netip.ParseAddr]: [None] when it returns an error *)
  netip_ParseAddr : string -> option Addr;
  (** [filepath.Join] *)
  filepath_Join : list string -> string;
  (** [yaml.Unmarshal] into a [map[string]interface{}]; a nil map is the
      empty map *)
  yaml_Unmarshal : string -> result (gmap string yval);
  (** [yaml.Marshal] of such a map: the bytes and the error it returns *)
  yaml_Marshal : gmap string yval -> string * option error;
  (** [url.Parse(s)] followed by [.Path]: [Err] when parsing fails *)
  url_Parse_Path : string -> result string;
  (** the embedded uninstall template ([uninstallTmplContent]) *)
  uninstallTmplContent : string;
  (** a parsed [text/template] *)
  Template : Type;
  (** [template.New(name).Parse(text)] *)
  template_Parse : string -> string -> result Template;
  (** [tmpl.Execute(&buf, data)] for the data [{DataDir, IsAgent}]: the
      text written to the buffer *)
  template_Execute : Template -> string -> bool -> result string
}.

(** ** Package [net] of the Go standard library, as far as it is used *)

Module net.
Local Open Scope Z_scope.

(** [net.IP] and [net.IPMask] are byte slices; a byte is a [Z] in
    [0, 255].  The nil slice is the empty list. *)
Definition IP := list Z.
Definition IPMask := list Z.

(** [net.IPNet]; the fields are [IP] and [Mask] in Go. *)
Record IPNet := { netIP : IP; Mask : IPMask }.

Definition IPv4len : nat := 4%nat.
Definition IPv6len : nat := 16%nat.

Definition v4InV6Prefix : list Z := [0; 0; 0; 0; 0; 0; 0; 0; 0; 0; 255; 255].

(** byte-wise [==] of two slices ([bytealg.Equal]) *)
Fixpoint bytesEq (a b : list Z) : bool :=
  match a, b with
  | [], [] => true
  | x :: a', y :: b' => (x =? y)%Z && bytesEq a' b'
  | _, _ => false
  end.

Definition isZeros (p : list Z) : bool := forallb (fun x => (x =? 0)%Z) p.

(** [ip.To4()]: [None] is the nil result. *)
Definition To4 (ip : IP) : option IP :=
  if (length ip =? IPv4len)%nat then Some ip
  else if (length ip =? IPv6len)%nat
          && isZeros (firstn 10 ip)
          && (nth 10 ip 0 =? 255)%Z
          && (nth 11 ip 0 =? 255)%Z
       then Some (firstn 4 (skipn 12 ip))
       else None.

(** The body of the loop of [CIDRMask]: [l] bytes for [n] remaining ones. *)
Fixpoint maskBytes (l : nat) (n : Z) : IPMask :=
  match l with
  | O => []
  | S l' =>
      if (8 <=? n)%Z then 255%Z :: maskBytes l' (n - 8)
      else Z.lxor 255 (Z.shiftr 255 n) :: maskBytes l' 0
  end.

(** [net.CIDRMask(ones, bits)] *)
Definition CIDRMask (ones bits : Z) : IPMask :=
  if negb (bits =? 8 * Z.of_nat IPv4len)%Z && negb (bits =? 8 * Z.of_nat IPv6len)%Z
  then []
  else if (ones <? 0)%Z || (bits <? ones)%Z then []
  else maskBytes (Z.to_nat (bits / 8)) ones.

Definition allFF (b : list Z) : bool := forallb (fun x => (x =? 255)%Z) b.

(** the loop [out[i] = ip[i] & mask[i]] *)
Fixpoint andBytes (ip mask : list Z) : list Z :=
  match ip, mask with
  | x :: ip', k :: mask' => Z.land x k :: andBytes ip' mask'
  | _, _ => []
  end.

(** [ip.Mask(mask)] *)
Definition IPMask_apply (ip : IP) (mask : IPMask) : IP :=
  let mask :=
    if (length mask =? IPv6len)%nat && (length ip =? IPv4len)%nat
       && allFF (firstn 12 mask)
    then skipn 12 mask else mask in
  let ip :=
    if (length mask =? IPv4len)%nat && (length ip =? IPv6len)%nat
       && bytesEq (firstn 12 ip) v4InV6Prefix
    then skipn 12 ip else ip in
  if negb (length ip =? length mask)%nat then []
  else andBytes ip mask.

(** [ip.Equal(x)] *)
Definition Equal (ip x : IP) : bool :=
  if (length ip =? length x)%nat then bytesEq ip x
  else if (length ip =? IPv4len)%nat && (length x =? IPv6len)%nat
  then bytesEq (firstn 12 x) v4InV6Prefix && bytesEq ip (skipn 12 x)
  else if (length ip =? IPv6len)%nat && (length x =? IPv4len)%nat
  then bytesEq (firstn 12 ip) v4InV6Prefix && bytesEq (skipn 12 ip) x
  else false.

(** [networkNumberAndMask(n)]: [None] is the result [nil, nil]. *)
Definition networkNumberAndMask (n : IPNet) : option (IP * IPMask) :=
  match
    match To4 (netIP n) with
    | Some ip => Some ip
    | None => if negb (length (netIP n) =? IPv6len)%nat then None else Some (netIP n)
    end
  with
  | None => None
  | Some ip =>
      let m := Mask n in
      if (length m =? IPv4len)%nat then
        if negb (length ip =? IPv4len)%nat then None else Some (ip, m)
      else if (length m =? IPv6len)%nat then
        if (length ip =? IPv4len)%nat then Some (ip, skipn 12 m) else Some (ip, m)
      else None
  end.

(** the loop [if nn[i]&m[i] != ip[i]&m[i] { return false }], which runs
    over the indices of [nn]; [networkNumberAndMask] returns a mask as
    long as [nn], and the caller has checked that [ip] is as long *)
Fixpoint sameNetwork (nn m ip : list Z) : bool :=
  match nn, m, ip with
  | [], _, _ => true
  | x :: nn', k :: m', y :: ip' =>
      (Z.land x k =? Z.land y k)%Z && sameNetwork nn' m' ip'
  | _, _, _ => false
  end.

(** [n.Contains(ip)] *)
Definition Contains (n : IPNet) (ip : IP) : bool :=
  let (nn, m) :=
    match networkNumberAndMask n with
    | Some p => p
    | None => ([], [])
    end in
  let ip := match To4 ip with Some x => x | None => ip end in
  let l := length ip in
  if negb (l =? length nn)%nat then false
  else sameNetwork nn m ip.

(** Big-endian bytes of the low [8 * n] bits of [v]. *)
Fixpoint be_bytes (n : nat) (v : Z) : list Z :=
  match n with
  | O => []
  | S k => Z.land (Z.shiftr v (8 * Z.of_nat k)) 255 :: be_bytes k v
  end.

(** [addr.As16()], [addr.BitLen()] and [addr.Zone()] of [netip.Addr] *)
Definition As16 (a : Addr) : list Z :=
  match a with
  | AddrFrom4 v => v4InV6Prefix ++ be_bytes 4 v
  | AddrFrom16 v _ => be_bytes 16 v
  end.

Definition BitLen (a : Addr) : Z :=
  match a with AddrFrom4 _ => 32 | AddrFrom16 _ _ => 128 end.

Definition Zone (a : Addr) : string :=
  match a with AddrFrom4 _ => "" | AddrFrom16 _ zone => zone end.

(** [bytealg.IndexByteString(s, c)], [-1] when [c] does not occur *)
Fixpoint IndexByte (s : string) (c : ascii) : Z :=
  match s with
  | EmptyString => -1
  | String b s' =>
      if Ascii.eqb b c then 0
      else let r := IndexByte s' c in if (r <? 0)%Z then -1 else r + 1
  end%Z.

Definition big : Z := 16777215.   (* 0xFFFFFF *)

Definition isDigit (c : ascii) : bool :=
  (48 <=? nat_of_ascii c)%nat && (nat_of_ascii c <=? 57)%nat.

(** The loop of [dtoi], from position [i] with value [n]. *)
Fixpoint dtoi_from (s : string) (n i : Z) : Z * Z * bool :=
  match s with
  | String c s' =>
      if isDigit c then
        let n := (n * 10 + (Z.of_nat (nat_of_ascii c) - 48))%Z in
        if (big <=? n)%Z then (big, i, false)
        else dtoi_from s' n (i + 1)%Z
      else if (i =? 0)%Z then (0%Z, 0%Z, false) else (n, i, true)
  | EmptyString => if (i =? 0)%Z then (0%Z, 0%Z, false) else (n, i, true)
  end.

(** [dtoi(s)]: decimal to integer *)
Definition dtoi (s : string) : Z * Z * bool := dtoi_from s 0 0.

Definition ParseError (text : string) : error :=
  Errorf ("invalid CIDR address: " +:+ text).

Section WithLib.
Context `{GoLib}.

(** [net.ParseCIDR(s)] *)
Definition ParseCIDR (s : string) : result (IP * IPNet) :=
  let i := IndexByte s "/" in
  if (i <? 0)%Z then Err (ParseError s)
  else
    let addr := String.substring 0 (Z.to_nat i) s in
    let mask := String.substring (Z.to_nat i + 1)
                  (String.length s - (Z.to_nat i + 1)) s in
    match netip_ParseAddr addr with
    | None => Err (ParseError s)
    | Some ipAddr =>
        if nonempty (Zone ipAddr) then Err (ParseError s)
        else
          let '(n, i, ok) := dtoi mask in
          if negb ok || negb (i =? Z.of_nat (String.length mask))%Z
             || (n <? 0)%Z || (BitLen ipAddr <? n)%Z
          then Err (ParseError s)
          else
            let m := CIDRMask n (BitLen ipAddr) in
            let addr16 := As16 ipAddr in
            Ok (addr16, {| netIP := IPMask_apply addr16 m; Mask := m |})
    end.

(** [net.ParseIP(s)]: [None] is the nil result. *)
Definition ParseIP (s : string) : option IP :=
  match netip_ParseAddr s with
  | Some ip => if nonempty (Zone ip) then None else Some (As16 ip)
  | None => None
  end.
End WithLib.

(** The first byte of the mask with [n] ones. *)
Definition maskHead (n : Z) : Z :=
  if 8 <=? n then 255 else Z.lxor 255 (Z.shiftr 255 n).

(** The shape of the ranges that [ParseCIDR] returns: the address of
    [8 * l] bits masked with the prefix mask of [n] ones, for [l] 4 or 16. *)
Inductive Canonical : IPNet -> Prop :=
| Canonical4 (v n : Z) :
    0 <= n <= 32 ->
    Canonical {| netIP := andBytes (be_bytes 4 v) (maskBytes 4 n);
                 Mask := maskBytes 4 n |}
| Canonical16 (v n : Z) :
    0 <= n <= 128 ->
    Canonical {| netIP := andBytes (be_bytes 16 v) (maskBytes 16 n);
                 Mask := maskBytes 16 n |}.

(** [if x := ip.To4(); x != nil { ip = x }] *)
Definition shorten (ip : IP) : IP :=
  match To4 ip with Some x => x | None => ip end.

End net.

(** ** Package [internal/config]: validation *)

Module config.
Section WithLib.
Context `{GoLib}.

(** [parseAndValidateCIDR] *)
Definition parseAndValidateCIDR (cidrStr fieldName : string) : result net.IPNet :=
  match net.ParseCIDR cidrStr with
  | Err err =>
      Err (Errorf ("invalid " +:+ fieldName +:+ ": " +:+ cidrStr
                   +:+ " (error: " +:+ Error err +:+ ")"))
  | Ok (_, cidr) => Ok cidr
  end.

(** [bytesEqual] *)
Fixpoint bytesEqual_from (a b : list Z) : bool :=
  match a, b with
  | x :: a', y :: b' => if negb (x =? y)%Z then false else bytesEqual_from a' b'
  | _, _ => true
  end.

Definition bytesEqual (a b : list Z) : bool :=
  if negb (length a =? length b)%nat then false
  else bytesEqual_from a b.

(** [cidrsEqual] *)
Definition cidrsEqual (a b : net.IPNet) : bool :=
  net.Equal (net.netIP a) (net.netIP b) && bytesEqual (net.Mask a) (net.Mask b).

(** [cidrsOverlap] *)
Definition cidrsOverlap (a b : net.IPNet) : bool :=
  net.Contains a (net.netIP b) || net.Contains b (net.netIP a).

(** The addresses of a range, as the program sees them: those that
    [Contains] accepts.  Two ranges overlap when they share an address. *)
Definition inRange (n : net.IPNet) (ip : net.IP) : Prop :=
  net.Contains n ip = true.

Definition overlapping (a b : net.IPNet) : Prop :=
  exists ip, inRange a ip /\ inRange b ip.

(** [validateNodeIP] *)
Definition validateNodeIP (node : Node) : option error :=
  if String.eqb (IP node) "" then Some (Errorf "ip address is empty")
  else match net.ParseIP (IP node) with
       | None => Some (Errorf ("invalid ip address: " +:+ IP node))
       | Some _ => None
       end.

(** The loops [for _, node := range ...] of [Validate]: the first node
    whose address is rejected ends the validation. *)
Fixpoint validateNodes (kind : string) (nodes : list Node) : option error :=
  match nodes with
  | [] => None
  | node :: rest =>
      match validateNodeIP node with
      | Some err => Some (Errorf (kind +:+ " " +:+ NodeName node +:+ ": " +:+ Error err))
      | None => validateNodes kind rest
      end
  end.

(** [Validate] of [*Config]; [None] is the nil error. *)
Definition Validate (c : Config) : option error :=
  match parseAndValidateCIDR (ClusterCidr (cluster c)) "cluster-cidr" with
  | Err err => Some err
  | Ok clusterCIDR =>
      match parseAndValidateCIDR (ServiceCidr (cluster c)) "service-cidr" with
      | Err err => Some err
      | Ok serviceCIDR =>
          if cidrsEqual clusterCIDR serviceCIDR then
            Some (Errorf ("cluster-cidr and service-cidr cannot be the same: "
                          +:+ ClusterCidr (cluster c)))
          else if cidrsOverlap clusterCIDR serviceCIDR then
            Some (Errorf ("cluster-cidr (" +:+ ClusterCidr (cluster c)
                          +:+ ") and service-cidr (" +:+ ServiceCidr (cluster c)
                          +:+ ") overlap"))
          else
            match validateNodes "server" (Servers c) with
            | Some err => Some err
            | None => validateNodes "agent" (Agents c)
            end
      end
  end.
End WithLib.
End config.

(** ** Package [internal/install]: the kubeconfig patcher *)

Section Kubeconfig.
Context `{GoLib}.

(** [replaceKubeconfigServer].  The result is the Go triple
    [(modified, replaced, err)]; the nil byte slice is the empty string.

    The decoded document is a tree of Go maps and slices that refer to one
    another.  The assignment [clusterData["server"] = newURL] updates the
    innermost map in place, so the change is seen through [firstCluster],
    [clusters] and [config]; with values instead of references this is the
    nested update written out below.  No other position of the tree shares
    the updated map: the decoder builds a map of its own for every mapping
    node, also for one reached through a YAML alias. *)
Definition replaceKubeconfigServer (data serverIP : string)
    : string * bool * option error :=
  match yaml_Unmarshal data with
  | Err err => ("", false, Some err)
  | Ok config =>
      let replaced := false in
      let '(config, replaced) :=
        match config !! "clusters" with
        | Some (YSeq (c0 :: rest)) =>
            match c0 with
            | YMap firstCluster =>
                match firstCluster !! "cluster" with
                | Some (YMap clusterData) =>
                    match clusterData !! "server" with
                    | Some (YStr serverURL) =>
                        let newURL := strings.ReplaceAll serverURL "127.0.0.1" serverIP in
                        if negb (String.eqb newURL serverURL) then
                          let clusterData := <["server" := YStr newURL]> clusterData in
                          let firstCluster := <["cluster" := YMap clusterData]> firstCluster in
                          (<["clusters" := YSeq (YMap firstCluster :: rest)]> config, true)
                        else (config, replaced)
                    | _ => (config, replaced)
                    end
                | _ => (config, replaced)
                end
            | _ => (config, replaced)
            end
        | _ => (config, replaced)
        end in
      let '(modified, err) := yaml_Marshal config in
      (modified, replaced, err)
  end.
End Kubeconfig.

(** *** The shape of a kubeconfig, for the statements below *)

(** The server URL of the first cluster entry, [clusters[0].cluster.server]. *)
Definition serverOf (config : gmap string yval) : option string :=
  match config !! "clusters" with
  | Some (YSeq (YMap firstCluster :: _)) =>
      match firstCluster !! "cluster" with
      | Some (YMap clusterData) =>
          match clusterData !! "server" with
          | Some (YStr serverURL) => Some serverURL
          | _ => None
          end
      | _ => None
      end
  | _ => None
  end.

Definition isSeq (v : yval) : Prop := exists l, v = YSeq l.
Definition isMap (v : yval) : Prop := exists m, v = YMap m.
Definition isStr (v : yval) : Prop := exists s, v = YStr s.

(** The ways a decoded document can lack the shape of a kubeconfig. *)
Inductive Malformed (config : gmap string yval) : Prop :=
| NoClusters :
    config !! "clusters" = None -> Malformed config
| ClustersNotSeq (v : yval) :
    config !! "clusters" = Some v -> ~ isSeq v -> Malformed config
| ClustersEmpty :
    config !! "clusters" = Some (YSeq []) -> Malformed config
| FirstNotMap (v : yval) (rest : list yval) :
    config !! "clusters" = Some (YSeq (v :: rest)) -> ~ isMap v -> Malformed config
| NoCluster (fc : gmap string yval) (rest : list yval) :
    config !! "clusters" = Some (YSeq (YMap fc :: rest)) ->
    fc !! "cluster" = None -> Malformed config
| ClusterNotMap (fc : gmap string yval) (rest : list yval) (v : yval) :
    config !! "clusters" = Some (YSeq (YMap fc :: rest)) ->
    fc !! "cluster" = Some v -> ~ isMap v -> Malformed config
| NoServer (fc cd : gmap string yval) (rest : list yval) :
    config !! "clusters" = Some (YSeq (YMap fc :: rest)) ->
    fc !! "cluster" = Some (YMap cd) ->
    cd !! "server" = None -> Malformed config
| ServerNotStr (fc cd : gmap string yval) (rest : list yval) (v : yval) :
    config !! "clusters" = Some (YSeq (YMap fc :: rest)) ->
    fc !! "cluster" = Some (YMap cd) ->
    cd !! "server" = Some v -> ~ isStr v -> Malformed config.

(** [config'] is [config] with the server URL of the first cluster set to
    [url] and nothing else changed. *)
Definition Patched (config config' : gmap string yval) (url : string) : Prop :=
  exists fc fc' cd cd' rest,
    config !! "clusters" = Some (YSeq (YMap fc :: rest))
    /\ config' !! "clusters" = Some (YSeq (YMap fc' :: rest))
    /\ (forall k, k <> "clusters" -> config' !! k = config !! k)
    /\ fc !! "cluster" = Some (YMap cd)
    /\ fc' !! "cluster" = Some (YMap cd')
    /\ (forall k, k <> "cluster" -> fc' !! k = fc !! k)
    /\ cd' !! "server" = Some (YStr url)
    /\ (forall k, k <> "server" -> cd' !! k = cd !! k).

(** The Go triple for a document that is written back as [config]. *)
Definition written `{GoLib} (config : gmap string yval) (replaced : bool)
    : string * bool * option error :=
  (fst (yaml_Marshal config), replaced, snd (yaml_Marshal config)).

(** ** The outside world

    Everything the installer does to remote hosts, to the local file system
    and to the network is an operation [Op].  The outside world answers an
    operation with a [Reply]; the answer may depend on everything that has
    happened before.  Log lines and console output are not modelled. *)

(** [*sshclient.Client]: an open connection, named by host and port. *)
Record Client := { host : string; port : Z }.

Inductive Op :=
(** [sshclient.New]: read the key file, dial, open the SFTP channel *)
| OpDial (host : string) (port : Z) (user password keyPath : string)
(** [c.Close()] *)
| OpClose (c : Client)
(** [c.Run(cmd)] *)
| OpRun (c : Client) (cmd : string)
(** [c.Upload(localPath, remotePath, progress)] *)
| OpUpload (c : Client) (localPath remotePath : string) (progress : bool)
(** [c.UploadBytes(data, remotePath)] *)
| OpUploadBytes (c : Client) (data remotePath : string)
(** [c.DownloadBytes(remotePath)] *)
| OpDownloadBytes (c : Client) (remotePath : string)
(** [os.Stat(path)] *)
| OpStat (path : string)
(** [os.Create(path)] *)
| OpCreate (path : string)
(** [client.Get(url)] of [net/http] *)
| OpHttpGet (url : string)
(** [io.Copy] of the response body of [url] into the file [path] *)
| OpCopyBody (url path : string)
(** [os.WriteFile(path, data, perm)] *)
| OpWriteFile (path data : string) (perm : Z)
(** [time.Sleep(seconds * time.Second)] *)
| OpSleep (seconds : Z).

(** The answer to an operation: the data it yields ([stdout] of a command,
    the bytes of a download, the status line of an HTTP response), the
    [stderr] of a command, and the error, if any. *)
Record Reply := { stdout : string; stderr : string; failure : option error }.

Definition done : Reply := {| stdout := ""; stderr := ""; failure := None |}.

Definition Event : Type := Op * Reply.

(** The behaviour of the outside world. *)
Class Environment := { respond : list Event -> Op -> Reply }.

(** [AssetManager] *)
Record AssetManager := { tempDir : string; downloadedFiles : list string }.

(** The state of a run: what has happened so far, and the asset manager
    that the installer points to. *)
Record State := { trace : list Event; assetManager : AssetManager }.

(** ** Computations with state and errors *)

Definition M (A : Type) : Type := State -> result A * State.

Definition ret {A : Type} (a : A) : M A := fun s => (Ok a, s).

(** [return ..., err] *)
Definition fail {A : Type} (e : error) : M A := fun s => (Err e, s).

(** Sequencing; an error ends the computation, as [if err != nil { return err }]
    does. *)
Definition bind {A B : Type} (m : M A) (k : A -> M B) : M B :=
  fun s => match m s with
           | (Ok a, s') => k a s'
           | (Err e, s') => (Err e, s')
           end.

(** Running [m] and looking at its error instead of returning it. *)
Definition try {A : Type} (m : M A) : M (result A) :=
  fun s => let (r, s') := m s in (Ok r, s').

(** [defer cleanup]: [cleanup] runs when [body] returns, with or without
    an error. *)
Definition defer {A : Type} (cleanup : M unit) (body : M A) : M A :=
  fun s => let (r, s') := body s in (r, snd (cleanup s')).

(** A pure Go result taken into a computation. *)
Definition lift {A : Type} (r : result A) : M A := fun s => (r, s).

Declare Scope monad_scope.
Delimit Scope monad_scope with monad.
Notation "x <- m ;; k" := (bind m (fun x => k))
  (at level 100, m at next level, right associativity) : monad_scope.
Notation "m ;; k" := (bind m (fun _ => k))
  (at level 100, right associativity) : monad_scope.
Local Open Scope monad_scope.

(** [if err != nil { return err }] *)
Definition check (err : option error) : M unit :=
  match err with
  | Some e => fail e
  | None => ret tt
  end.

Section Effects.
Context `{Environment}.

(** One operation: the world answers, and the event is recorded. *)
Definition ask (op : Op) : M Reply :=
  fun s =>
    let r := respond (trace s) op in
    (Ok r, {| trace := trace s ++ [(op, r)]; assetManager := assetManager s |}).

(** An operation whose outcome the program does not look at. *)
Definition emit (op : Op) : M unit := (_ <- ask op ;; ret tt).
End Effects.

(** ** Package [internal/sshclient] *)

Module sshclient.
Section WithEnv.
Context `{Environment}.

Record Auth := { Password : string; KeyPath : string }.

(** [sshclient.New] *)
Definition New (host : string) (port : Z) (username : string) (auth : Auth)
    : M Client :=
  let username := if String.eqb username "" then "root" else username in
  r <- ask (OpDial host port username (Password auth) (KeyPath auth)) ;;
  check (failure r) ;;
  ret {| host := host; port := port |}.

Definition Close (c : Client) : M unit := emit (OpClose c).

(** [c.Run(cmd)]: the Go triple [(stdout, stderr, err)] *)
Definition Run (c : Client) (cmd : string) : M Reply := ask (OpRun c cmd).

Definition Upload (c : Client) (localPath remotePath : string) (progress : bool)
    : M unit :=
  r <- ask (OpUpload c localPath remotePath progress) ;;
  check (failure r).

Definition UploadBytes (c : Client) (data remotePath : string) : M unit :=
  r <- ask (OpUploadBytes c data remotePath) ;;
  check (failure r).

Definition DownloadBytes (c : Client) (remotePath : string) : M string :=
  r <- ask (OpDownloadBytes c remotePath) ;;
  check (failure r) ;;
  ret (stdout r).
End WithEnv.
End sshclient.

(** ** Package [internal/install]: assets *)

(** [isURL] *)
Definition isURL (path : string) : bool :=
  strings.HasPrefix path "http://" || strings.HasPrefix path "https://".

Section Assets.
Context `{GoLib} `{Environment}.

(** [getFilenameFromURL] *)
Definition getFilenameFromURL (source : string) : string :=
  match url_Parse_Path source with
  | Err _ => ""
  | Ok path =>
      let parts := strings.Split path "/" in
      if (length parts =? 0)%nat then ""
      else List.last parts ""
  end.

(** Is the status line of an HTTP response that of [http.StatusOK]? *)
Definition statusOK (status : string) : bool :=
  strings.HasPrefix status "200".

(** [download] of [*AssetManager]; the progress bar is not modelled. *)
Definition download (urlStr : string) : M string :=
  let filename := getFilenameFromURL urlStr in
  if String.eqb filename "" then
    fail (Errorf ("cannot determine filename from URL: " +:+ urlStr))
  else
    fun s =>
      let localPath := filepath_Join [tempDir (assetManager s); filename] in
      (r <- ask (OpCreate localPath) ;;
       match failure r with
       | Some err => fail (Errorf ("failed to create temp file: " +:+ Error err))
       | None =>
           resp <- ask (OpHttpGet urlStr) ;;
           match failure resp with
           | Some err => fail (Errorf ("download request failed: " +:+ Error err))
           | None =>
               if negb (statusOK (stdout resp)) then
                 fail (Errorf ("download failed with status: " +:+ stdout resp))
               else
                 r <- ask (OpCopyBody urlStr localPath) ;;
                 match failure r with
                 | Some err => fail (Errorf ("download failed: " +:+ Error err))
                 | None => ret localPath
                 end
           end
       end) s.

(** [am.downloadedFiles = append(am.downloadedFiles, localPath)] *)
Definition recordDownload (localPath : string) : M unit :=
  fun s =>
    (Ok tt,
     {| trace := trace s;
        assetManager :=
          {| tempDir := tempDir (assetManager s);
             downloadedFiles := downloadedFiles (assetManager s) ++ [localPath] |} |}).

Definition hintBinary : string :=
  LF +:+ LF +:+ "Please download k3s binary:" +:+ LF
  +:+ "  wget https://github.com/k3s-io/k3s/releases/download/v1.28.5+k3s1/k3s" +:+ LF
  +:+ "  chmod +x k3s" +:+ LF
  +:+ "Or configure a URL in your init.yaml under assets.k3s-binary".

Definition hintImages : string :=
  LF +:+ LF +:+ "Please download k3s airgap images:" +:+ LF
  +:+ "  wget https://github.com/k3s-io/k3s/releases/download/v1.28.5+k3s1/k3s-airgap-images-amd64.tar.gz" +:+ LF
  +:+ "Or configure a URL in your init.yaml under assets.k3s-airgap-tarball".

(** [ResolveAsset] of [*AssetManager] *)
Definition ResolveAsset (source description : string) : M string :=
  if isURL source then
    r <- try (download source) ;;
    match r with
    | Err err =>
        fail (Errorf ("failed to download " +:+ description +:+ ": " +:+ Error err))
    | Ok localPath =>
        recordDownload localPath ;;
        ret localPath
    end
  else
    r <- ask (OpStat source) ;;
    match failure r with
    | Some err =>
        if IsNotExist err then
          let hint :=
            if String.eqb source "k3s" || String.eqb source "./k3s" then hintBinary
            else if String.eqb source "k3s-airgap-images-amd64.tar.gz"
                    || String.eqb source "./k3s-airgap-images-amd64.tar.gz"
            then hintImages
            else "" in
          fail (Errorf (description +:+ " file not found: " +:+ source +:+ hint))
        else
          fail (Errorf ("failed to access " +:+ description +:+ ": " +:+ Error err))
    | None => ret source
    end.
End Assets.

(** ** Package [internal/install]: the installer *)

Section Install.
Context `{GoLib} `{Environment}.

(** [runCmd] *)
Definition runCmd (c : Client) (cmd : string) : M unit :=
  r <- sshclient.Run c cmd ;;
  match failure r with
  | Some err =>
      fail (Errorf ("cmd failed: " +:+ cmd +:+ LF +:+ "stdout:" +:+ LF +:+ stdout r
                    +:+ LF +:+ "stderr:" +:+ LF +:+ stderr r
                    +:+ LF +:+ "err: " +:+ Error err))
  | None => ret tt
  end.

(** [prepareNode] *)
Definition prepareNode (i : Installer) (c : Client) : M unit :=
  runCmd c "mkdir -p /usr/local/bin" ;;
  let imagesDir := filepath_Join [DataDir (cluster (cfg i)); "agent"; "images"] in
  runCmd c ("mkdir -p " +:+ imagesDir) ;;
  runCmd c "mkdir -p /etc/rancher/k3s" ;;
  ret tt.

(** [uploadAssets] *)
Definition uploadAssets (i : Installer) (c : Client) : M unit :=
  k3sPath <- ResolveAsset (K3sBinary (Assets (cfg i))) "k3s binary" ;;
  (* [os.Stat(k3sPath)], for the log line only *)
  emit (OpStat k3sPath) ;;
  sshclient.Upload c k3sPath "/usr/local/bin/k3s" true ;;
  runCmd c "chmod +x /usr/local/bin/k3s" ;;
  (if nonempty (K3sAirgapTarball (Assets (cfg i))) then
     r <- try (ResolveAsset (K3sAirgapTarball (Assets (cfg i))) "airgap images") ;;
     match r with
     | Err _ => ret tt
     | Ok imgPath =>
         let tarballPath :=
           filepath_Join [DataDir (cluster (cfg i)); "agent"; "images";
                          "k3s-airgap-images-amd64.tar.gz"] in
         emit (OpStat imgPath) ;;
         sshclient.Upload c imgPath tarballPath true
     end
   else ret tt) ;;
  (if nonempty (Registries (cluster (cfg i))) then
     sshclient.UploadBytes c (Registries (cluster (cfg i)))
       "/etc/rancher/k3s/registries.yaml"
   else ret tt) ;;
  ret tt.

(** The common body of [uninstallScriptContent] and
    [agentUninstallScriptContent], which differ in [IsAgent] only. *)
Definition renderUninstall (i : Installer) (isAgent : bool) : result string :=
  let dataDir := DataDir (cluster (cfg i)) in
  let dataDir := if String.eqb dataDir "" then "/var/lib/rancher/k3s" else dataDir in
  match template_Parse "uninstall" uninstallTmplContent with
  | Err err => Err (Errorf ("failed to parse uninstall template: " +:+ Error err))
  | Ok tmpl =>
      match template_Execute tmpl dataDir isAgent with
      | Err err => Err (Errorf ("failed to execute uninstall template: " +:+ Error err))
      | Ok text => Ok text
      end
  end.

Definition uninstallScriptContent (i : Installer) : result string :=
  renderUninstall i false.

Definition agentUninstallScriptContent (i : Installer) : result string :=
  renderUninstall i true.

(** [installServer] *)
Definition installServer (i : Installer) (node : Node) (primaryIP : string)
    (isPrimary : bool) : M unit :=
  let user := User node in
  let user := if String.eqb user "" then "root" else user in
  c <- sshclient.New (IP node) (Port node) user
         {| sshclient.Password := Password node; sshclient.KeyPath := KeyPath node |} ;;
  defer (sshclient.Close c)
    (prepareNode i c ;;
     uploadAssets i c ;;
     uninstallScript <- lift (uninstallScriptContent i) ;;
     sshclient.UploadBytes c uninstallScript "/usr/local/bin/k3s-uninstall.sh" ;;
     runCmd c "chmod +x /usr/local/bin/k3s-uninstall.sh" ;;
     let svc := serverServiceContent i node primaryIP isPrimary in
     sshclient.UploadBytes c svc "/etc/systemd/system/k3s.service" ;;
     runCmd c "systemctl daemon-reload" ;;
     runCmd c "systemctl enable k3s" ;;
     runCmd c "systemctl restart k3s" ;;
     emit (OpSleep 2) ;;
     runCmd c "cp /usr/local/bin/k3s /usr/local/bin/kubectl -f" ;;
     ret tt).

(** [installAgent] *)
Definition installAgent (i : Installer) (node : Node) (primaryIP : string) : M unit :=
  let user := User node in
  let user := if String.eqb user "" then "root" else user in
  c <- sshclient.New (IP node) (Port node) user
         {| sshclient.Password := Password node; sshclient.KeyPath := KeyPath node |} ;;
  defer (sshclient.Close c)
    (prepareNode i c ;;
     uploadAssets i c ;;
     agentUninstallScript <- lift (agentUninstallScriptContent i) ;;
     sshclient.UploadBytes c agentUninstallScript "/usr/local/bin/k3s-uninstall.sh" ;;
     runCmd c "chmod +x /usr/local/bin/k3s-uninstall.sh" ;;
     let svc := agentServiceContent i node primaryIP in
     sshclient.UploadBytes c svc "/etc/systemd/system/k3s-agent.service" ;;
     runCmd c "systemctl daemon-reload" ;;
     runCmd c "systemctl enable k3s-agent" ;;
     runCmd c "systemctl restart k3s-agent" ;;
     emit (OpSleep 2) ;;
     ret tt).

(** [downloadKubeconfig] *)
Definition downloadKubeconfig (i : Installer) (master : Node) : M unit :=
  let user := User master in
  let user := if String.eqb user "" then "root" else user in
  c <- sshclient.New (IP master) (Port master) user
         {| sshclient.Password := Password master; sshclient.KeyPath := KeyPath master |} ;;
  defer (sshclient.Close c)
    (let remoteKubeconfig :=
       filepath_Join [DataDir (cluster (cfg i)); "server"; "cred"; "k3s.yaml"] in
     r <- try (sshclient.DownloadBytes c remoteKubeconfig) ;;
     content <-
       match r with
       | Ok content => ret content
       | Err _ =>
           r <- try (sshclient.DownloadBytes c "/etc/rancher/k3s/k3s.yaml") ;;
           match r with
           | Err err => fail (Errorf ("failed to download kubeconfig: " +:+ Error err))
           | Ok content => ret content
           end
       end ;;
     let '(modified, replaced, err) := replaceKubeconfigServer content (IP master) in
     match err with
     | Some err => fail (Errorf ("failed to modify kubeconfig: " +:+ Error err))
     | None =>
         let localPath := "kubeconfig" in
         r <- ask (OpWriteFile localPath modified 384) ;;   (* 0600 *)
         match failure r with
         | Some err => fail (Errorf ("failed to write kubeconfig: " +:+ Error err))
         | None => ret tt
         end
     end).

(** [showClusterInfo]: it returns nothing; its errors are logged. *)
Definition showClusterInfo (i : Installer) (master : Node) : M unit :=
  let user := User master in
  let user := if String.eqb user "" then "root" else user in
  r <- try (sshclient.New (IP master) (Port master) user
              {| sshclient.Password := Password master;
                 sshclient.KeyPath := KeyPath master |}) ;;
  match r with
  | Err _ => ret tt
  | Ok c =>
      defer (sshclient.Close c)
        (r <- try (runCmd c "kubectl get nodes") ;;
         match r with
         | Err _ => ret tt
         | Ok _ =>
             _ <- sshclient.Run c "kubectl get nodes" ;;
             ret tt
         end)
  end.

(** The loop [for idx, srv := range i.cfg.Servers] of [Apply], from index
    [idx] on. *)
Fixpoint installServers (i : Installer) (primaryIP : string) (idx : nat)
    (servers : list Node) : M unit :=
  match servers with
  | [] => ret tt
  | srv :: rest =>
      let isPrimary := (idx =? 0)%nat in
      installServer i srv primaryIP isPrimary ;;
      installServers i primaryIP (S idx) rest
  end.

(** The loop [for _, ag := range i.cfg.Agents] of [Apply]. *)
Fixpoint installAgents (i : Installer) (primaryIP : string) (agents : list Node)
    : M unit :=
  match agents with
  | [] => ret tt
  | ag :: rest =>
      installAgent i ag primaryIP ;;
      installAgents i primaryIP rest
  end.

(** [Apply]; the success summary it prints is not modelled. *)
Definition Apply (i : Installer) : M unit :=
  match Servers (cfg i) with
  | [] => fail (Errorf "no servers defined")
  | primary :: _ =>
      installServers i (IP primary) 0 (Servers (cfg i)) ;;
      installAgents i (IP primary) (Agents (cfg i)) ;;
      _ <- try (downloadKubeconfig i primary) ;;
      showClusterInfo i primary ;;
      ret tt
  end.

(** *** The nodes of a run, for the statements below *)

(** A node with the role it is provisioned in: the server at index [idx]
    of the servers list, or an agent. *)
Inductive Target :=
| ServerAt (idx : nat) (node : Node)
| AgentOf (node : Node).

Fixpoint serversFrom (idx : nat) (servers : list Node) : list Target :=
  match servers with
  | [] => []
  | srv :: rest => ServerAt idx srv :: serversFrom (S idx) rest
  end.

(** The order in which the specification has the nodes provisioned:
    servers in declared order, then agents in declared order. *)
Definition targets (c : Config) : list Target :=
  serversFrom 0 (Servers c) ++ map AgentOf (Agents c).

(** The provisioning sequence of one node. *)
Definition provision (i : Installer) (primaryIP : string) (t : Target) : M unit :=
  match t with
  | ServerAt idx node => installServer i node primaryIP (idx =? 0)%nat
  | AgentOf node => installAgent i node primaryIP
  end.

(** Provisioning a list of nodes one after the other, up to the first
    error. *)
Fixpoint provisionAll (i : Installer) (primaryIP : string) (ts : list Target)
    : M unit :=
  match ts with
  | [] => ret tt
  | t :: rest => provision i primaryIP t ;; provisionAll i primaryIP rest
  end.
End Install.

(** *** Notions about traces, for the statements below *)

(** The remote host and port that an operation talks to, if any. *)
Definition remoteOf (op : Op) : option (string * Z) :=
  match op with
  | OpDial h p _ _ _ => Some (h, p)
  | OpClose c | OpRun c _ | OpUpload c _ _ _ | OpUploadBytes c _ _
  | OpDownloadBytes c _ => Some (host c, port c)
  | OpStat _ | OpCreate _ | OpHttpGet _ | OpCopyBody _ _ | OpWriteFile _ _ _
  | OpSleep _ => None
  end.

(** The address at which a node is provisioned. *)
Definition addressOf (t : Target) : string * Z :=
  match t with
  | ServerAt _ node | AgentOf node => (IP node, Port node)
  end.

(** Every remote operation among [evs] talks to one of [addrs]. *)
Definition confinedTo (addrs : list (string * Z)) (evs : list Event) : Prop :=
  Forall (fun ev => forall a, remoteOf (fst ev) = Some a -> In a addrs) evs.

(** [m] only adds events to the trace, each of them satisfying [P], and
    leaves the events before them as they are. *)
Definition appends {A : Type} (P : Event -> Prop) (m : M A) : Prop :=
  forall s r s', m s = (r, s') ->
    exists evs, trace s' = trace s ++ evs /\ Forall P evs.

Definition isDownloadBytes (op : Op) : bool :=
  match op with
  | OpDownloadBytes _ _ => true
  | _ => false
  end.

(** The event is local, or talks to the host and port [addr]. *)
Definition onlyAt (addr : string * Z) (ev : Event) : Prop :=
  forall a, remoteOf (fst ev) = Some a -> a = addr.

(** The dial operation with which the installer opens a session to a node. *)
Definition dialOf (node : Node) : Op :=
  OpDial (IP node) (Port node)
    (if String.eqb (User node) "" then "root" else User node)
    (Password node) (KeyPath node).

(** The session to a node. *)
Definition clientOf (node : Node) : Client :=
  {| host := IP node; port := Port node |}.

Definition noDownload (ev : Event) : Prop := isDownloadBytes (fst ev) = false.

(** The answer of the world to [op] in state [s], and the state after it. *)
Definition answer `{Environment} (s : State) (op : Op) : Reply :=
  respond (trace s) op.

Definition after `{Environment} (s : State) (op : Op) : State :=
  {| trace := trace s ++ [(op, answer s op)]; assetManager := assetManager s |}.

(** What [downloadKubeconfig] does with the fetched document: the part of
    its body from the call of [replaceKubeconfigServer] on. *)
Definition saveKubeconfig `{GoLib} `{Environment} (master : Node) (content : string)
    : M unit :=
  let '(modified, replaced, err) := replaceKubeconfigServer content (IP master) in
  match err with
  | Some err => fail (Errorf ("failed to modify kubeconfig: " +:+ Error err))
  | None =>
      r <- ask (OpWriteFile "kubeconfig" modified 384) ;;
      match failure r with
      | Some err => fail (Errorf ("failed to write kubeconfig: " +:+ Error err))
      | None => ret tt
      end
  end.

(** Every successful run of [m] ends with the operations [ops], in this
    order. *)
Definition finishes {A : Type} (ops : list Op) (m : M A) : Prop :=
  forall s a s', m s = (Ok a, s') ->
    exists evs tail, trace s' = trace s ++ evs ++ tail /\ map fst tail = ops.
From Stdlib Require Import DecimalString.

(** ** Package [internal/install]: sizes in log lines *)

(** The functions of package [fmt] whose result depends on floating-point
    arithmetic. *)
Class FmtLib := {
  (** [fmt.Sprintf("%.1f", float64(b)/float64(div))] *)
  Sprintf_f1 : Z -> Z -> string
}.

(** [fmt.Sprintf("%d", z)] *)
Definition Sprintf_d (z : Z) : string := NilZero.string_of_int (Z.to_int z).

(** The value of type [int64] that an arithmetic result [z] is stored as. *)
Definition int64 (z : Z) : Z := ((z + 2 ^ 63) mod 2 ^ 64 - 2 ^ 63)%Z.

(** How a call ends: it returns, it panics, or the rounds allowed to its
    loop did not suffice. *)
Inductive outcome (T : Type) :=
| Returns (v : T)
| Panics (message : string)
| Unfinished.
Arguments Returns {T} v.
Arguments Panics {T} message.
Arguments Unfinished {T}.

Section FormatBytes.
Context `{FmtLib}.
Local Open Scope Z_scope.

(** The loop [for n := b / unit; n >= unit; n /= unit { div *= unit; exp++ }]
    of [formatBytes], for at most [rounds] rounds: the values of [div] and
    [exp] when it ends.  [n] and [div] are of type [int64]; [exp] is an
    [int], taken here as 64 bits wide. *)
Fixpoint scale (rounds : nat) (n div exp : Z) : option (Z * Z) :=
  let unit := 1024 in   (* [const unit = 1024] *)
  if unit <=? n then
    match rounds with
    | O => None
    | S rounds' =>
        scale rounds' (int64 (n ÷ unit)) (int64 (div * unit)) (int64 (exp + 1))
    end
  else Some (div, exp).

(** [s[i]] for a string [s] and an [int] [i]; [None] when the index is
    out of range, where Go panics *)
Definition index (s : string) (i : Z) : option ascii :=
  if (i <? 0) then None else String.get (Z.to_nat i) s.

(** [formatBytes] *)
Definition formatBytes (rounds : nat) (b : Z) : outcome string :=
  let unit := 1024 in
  if b <? unit then Returns (Sprintf_d b +:+ " B")
  else
    match scale rounds (int64 (b ÷ unit)) (int64 unit) 0 with
    | None => Unfinished
    | Some (div, exp) =>
        match index "KMGTPE" exp with
        | None => Panics "index out of range"
        | Some c => Returns (Sprintf_f1 b div +:+ " " +:+ String c "B")
        end
    end.
End FormatBytes.

(** ** Package [internal/config]: loading a configuration *)

(** What [Load] reads: the file system at the time of the call, and the
    YAML decoder for the [Config] struct. *)
Class ConfigFiles := {
  (** [os.ReadFile(path)] *)
  os_ReadFile : string -> result string;
  (** [yaml.Unmarshal(b, &c)] for a zero-valued [c]: the struct after the
      call, and the error *)
  yaml_Unmarshal_Config : string -> Config * option error
}.

(** The zero value of [Config]: [var c Config]. *)
Definition zeroConfig : Config := {|
  cluster := {| FlannelBackend := ""; ClusterCidr := ""; ServiceCidr := "";
                Token := ""; TLSSAN := []; Disable := []; DataDir := "";
                EmbeddedRegistry := false; Registries := "" |};
  Assets := {| K3sBinary := ""; K3sAirgapTarball := "" |};
  Servers := [];
  Agents := []
|}.

(** Assignments to fields of a [Config]. *)
Definition setCluster (c : Config) (cl : Cluster) : Config :=
  {| cluster := cl; Assets := Assets c; Servers := Servers c; Agents := Agents c |}.

Definition setAssets (c : Config) (a : AssetSource) : Config :=
  {| cluster := cluster c; Assets := a; Servers := Servers c; Agents := Agents c |}.

(** [c.Cluster.ClusterCidr = v] *)
Definition setClusterCidr (c : Config) (v : string) : Config :=
  setCluster c
    {| FlannelBackend := FlannelBackend (cluster c); ClusterCidr := v;
       ServiceCidr := ServiceCidr (cluster c); Token := Token (cluster c);
       TLSSAN := TLSSAN (cluster c); Disable := Disable (cluster c);
       DataDir := DataDir (cluster c);
       EmbeddedRegistry := EmbeddedRegistry (cluster c);
       Registries := Registries (cluster c) |}.

(** [c.Cluster.ServiceCidr = v] *)
Definition setServiceCidr (c : Config) (v : string) : Config :=
  setCluster c
    {| FlannelBackend := FlannelBackend (cluster c);
       ClusterCidr := ClusterCidr (cluster c); ServiceCidr := v;
       Token := Token (cluster c);
       TLSSAN := TLSSAN (cluster c); Disable := Disable (cluster c);
       DataDir := DataDir (cluster c);
       EmbeddedRegistry := EmbeddedRegistry (cluster c);
       Registries := Registries (cluster c) |}.

(** [c.Cluster.DataDir = v] *)
Definition setDataDir (c : Config) (v : string) : Config :=
  setCluster c
    {| FlannelBackend := FlannelBackend (cluster c);
       ClusterCidr := ClusterCidr (cluster c);
       ServiceCidr := ServiceCidr (cluster c); Token := Token (cluster c);
       TLSSAN := TLSSAN (cluster c); Disable := Disable (cluster c);
       DataDir := v;
       EmbeddedRegistry := EmbeddedRegistry (cluster c);
       Registries := Registries (cluster c) |}.

(** [c.Cluster.FlannelBackend = v] *)
Definition setFlannelBackend (c : Config) (v : string) : Config :=
  setCluster c
    {| FlannelBackend := v;
       ClusterCidr := ClusterCidr (cluster c);
       ServiceCidr := ServiceCidr (cluster c); Token := Token (cluster c);
       TLSSAN := TLSSAN (cluster c); Disable := Disable (cluster c);
       DataDir := DataDir (cluster c);
       EmbeddedRegistry := EmbeddedRegistry (cluster c);
       Registries := Registries (cluster c) |}.

(** [c.Assets.K3sBinary = v] *)
Definition setK3sBinary (c : Config) (v : string) : Config :=
  setAssets c {| K3sBinary := v; K3sAirgapTarball := K3sAirgapTarball (Assets c) |}.

(** [c.Assets.K3sAirgapTarball = v] *)
Definition setK3sAirgapTarball (c : Config) (v : string) : Config :=
  setAssets c {| K3sBinary := K3sBinary (Assets c); K3sAirgapTarball := v |}.

(** One round of [for i := range nodes { if nodes[i].Port == 0 { nodes[i].Port = 22 } }] *)
Definition defaultPort (n : Node) : Node :=
  if (Port n =? 0)%Z then
    {| NodeName := NodeName n; IP := IP n; Port := 22; User := User n;
       Password := Password n; KeyPath := KeyPath n; Labels := Labels n |}
  else n.

Module configfile.
Section WithLib.
Context `{GoLib} `{ConfigFiles}.

(** [Load]; the result is the Go pair [(Config, error)]. *)
Definition Load (path : string) : Config * option error :=
  let c := zeroConfig in
  match os_ReadFile path with
  | Err err => (c, Some err)
  | Ok b =>
      let '(c, err) := yaml_Unmarshal_Config b in
      match err with
      | Some err => (c, Some err)
      | None =>
          let c := if String.eqb (ClusterCidr (cluster c)) ""
                   then setClusterCidr c "10.42.0.0/16" else c in
          let c := if String.eqb (ServiceCidr (cluster c)) ""
                   then setServiceCidr c "10.43.0.0/16" else c in
          let c := if String.eqb (DataDir (cluster c)) ""
                   then setDataDir c "/var/lib/rancher/k3s" else c in
          let c := if String.eqb (FlannelBackend (cluster c)) ""
                   then setFlannelBackend c "vxlan" else c in
          let c := if String.eqb (K3sBinary (Assets c)) ""
                   then setK3sBinary c "k3s" else c in
          let c := if String.eqb (K3sAirgapTarball (Assets c)) ""
                   then setK3sAirgapTarball c "k3s-airgap-images-amd64.tar.gz"
                   else c in
          let c := {| cluster := cluster c; Assets := Assets c;
                      Servers := map defaultPort (Servers c);
                      Agents := Agents c |} in
          let c := {| cluster := cluster c; Assets := Assets c;
                      Servers := Servers c;
                      Agents := map defaultPort (Agents c) |} in
          match config.Validate c with
          | Some err =>
              (c, Some (Errorf ("config validation failed: " +:+ Error err)))
          | None => (c, None)
          end
      end
  end.
End WithLib.
End configfile.
(** ** Notions for the statements about loading and validation *)

(** A node whose address [validateNodeIP] accepts: it is not empty and
    [net.ParseIP] reads it. *)
Definition addressed `{GoLib} (n : Node) : Prop :=
  IP n <> "" /\ net.ParseIP (IP n) <> None.

(** The message of [validateNodeIP] for a node that is not [addressed]. *)
Definition addressError (n : Node) : string :=
  if String.eqb (IP n) "" then "ip address is empty"
  else "invalid ip address: " +:+ IP n.

(** A configuration in which every setting that [Load] has a default for
    is present. *)
Definition filledIn (c : Config) : Prop :=
  ClusterCidr (cluster c) <> "" /\ ServiceCidr (cluster c) <> ""
  /\ DataDir (cluster c) <> "" /\ FlannelBackend (cluster c) <> ""
  /\ K3sBinary (Assets c) <> "" /\ K3sAirgapTarball (Assets c) <> ""
  /\ Forall (fun n => Port n <> 0%Z) (Servers c ++ Agents c).

(** What [Load] does to the decoded configuration before it validates it:
    the assignments of the defaults, in the order of the source. *)
Definition withDefaults (c : Config) : Config :=
  let c := if String.eqb (ClusterCidr (cluster c)) ""
           then setClusterCidr c "10.42.0.0/16" else c in
  let c := if String.eqb (ServiceCidr (cluster c)) ""
           then setServiceCidr c "10.43.0.0/16" else c in
  let c := if String.eqb (DataDir (cluster c)) ""
           then setDataDir c "/var/lib/rancher/k3s" else c in
  let c := if String.eqb (FlannelBackend (cluster c)) ""
           then setFlannelBackend c "vxlan" else c in
  let c := if String.eqb (K3sBinary (Assets c)) ""
           then setK3sBinary c "k3s" else c in
  let c := if String.eqb (K3sAirgapTarball (Assets c)) ""
           then setK3sAirgapTarball c "k3s-airgap-images-amd64.tar.gz"
           else c in
  let c := {| cluster := cluster c; Assets := Assets c;
              Servers := map defaultPort (Servers c);
              Agents := Agents c |} in
  let c := {| cluster := cluster c; Assets := Assets c;
              Servers := Servers c;
              Agents := map defaultPort (Agents c) |} in
  c.

(** The flags that [serverServiceContent] writes for settings of the
    control plane; [agentServiceContent] has no statement that writes them. *)
Definition controlPlaneFlags : list string :=
  ["--flannel-backend"; "--cluster-cidr"; "--service-cidr";
   "--embedded-registry"; "--tls-san"; "--disable"].

(** The ten lines of a unit file for the service [name] with the command
    [exec], as [unitService] writes them. *)
Definition unitLines (name exec : string) : list string :=
  ["[Unit]"; "Description=" +:+ name; "After=network.target"; "[Service]";
   "Type=notify"; "ExecStart=" +:+ exec; "Restart=always"; "LimitNOFILE=1048576";
   "[Install]"; "WantedBy=multi-user.target"].
(** ** Notions for the statements about runs *)

(** The node behind a target. *)
Definition nodeOf (t : Target) : Node :=
  match t with
  | ServerAt _ node | AgentOf node => node
  end.

(** The systemd service that a target runs, the path of its unit file,
    and the unit text that the installer generates for it. *)
Definition serviceName (t : Target) : string :=
  match t with
  | ServerAt _ _ => "k3s"
  | AgentOf _ => "k3s-agent"
  end.

Definition unitPath (t : Target) : string :=
  "/etc/systemd/system/" +:+ serviceName t +:+ ".service".

Definition unitText (i : Installer) (primaryIP : string) (t : Target) : string :=
  match t with
  | ServerAt idx node => serverServiceContent i node primaryIP (idx =? 0)%nat
  | AgentOf node => agentServiceContent i node primaryIP
  end.

(** The uninstall script that the installer renders for a target; the
    empty text stands for a script that could not be rendered. *)
Definition uninstallText `{GoLib} (i : Installer) (t : Target) : string :=
  match t with
  | ServerAt _ _ =>
      match renderUninstall i false with Ok text => text | Err _ => "" end
  | AgentOf _ =>
      match renderUninstall i true with Ok text => text | Err _ => "" end
  end.

(** The local path that [ResolveAsset] returns for [source] when it
    succeeds: the source itself, or for a URL the file of that name in the
    temp directory. *)
Definition assetPath `{GoLib} (tempDir source : string) : string :=
  if isURL source then filepath_Join [tempDir; getFilenameFromURL source]
  else source.

(** The commands and transfers of the provisioning of a target, in the
    order of the source, between the opening and the closing of the
    session.  [images] tells whether the images archive was resolved. *)
Definition script `{GoLib} (i : Installer) (primaryIP : string) (t : Target)
    (tempDir : string) (images : bool) : list Op :=
  let c := clientOf (nodeOf t) in
  let cl := cluster (cfg i) in
  [ OpRun c "mkdir -p /usr/local/bin";
    OpRun c ("mkdir -p " +:+ filepath_Join [DataDir cl; "agent"; "images"]);
    OpRun c "mkdir -p /etc/rancher/k3s";
    OpUpload c (assetPath tempDir (K3sBinary (Assets (cfg i)))) "/usr/local/bin/k3s" true;
    OpRun c "chmod +x /usr/local/bin/k3s" ]
  ++ (if images
      then [ OpUpload c (assetPath tempDir (K3sAirgapTarball (Assets (cfg i))))
               (filepath_Join [DataDir cl; "agent"; "images";
                               "k3s-airgap-images-amd64.tar.gz"]) true ]
      else [])
  ++ (if nonempty (Registries cl)
      then [ OpUploadBytes c (Registries cl) "/etc/rancher/k3s/registries.yaml" ]
      else [])
  ++ [ OpUploadBytes c (uninstallText i t) "/usr/local/bin/k3s-uninstall.sh";
       OpRun c "chmod +x /usr/local/bin/k3s-uninstall.sh";
       OpUploadBytes c (unitText i primaryIP t) (unitPath t);
       OpRun c "systemctl daemon-reload";
       OpRun c ("systemctl enable " +:+ serviceName t);
       OpRun c ("systemctl restart " +:+ serviceName t) ]
  ++ match t with
     | ServerAt _ _ => [ OpRun c "cp /usr/local/bin/k3s /usr/local/bin/kubectl -f" ]
     | AgentOf _ => []
     end.

(** The events of a run that go to a remote host. *)
Definition isRemote (ev : Event) : bool :=
  match remoteOf (fst ev) with
  | Some _ => true
  | None => false
  end.

Definition remoteEvents (evs : list Event) : list Event := List.filter isRemote evs.

(** The operation of the event returned no error. *)
Definition succeeded (ev : Event) : Prop := failure (snd ev) = None.

(** [evs] follows the script [ops]: its operations are the first
    operations of [ops], in order, and each of them except possibly the last
    one succeeded.  It completes the script if it has all operations of
    [ops] and all of them succeeded. *)
Definition follows (ops : list Op) (evs : list Event) : Prop :=
  (exists rest, ops = map fst evs ++ rest) /\ Forall succeeded (removelast evs).

Definition completes (ops : list Op) (evs : list Event) : Prop :=
  map fst evs = ops /\ Forall succeeded evs.

Definition isOk {A : Type} (r : result A) : Prop :=
  match r with
  | Ok _ => True
  | Err _ => False
  end.

(** What a run of a computation from [s] to [s'] with result [r] did, for
    a script [ops]: it left the temp directory [td] of the asset manager as
    it was, and its remote events follow the script, and complete it if the
    run succeeded. *)
Definition played {A : Type} (td : string) (ops : list Op)
    (s : State) (r : result A) (s' : State) : Prop :=
  tempDir (assetManager s') = td
  /\ exists evs,
       trace s' = trace s ++ evs
       /\ follows ops (remoteEvents evs)
       /\ (isOk r -> completes ops (remoteEvents evs)).

(** Every run of [m] plays one of the scripts [F true] and [F false]. *)
Definition plays {A : Type} (td : string) (F : bool -> list Op) (m : M A) : Prop :=
  forall s r s',
    tempDir (assetManager s) = td -> m s = (r, s') ->
    exists b, played td (F b) s r s'.

(** An event that may occur while the session [c] is open: a command or a
    transfer on [c], or an operation on the local machine or the network. *)
Definition within (c : Client) (ev : Event) : Prop :=
  match fst ev with
  | OpDial _ _ _ _ _ | OpClose _ => False
  | OpRun c' _ | OpUpload c' _ _ _ | OpUploadBytes c' _ _
  | OpDownloadBytes c' _ => c' = c
  | OpStat _ | OpCreate _ | OpHttpGet _ | OpCopyBody _ _ | OpWriteFile _ _ _
  | OpSleep _ => True
  end.

(** A trace that consists of sessions, one after the other: each begins
    with a dial; a refused dial is a session of its own; an accepted dial is
    followed by events [within] that session and then by its close. *)
Inductive Sessions : list Event -> Prop :=
| Sessions_nil : Sessions []
| Sessions_refused (h : string) (p : Z) (u pw k : string) (r : Reply) (rest : list Event) :
    failure r <> None ->
    Sessions rest ->
    Sessions ((OpDial h p u pw k, r) :: rest)
| Sessions_held (h : string) (p : Z) (u pw k : string) (r rc : Reply)
    (body rest : list Event) :
    failure r = None ->
    Forall (within {| host := h; port := p |}) body ->
    Sessions rest ->
    Sessions ((OpDial h p u pw k, r)
              :: body ++ (OpClose {| host := h; port := p |}, rc) :: rest).

(** [m] adds a sequence of sessions to the trace. *)
Definition inSessions {A : Type} (m : M A) : Prop :=
  forall s r s', m s = (r, s') ->
    exists evs, trace s' = trace s ++ evs /\ Sessions evs.

(** The two paths at which the installer places unit files. *)
Definition isUnitPath (path : string) : Prop :=
  path = "/etc/systemd/system/k3s.service"
  \/ path = "/etc/systemd/system/k3s-agent.service".

(** An upload to a unit path is the upload of the unit generated for [t],
    over the session of [t]. *)
Definition unitFor (i : Installer) (primaryIP : string) (t : Target) (ev : Event) : Prop :=
  forall c data path,
    fst ev = OpUploadBytes c data path -> isUnitPath path ->
    c = clientOf (nodeOf t) /\ path = unitPath t /\ data = unitText i primaryIP t.

(** An upload to a unit path is the upload of the unit of one of [ts]. *)
Definition unitAmong (i : Installer) (primaryIP : string) (ts : list Target)
    (ev : Event) : Prop :=
  forall c data path,
    fst ev = OpUploadBytes c data path -> isUnitPath path ->
    exists t, In t ts /\ c = clientOf (nodeOf t) /\ path = unitPath t
              /\ data = unitText i primaryIP t.

(** A write to a local file is the write of the patched kubeconfig of
    [master] to the file [kubeconfig] with mode 0600. *)
Definition writesKubeconfig `{GoLib} (master : Node) (ev : Event) : Prop :=
  forall path data perm,
    fst ev = OpWriteFile path data perm ->
    path = "kubeconfig" /\ perm = 384%Z
    /\ exists content replaced,
         replaceKubeconfigServer content (IP master) = (data, replaced, None).

(** An event of the last part of [Apply], behind the provisioning: a
    session to the first server that fetches one of the two kubeconfig
    paths or runs [kubectl get nodes], or the write of the local file
    [kubeconfig].  Nothing is sent to a node. *)
Definition readsOnly `{GoLib} (i : Installer) (master : Node) (ev : Event) : Prop :=
  match fst ev with
  | OpDial _ _ _ _ _ => fst ev = dialOf master
  | OpClose c => c = clientOf master
  | OpRun c cmd => c = clientOf master /\ cmd = "kubectl get nodes"
  | OpDownloadBytes c path =>
      c = clientOf master
      /\ (path = filepath_Join [DataDir (cluster (cfg i)); "server"; "cred"; "k3s.yaml"]
          \/ path = "/etc/rancher/k3s/k3s.yaml")
  | OpWriteFile path _ _ => path = "kubeconfig"
  | OpUpload _ _ _ _ | OpUploadBytes _ _ _
  | OpStat _ | OpCreate _ | OpHttpGet _ | OpCopyBody _ _ | OpSleep _ => False
  end.

(** A path that the asset manager of the installer [i] records with the
    temp directory [td]: the download of one of the two configured assets,
    which then is an http(s) reference, to the file of its name in [td]. *)
Definition recordedAsset `{GoLib} (i : Installer) (td p : string) : Prop :=
  exists source,
    (source = K3sBinary (Assets (cfg i)) \/ source = K3sAirgapTarball (Assets (cfg i)))
    /\ isURL source = true
    /\ p = filepath_Join [td; getFilenameFromURL source].

(** [m] keeps the temp directory of the asset manager and at most appends
    paths with the property [Q] to its list of downloaded files. *)
Definition records {A : Type} (Q : string -> string -> Prop) (m : M A) : Prop :=
  forall s r s', m s = (r, s') ->
    tempDir (assetManager s') = tempDir (assetManager s)
    /\ exists added,
         downloadedFiles (assetManager s') = downloadedFiles (assetManager s) ++ added
         /\ Forall (Q (tempDir (assetManager s))) added.

(** The events of the provisioning of the targets [ts], one after the
    other, each of them complete: for every target in turn an accepted
    dial, events whose commands and transfers complete the script of the
    target, and the close of the session. *)
Inductive Provisioned `{GoLib} (i : Installer) (primaryIP td : string)
    : list Target -> list Event -> Prop :=
| Provisioned_nil : Provisioned i primaryIP td [] []
| Provisioned_cons (t : Target) (ts : list Target) (rd rc : Reply)
    (evs rest : list Event) (images : bool) :
    failure rd = None ->
    completes (script i primaryIP t td images) (remoteEvents evs) ->
    Provisioned i primaryIP td ts rest ->
    Provisioned i primaryIP td (t :: ts)
      ((dialOf (nodeOf t), rd) :: evs ++ (OpClose (clientOf (nodeOf t)), rc) :: rest).

(** ** Sample configurations used by the examples below *)

Definition sampleCluster (token : string) : Cluster := {|
  FlannelBackend := "vxlan";
  ClusterCidr := "10.42.0.0/16";
  ServiceCidr := "10.43.0.0/16";
  Token := token;
  TLSSAN := [];
  Disable := ["traefik"];
  DataDir := "/var/lib/rancher/k3s";
  EmbeddedRegistry := false;
  Registries := ""
|}.

Definition sampleNode (name ip : string) (labels : list string) : Node := {|
  NodeName := name;
  IP := ip;
  Port := 22;
  User := "root";
  Password := "password";
  KeyPath := "";
  Labels := labels
|}.

Definition sampleAssets : AssetSource := {|
  K3sBinary := "k3s";
  K3sAirgapTarball := "k3s-airgap-images-amd64.tar.gz"
|}.

Definition sampleInstaller (c : Cluster) (servers agents : list Node) : Installer := {|
  cfg := {| cluster := c; Assets := sampleAssets; Servers := servers; Agents := agents |};
  assetsDir := "assets";
  templateAssetsDir := "assets";
  verbose := false
|}.

(** *** A library instance for the examples

    [sampleLib] implements the library functions far enough to run the
    examples: address literals are read as [netip.ParseAddr] reads IPv4
    literals (IPv6 literals are not supported), paths are joined without
    cleaning, the YAML codec knows the sample documents only, and a template
    is rendered by writing the data directory after the template text. *)

Module sample.
Local Open Scope Z_scope.

(** [parseIPv4Fields] of package [netip]: [prev] is the byte before the
    current one, [val], [pos] and [digLen] are the variables of the loop,
    [fields] the octets read so far. *)
Fixpoint parseIPv4Fields (s : string) (prev : option ascii)
    (val pos digLen : Z) (fields : list Z) : option (list Z) :=
  match s with
  | EmptyString =>
      if pos <? 3 then None else Some (fields ++ [val])
  | String c s' =>
      if net.isDigit c then
        if (digLen =? 1) && (val =? 0) then None
        else
          let val := val * 10 + (Z.of_nat (nat_of_ascii c) - 48) in
          if 255 <? val then None
          else parseIPv4Fields s' (Some c) val pos (digLen + 1) fields
      else if Ascii.eqb c "." then
        match prev, s' with
        | None, _ => None
        | _, EmptyString => None
        | Some p, _ =>
            if Ascii.eqb p "." then None
            else if pos =? 3 then None
            else parseIPv4Fields s' (Some c) 0 (pos + 1) 0 (fields ++ [val])
        end
      else None
  end.

Definition parseIPv4 (s : string) : option Addr :=
  match parseIPv4Fields s None 0 0 0 [] with
  | Some [a; b; c; d] =>
      Some (AddrFrom4 (Z.shiftl a 24 + Z.shiftl b 16 + Z.shiftl c 8 + d))
  | _ => None
  end.

Definition join (elems : list string) : string :=
  strings.Join (filter (fun e => nonempty e = true) elems) "/".

(** The path of an [http://host/path] or [https://host/path] reference. *)
Fixpoint after_slashes (n : nat) (s : string) : string :=
  match n, s with
  | O, _ => s
  | _, EmptyString => ""
  | S k, String c s' =>
      if Ascii.eqb c "/" then
        match k with O => String c s' | _ => after_slashes k s' end
      else after_slashes n s'
  end.

Definition kubeconfigText (url : string) : string :=
  "clusters:" +:+ LF +:+ "- cluster:" +:+ LF +:+ "    server: " +:+ url +:+ LF
  +:+ "  name: default" +:+ LF.

(** The same document as [yaml.v3] writes it. *)
Definition kubeconfigWritten (url : string) : string :=
  "clusters:" +:+ LF +:+ "    - cluster:" +:+ LF +:+ "        server: " +:+ url +:+ LF
  +:+ "      name: default" +:+ LF.

Definition kubeconfigTree (url : string) : gmap string yval :=
  {[ "clusters" :=
       YSeq [ YMap {[ "cluster" := YMap {[ "server" := YStr url ]};
                      "name" := YStr "default" ]} ] ]}.

Definition loopbackURL : string := "https://127.0.0.1:6443".

Definition unmarshal (data : string) : result (gmap string yval) :=
  if String.eqb data (kubeconfigText loopbackURL)
  then Ok (kubeconfigTree loopbackURL)
  else if String.eqb data (kubeconfigText "https://192.168.1.11:6443")
  then Ok (kubeconfigTree "https://192.168.1.11:6443")
  else if String.eqb data ("kind: Config" +:+ LF)
  then Ok {[ "kind" := YStr "Config" ]}
  else Err (Errorf "yaml: document not known to the sample codec").

Definition marshal (m : gmap string yval) : string * option error :=
  match m !! "clusters" with
  | Some (YSeq (YMap fc :: _)) =>
      match fc !! "cluster" with
      | Some (YMap cd) =>
          match cd !! "server" with
          | Some (YStr url) => (kubeconfigWritten url, None)
          | _ => ("", Some (Errorf "yaml: tree not known to the sample codec"))
          end
      | _ => ("", Some (Errorf "yaml: tree not known to the sample codec"))
      end
  | _ => ("kind: Config" +:+ LF, None)
  end.

Definition lib : GoLib := {|
  netip_ParseAddr := parseIPv4;
  filepath_Join := join;
  yaml_Unmarshal := unmarshal;
  yaml_Marshal := marshal;
  url_Parse_Path := fun s => Ok (after_slashes 3 s);
  uninstallTmplContent := "#!/bin/sh" +:+ LF +:+ "rm -rf ";
  Template := string;
  template_Parse := fun _ text => Ok text;
  template_Execute := fun t dataDir _ => Ok (t +:+ dataDir +:+ LF)
|}.
End sample.

Definition sampleConfig (pod svc : string) : Config := {|
  cluster := {| FlannelBackend := "vxlan"; ClusterCidr := pod; ServiceCidr := svc;
                Token := "k3air-token"; TLSSAN := []; Disable := [];
                DataDir := "/var/lib/rancher/k3s"; EmbeddedRegistry := false;
                Registries := "" |};
  Assets := sampleAssets;
  Servers := [sampleNode "k3s-server-1" "192.168.1.11" []];
  Agents := [sampleNode "k3s-agent-1" "192.168.1.21" []]
|}.

(** *** Sample runs *)

Definition emptyState : State := {|
  trace := [];
  assetManager := {| tempDir := "/tmp/k3air-assets-1"; downloadedFiles := [] |}
|}.

Definition server1 : Node := sampleNode "k3s-server-1" "192.168.1.11" [].
Definition server2 : Node := sampleNode "k3s-server-2" "192.168.1.14" [].
Definition server3 : Node := sampleNode "k3s-server-3" "192.168.1.16" [].
Definition agent1 : Node := sampleNode "k3s-agent-1" "192.168.1.21" [].

(** The three servers of the example configuration in the README. *)
Definition threeServers : Installer :=
  sampleInstaller (sampleCluster "k3air-token") [server1; server2; server3] [].

Definition oneServerOneAgent : Installer :=
  sampleInstaller (sampleCluster "k3air-token") [server1] [agent1].

Definition failed (message : string) : Reply :=
  {| stdout := ""; stderr := ""; failure := Some (Errorf message) |}.

(** A world in which every operation succeeds and the primary holds the
    kubeconfig that k3s writes. *)
Definition healthy : Environment := {|
  respond := fun _ op =>
    match op with
    | OpDownloadBytes _ _ =>
        {| stdout := sample.kubeconfigText sample.loopbackURL; stderr := "";
           failure := None |}
    | OpHttpGet _ => {| stdout := "200 OK"; stderr := ""; failure := None |}
    | _ => done
    end
|}.

(** A world in which k3s does not start on the second server. *)
Definition secondServerDown : Environment := {|
  respond := fun tr op =>
    match op with
    | OpRun c cmd =>
        if String.eqb (host c) "192.168.1.14" && String.eqb cmd "systemctl restart k3s"
        then {| stdout := ""; stderr := "Job for k3s.service failed";
                failure := Some (Errorf "Process exited with status 1") |}
        else done
    | _ => @respond healthy tr op
    end
|}.

(** A world in which no kubeconfig can be fetched from the primary. *)
Definition noKubeconfig : Environment := {|
  respond := fun tr op =>
    match op with
    | OpDownloadBytes _ _ => failed "file does not exist"
    | _ => @respond healthy tr op
    end
|}.
(** ** Sample libraries and files for the examples about loading and sizes *)

Module demo.
Local Open Scope Z_scope.

(** A formatter for [%.1f] that rounds the quotient to tenths in exact
    arithmetic, halves upwards.  (Go divides and rounds in [float64]; the
    two agree on the sizes used in the examples.) *)
Definition tenths (b div : Z) : string :=
  let t := (10 * b + div / 2) / div in
  Sprintf_d (t / 10) +:+ "." +:+ Sprintf_d (t mod 10).

Definition fmt : FmtLib := {| Sprintf_f1 := tenths |}.

(** A configuration file that names one server and one agent and leaves
    everything else out. *)
Definition minimalText : string :=
  "servers:" +:+ LF +:+ "  - node_name: k3s-server-1" +:+ LF
  +:+ "    ip: 192.168.1.11" +:+ LF
  +:+ "agents:" +:+ LF +:+ "  - node_name: k3s-agent-1" +:+ LF
  +:+ "    ip: 192.168.1.21" +:+ LF.

Definition bareNode (name ip : string) (port : Z) : Node := {|
  NodeName := name; IP := ip; Port := port; User := ""; Password := "";
  KeyPath := ""; Labels := []
|}.

Definition minimalConfig : Config := {|
  cluster := cluster zeroConfig;
  Assets := Assets zeroConfig;
  Servers := [bareNode "k3s-server-1" "192.168.1.11" 0];
  Agents := [bareNode "k3s-agent-1" "192.168.1.21" 0]
|}.

(** The same cluster with every defaulted setting written out. *)
Definition completeText : string :=
  "cluster:" +:+ LF +:+ "  flannel-backend: vxlan" +:+ LF
  +:+ "  cluster-cidr: 10.42.0.0/16" +:+ LF
  +:+ "  service-cidr: 10.43.0.0/16" +:+ LF
  +:+ "  data-dir: /var/lib/rancher/k3s" +:+ LF
  +:+ "assets:" +:+ LF +:+ "  k3s-binary: k3s" +:+ LF
  +:+ "  k3s-airgap-tarball: k3s-airgap-images-amd64.tar.gz" +:+ LF
  +:+ "servers:" +:+ LF +:+ "  - node_name: k3s-server-1" +:+ LF
  +:+ "    ip: 192.168.1.11" +:+ LF +:+ "    port: 22" +:+ LF
  +:+ "agents:" +:+ LF +:+ "  - node_name: k3s-agent-1" +:+ LF
  +:+ "    ip: 192.168.1.21" +:+ LF +:+ "    port: 22" +:+ LF.

Definition completeConfig : Config := {|
  cluster := {| FlannelBackend := "vxlan"; ClusterCidr := "10.42.0.0/16";
                ServiceCidr := "10.43.0.0/16"; Token := ""; TLSSAN := [];
                Disable := []; DataDir := "/var/lib/rancher/k3s";
                EmbeddedRegistry := false; Registries := "" |};
  Assets := {| K3sBinary := "k3s";
               K3sAirgapTarball := "k3s-airgap-images-amd64.tar.gz" |};
  Servers := [bareNode "k3s-server-1" "192.168.1.11" 22];
  Agents := [bareNode "k3s-agent-1" "192.168.1.21" 22]
|}.

(** A file system with the two files, and a decoder that knows them. *)
Definition files : ConfigFiles := {|
  os_ReadFile := fun path =>
    if String.eqb path "init.yaml" then Ok minimalText
    else if String.eqb path "complete.yaml" then Ok completeText
    else Err {| Error := "open " +:+ path +:+ ": no such file or directory";
                IsNotExist := true |};
  yaml_Unmarshal_Config := fun text =>
    if String.eqb text minimalText then (minimalConfig, None)
    else if String.eqb text completeText then (completeConfig, None)
    else (zeroConfig, Some (Errorf "yaml: document not known to the sample decoder"))
|}.

(** The installer that [main] builds for a loaded configuration. *)
Definition installerOf (c : Config) : Installer :=
  {| cfg := c; assetsDir := "assets"; templateAssetsDir := "assets";
     verbose := false |}.

(** A configuration whose second server has no address. *)
Definition unaddressed : Config := {|
  cluster := cluster completeConfig;
  Assets := Assets completeConfig;
  Servers := [bareNode "k3s-server-1" "192.168.1.11" 22;
              bareNode "k3s-server-2" "" 22;
              bareNode "k3s-server-3" "192.168.1.16" 22];
  Agents := []
|}.
End demo.

(** A world in which the images archive is missing on the local machine. *)
Definition noImages : Environment := {|
  respond := fun tr op =>
    match op with
    | OpStat path =>
        if String.eqb path "k3s-airgap-images-amd64.tar.gz"
        then {| stdout := ""; stderr := "";
                failure := Some {| Error := "stat k3s-airgap-images-amd64.tar.gz: "
                                            +:+ "no such file or directory";
                                   IsNotExist := true |} |}
        else done
    | _ => @respond healthy tr op
    end
|}.

(** * Proofs *)

(** ** Facts about the [strings] functions *)

Module strings_facts.
Import strings.

Lemma append_assoc (a b c : string) : (a +:+ b) +:+ c = a +:+ (b +:+ c).
Proof. induction a as [|x a IH]; simpl; [reflexivity | now rewrite IH]. Qed.

Lemma length_append (a b : string) :
  String.length (a +:+ b) = String.length a + String.length b.
Proof. induction a as [|x a IH]; simpl; [reflexivity | now rewrite IH]. Qed.

Lemma HasPrefix_nil (s : string) : HasPrefix s "" = true.
Proof. destruct s; reflexivity. Qed.

Lemma HasPrefix_append (w b : string) : HasPrefix (w +:+ b) w = true.
Proof.
  induction w as [|x w IH]; simpl; [apply HasPrefix_nil |].
  now rewrite Ascii.eqb_refl, IH.
Qed.

(** [HasPrefix s w] holds exactly when [s] starts with [w]. *)
Lemma HasPrefix_spec (s w : string) :
  HasPrefix s w = true <-> exists b, s = w +:+ b.
Proof.
  split.
  - revert s; induction w as [|x w IH]; intros s H.
    + now exists s.
    + destruct s as [|y s]; simpl in H; [discriminate |].
      apply andb_true_iff in H as [Hxy H].
      apply Ascii.eqb_eq in Hxy as ->.
      destruct (IH _ H) as [b ->]. now exists b.
  - intros [b ->]. apply HasPrefix_append.
Qed.

Lemma Contains_cons (c : ascii) (s w : string) :
  Contains (String c s) w = HasPrefix (String c s) w || Contains s w.
Proof. reflexivity. Qed.

Lemma Contains_empty (w : string) : Contains "" w = HasPrefix "" w.
Proof. simpl. now rewrite orb_false_r. Qed.

(** [Contains s w] holds exactly when [w] occurs somewhere in [s]. *)
Lemma Contains_spec (s w : string) :
  Contains s w = true <-> exists a b, s = a +:+ w +:+ b.
Proof.
  split.
  - induction s as [|c s IH]; intros H.
    + rewrite Contains_empty in H. apply HasPrefix_spec in H as [b Hb].
      now exists "", b.
    + rewrite Contains_cons in H. apply orb_true_iff in H as [H|H].
      * apply HasPrefix_spec in H as [b Hb]. now exists "", b.
      * destruct (IH H) as (a & b & ->). now exists (String c a), b.
  - intros (a & b & ->). induction a as [|c a IH].
    + simpl "+:+". destruct (w +:+ b) eqn:E.
      * rewrite Contains_empty, <- E. apply HasPrefix_append.
      * rewrite Contains_cons, <- E, HasPrefix_append. reflexivity.
    + simpl "+:+". rewrite Contains_cons, IH. apply orb_true_r.
Qed.

Lemma Contains_append_l (a b w : string) :
  Contains a w = true -> Contains (a +:+ b) w = true.
Proof.
  intros H. apply Contains_spec in H as (x & y & ->).
  apply Contains_spec. exists x, (y +:+ b). now rewrite !append_assoc.
Qed.

Lemma Contains_append_r (a b w : string) :
  Contains b w = true -> Contains (a +:+ b) w = true.
Proof.
  intros H. apply Contains_spec in H as (x & y & ->).
  apply Contains_spec. exists (a +:+ x), y. now rewrite !append_assoc.
Qed.

(** A word that does not contain the byte [c] cannot reach across an
    occurrence of [c]. *)
Lemma HasPrefix_sep (c : ascii) (w a b : string) :
  has_byte c w = false ->
  HasPrefix (a +:+ String c b) w = HasPrefix a w.
Proof.
  revert a; induction w as [|x w IH]; intros a Hc.
  - now rewrite !HasPrefix_nil.
  - simpl in Hc. apply orb_false_iff in Hc as [Hx Hw].
    destruct a as [|y a]; simpl.
    + rewrite Ascii.eqb_sym, Hx. reflexivity.
    + now rewrite IH.
Qed.

Lemma Contains_sep (c : ascii) (w a b : string) :
  has_byte c w = false ->
  Contains (a +:+ String c b) w = Contains a w || Contains b w.
Proof.
  intros Hc. induction a as [|y a IH].
  - simpl "+:+". rewrite Contains_cons, Contains_empty.
    rewrite <- (HasPrefix_sep c w "" b Hc). reflexivity.
  - simpl "+:+". rewrite !Contains_cons, IH.
    change (String y (a +:+ String c b)) with (String y a +:+ String c b).
    rewrite (HasPrefix_sep c w _ b Hc). now rewrite orb_assoc.
Qed.

Lemma Join_cons (x y : string) (l : list string) (sep : string) :
  Join (x :: y :: l) sep = x +:+ sep +:+ Join (y :: l) sep.
Proof. reflexivity. Qed.

Lemma Join_app (l1 l2 : list string) (sep : string) :
  l1 <> [] -> l2 <> [] ->
  Join (l1 ++ l2) sep = Join l1 sep +:+ sep +:+ Join l2 sep.
Proof.
  intros H1 H2. induction l1 as [|x l1 IH]; [congruence |].
  destruct l1 as [|y l1].
  - destruct l2; [congruence | reflexivity].
  - change ((x :: y :: l1) ++ l2) with (x :: y :: (l1 ++ l2)).
    rewrite !Join_cons.
    change (y :: l1 ++ l2) with ((y :: l1) ++ l2).
    rewrite IH by congruence. now rewrite !append_assoc.
Qed.

(** A word without blanks occurs in a blank-separated line exactly when
    it occurs in one of the joined elements. *)
Lemma Contains_Join (w : string) (l : list string) :
  has_byte " " w = false -> w <> "" ->
  Contains (Join l " ") w = existsb (fun x => Contains x w) l.
Proof.
  intros Hc Hw. induction l as [|x l IH].
  - simpl. destruct w; [congruence | reflexivity].
  - destruct l as [|y l].
    + simpl Join. simpl existsb. now rewrite orb_false_r.
    + rewrite Join_cons. change (" " +:+ Join (y :: l) " ")
        with (String " " (Join (y :: l) " ")).
      rewrite (Contains_sep " " w _ _ Hc), IH. reflexivity.
Qed.

(** *** [ReplaceAll] *)

Lemma replace_skip (old new a b : string) :
  replace_from (String.length a) (a +:+ b) old new = replace_from 0 b old new.
Proof. induction a as [|c a IH]; [reflexivity | exact IH]. Qed.

Section Replace.
Variables old new : string.
Hypothesis old_nonempty : old <> "".

Local Abbreviation R := (fun s => replace_from 0 s old new).

(** At an occurrence of [old], [new] is written and the scan goes on
    behind the occurrence. *)
Lemma replace_match (s : string) :
  HasPrefix s old = true ->
  exists b, s = old +:+ b /\ R s = new +:+ R b.
Proof.
  intros Hp. pose proof Hp as Hs. apply HasPrefix_spec in Hs as [b ->].
  exists b. split; [reflexivity |].
  destruct old as [|o old'] eqn:E; [congruence |].
  change (String o old' +:+ b) with (String o (old' +:+ b)) in *.
  cbn [replace_from]. rewrite Hp.
  change (String.length (String o old') - 1) with (String.length old' - 0).
  now rewrite Nat.sub_0_r, replace_skip.
Qed.

Lemma replace_nomatch (c : ascii) (s : string) :
  HasPrefix (String c s) old = false -> R (String c s) = String c (R s).
Proof. intros Hp. cbn [replace_from]. now rewrite Hp. Qed.

(** A text without an occurrence of [old] is left as it is. *)
Lemma replace_absent (s : string) : Contains s old = false -> R s = s.
Proof.
  induction s as [|c s IH]; intros Hc; [reflexivity |].
  rewrite Contains_cons in Hc. apply orb_false_iff in Hc as [Hp Hc].
  now rewrite (replace_nomatch _ _ Hp), IH.
Qed.

Lemma replace_length_le (m : nat) (s : string) :
  String.length s <= m -> String.length new <= String.length old ->
  String.length (R s) <= String.length s.
Proof.
  revert s; induction m as [|m IH]; intros s Hm Hn.
  - destruct s; simpl in *; lia.
  - destruct s as [|c s]; [simpl; lia |].
    destruct (HasPrefix (String c s) old) eqn:Hp.
    + destruct (replace_match _ Hp) as (b & E & ->). rewrite E.
      assert (0 < String.length old) by (destruct old; [congruence | simpl; lia]).
      assert (Hb : String.length b <= m).
      { apply (f_equal String.length) in E. rewrite length_append in E.
        simpl in E, Hm. lia. }
      specialize (IH b Hb Hn). rewrite !length_append. lia.
    + rewrite (replace_nomatch _ _ Hp). simpl in *.
      specialize (IH s ltac:(lia) Hn). lia.
Qed.

Lemma replace_length_ge (m : nat) (s : string) :
  String.length s <= m -> String.length old <= String.length new ->
  String.length s <= String.length (R s).
Proof.
  revert s; induction m as [|m IH]; intros s Hm Hn.
  - destruct s; simpl in *; lia.
  - destruct s as [|c s]; [simpl; lia |].
    destruct (HasPrefix (String c s) old) eqn:Hp.
    + destruct (replace_match _ Hp) as (b & E & ->). rewrite E.
      assert (0 < String.length old) by (destruct old; [congruence | simpl; lia]).
      assert (Hb : String.length b <= m).
      { apply (f_equal String.length) in E. rewrite length_append in E.
        simpl in E, Hm. lia. }
      specialize (IH b Hb Hn). rewrite !length_append. lia.
    + rewrite (replace_nomatch _ _ Hp). simpl in *.
      specialize (IH s ltac:(lia) Hn). lia.
Qed.

Lemma append_same_length (a b x y : string) :
  String.length a = String.length b -> a +:+ x = b +:+ y -> a = b.
Proof.
  revert b; induction a as [|c a IH]; intros [|d b] Hl E; simpl in *;
    try discriminate; [reflexivity |].
  injection E as -> E. f_equal. apply IH; [lia | exact E].
Qed.

(** If the replacement differs from [old], a text that comes back
    unchanged had no occurrence of [old]. *)
Lemma replace_fixed (m : nat) (s : string) :
  String.length s <= m -> new <> old -> R s = s -> Contains s old = false.
Proof.
  revert s; induction m as [|m IH]; intros s Hm Hne Hfix.
  - destruct s; [| simpl in Hm; lia].
    rewrite Contains_empty. destruct old; [congruence | reflexivity].
  - destruct s as [|c s].
    + rewrite Contains_empty. destruct old; [congruence | reflexivity].
    + rewrite Contains_cons.
      destruct (HasPrefix (String c s) old) eqn:Hp.
      * exfalso. destruct (replace_match _ Hp) as (b & E & Hr).
        rewrite Hr, E in Hfix.
        pose proof (f_equal String.length Hfix) as Hl.
        rewrite !length_append in Hl.
        destruct (Nat.lt_trichotomy (String.length new) (String.length old))
          as [Hlt | [Heq | Hgt]].
        -- pose proof (replace_length_le _ b (Nat.le_refl _) ltac:(lia)). lia.
        -- apply Hne. eapply append_same_length; eassumption.
        -- pose proof (replace_length_ge _ b (Nat.le_refl _) ltac:(lia)). lia.
      * rewrite (replace_nomatch _ _ Hp) in Hfix. injection Hfix as Hfix.
        simpl in Hm. apply IH; [lia | assumption | assumption].
Qed.
End Replace.

(** [ReplaceAll] changes a text exactly when the text contains [old] and
    the replacement is another text. *)
Lemma ReplaceAll_changes (s old new : string) :
  old <> "" ->
  ReplaceAll s old new <> s <-> Contains s old = true /\ new <> old.
Proof.
  intros Ho. unfold ReplaceAll. split.
  - intros Hd. split.
    + destruct (Contains s old) eqn:E; [reflexivity |].
      exfalso. apply Hd. now apply replace_absent.
    + intros ->. apply Hd. clear Hd.
      assert (G : forall m t, String.length t <= m -> replace_from 0 t old old = t).
      { induction m as [|m IH]; intros t Hm.
        - destruct t; [reflexivity | simpl in Hm; lia].
        - destruct t as [|c t]; [reflexivity |].
          destruct (HasPrefix (String c t) old) eqn:Hp.
          + destruct (replace_match old old Ho _ Hp) as (b & E & ->).
            rewrite IH; [now rewrite E |].
            apply (f_equal String.length) in E. rewrite length_append in E.
            assert (0 < String.length old) by (destruct old; [congruence | simpl; lia]).
            simpl in E, Hm. lia.
          + rewrite (replace_nomatch old old _ _ Hp), IH; [reflexivity |].
            simpl in Hm. lia. }
      now apply (G (String.length s)).
  - intros [Hc Hne] Hfix.
    rewrite (replace_fixed old new Ho (String.length s) s) in Hc; auto; discriminate.
Qed.

End strings_facts.

(** ** Service-unit generation *)

Module unit_facts.
Import strings strings_facts.

Lemma nonempty_true (s : string) : nonempty s = true <-> s <> "".
Proof.
  unfold nonempty. rewrite negb_true_iff. split.
  - intros H ->. discriminate.
  - intros H. destruct s; [congruence | reflexivity].
Qed.

Lemma nonempty_false (s : string) : nonempty s = false <-> s = "".
Proof.
  unfold nonempty. rewrite negb_false_iff. apply String.eqb_eq.
Qed.

Lemma if_append (c : bool) (args l : list string) :
  (if c then args ++ l else args) = args ++ (if c then l else []).
Proof. destruct c; [reflexivity | now rewrite app_nil_r]. Qed.

Lemma opt_words (g : FlagGroup) (flag v : string) :
  flat_map words (opt g flag v) = if nonempty v then [flag; v] else [].
Proof. unfold opt. now destruct (nonempty v). Qed.

(** The [range] loops of the generators append one flag per non-empty
    element, in the order of the slice. *)
Lemma fold_append_flag (g : FlagGroup) (flag : string) (xs args : list string) :
  fold_left (append_flag flag) xs args
  = args ++ flat_map words (flat_map (opt g flag) xs).
Proof.
  revert args; induction xs as [|x xs IH]; intros args; simpl.
  - now rewrite app_nil_r.
  - rewrite IH, flat_map_app, opt_words. unfold append_flag.
    rewrite if_append. now rewrite <- app_assoc.
Qed.

(** The slice built by [serverServiceContent], followed by the token that
    the function appends as text, is the layout [serverItems]. *)
Lemma serverArgs_items (i : Installer) (node : Node) (ip : string) (b : bool) :
  serverArgs i node ip b ++ ["--token"; Token (cluster (cfg i))]
  = flat_map words (serverItems (cluster (cfg i)) node ip b).
Proof.
  unfold serverArgs, serverItems, joinTarget. cbv zeta.
  rewrite (fold_append_flag GLabels), (fold_append_flag GDisabled),
    (fold_append_flag GCertNames).
  rewrite !if_append, !flat_map_app, !opt_words.
  destruct b; simpl; rewrite <- ?app_assoc; simpl;
    destruct (EmbeddedRegistry (cluster (cfg i))); reflexivity.
Qed.

Lemma agentArgs_items (i : Installer) (node : Node) (ip : string) :
  agentArgs i node ip = flat_map words (agentItems (cluster (cfg i)) node ip).
Proof.
  unfold agentArgs, agentItems, joinTarget. cbv zeta.
  rewrite (fold_append_flag GLabels).
  rewrite !if_append, !flat_map_app, !opt_words.
  simpl; rewrite <- ?app_assoc; reflexivity.
Qed.

Lemma serverArgs_nonempty (i : Installer) (node : Node) (ip : string) (b : bool) :
  serverArgs i node ip b <> [].
Proof.
  unfold serverArgs. cbv zeta.
  rewrite (fold_append_flag GLabels), (fold_append_flag GDisabled),
    (fold_append_flag GCertNames), !if_append.
  destruct b; discriminate.
Qed.

(** Both generators produce the rendering of their layout. *)
Lemma serverServiceContent_render (i : Installer) (node : Node) (ip : string) (b : bool) :
  serverServiceContent i node ip b
  = renderUnit "k3s" (serverItems (cluster (cfg i)) node ip b).
Proof.
  unfold serverServiceContent, renderUnit. cbv zeta.
  rewrite <- serverArgs_items.
  rewrite Join_app by (try apply serverArgs_nonempty; discriminate).
  reflexivity.
Qed.

Lemma agentServiceContent_render (i : Installer) (node : Node) (ip : string) :
  agentServiceContent i node ip
  = renderUnit "k3s-agent" (agentItems (cluster (cfg i)) node ip).
Proof.
  unfold agentServiceContent, renderUnit. cbv zeta.
  now rewrite agentArgs_items.
Qed.

(** *** Where a flag can occur in a unit text *)

Lemma unitService_flat (name exec : string) :
  unitService name exec
  = "[Unit]" +:+ String lf
    ("Description" +:+ String "=" (name +:+ String lf
    ("After" +:+ String "=" ("network.target" +:+ String lf
    ("[Service]" +:+ String lf
    ("Type" +:+ String "=" ("notify" +:+ String lf
    ("ExecStart" +:+ String "=" (exec +:+ String lf
    ("Restart" +:+ String "=" ("always" +:+ String lf
    ("LimitNOFILE" +:+ String "=" ("1048576" +:+ String lf
    ("[Install]" +:+ String lf
    ("WantedBy" +:+ String "=" ("multi-user.target" +:+ String lf "")))))))))))))))).
Proof.
  unfold unitService, LF, lf. cbv zeta.
  repeat (rewrite ?append_assoc; simpl). reflexivity.
Qed.

Section Search.
Variable w : string.
Hypothesis w_lf : has_byte lf w = false.
Hypothesis w_eq : has_byte "=" w = false.
Hypothesis w_sp : has_byte " " w = false.
Hypothesis w_ne : w <> "".
Hypothesis w_skeleton : mentions w skeleton = false.

Local Abbreviation P := (fun x : string => Contains x w).

Lemma P_empty : Contains "" w = false.
Proof. destruct w; [congruence | reflexivity]. Qed.

Lemma P_skeleton (x : string) : In x skeleton -> Contains x w = false.
Proof.
  intros Hx. unfold mentions in w_skeleton.
  destruct (Contains x w) eqn:E; [| reflexivity].
  rewrite <- w_skeleton. symmetry. apply existsb_exists. now exists x.
Qed.

(** A word without line feed, [=] and blank occurs in a rendered unit
    exactly when it occurs in the unit's name or in one of the words of
    the command line. *)
Lemma Contains_renderUnit (name : string) (items : list Item) :
  Contains (renderUnit name items) w
  = Contains name w || existsb P (flat_map words items).
Proof.
  unfold renderUnit. rewrite unitService_flat.
  change ("/usr/local/bin/k3s " +:+ ?x) with ("/usr/local/bin/k3s" +:+ String " " x).
  repeat first
    [ rewrite (Contains_sep lf w _ _ w_lf)
    | rewrite (Contains_sep "=" w _ _ w_eq)
    | rewrite (Contains_sep " " w _ _ w_sp) ].
  rewrite (Contains_Join w _ w_sp w_ne).
  repeat match goal with
    | |- context [Contains ?x w] =>
        rewrite (P_skeleton x)
          by (unfold skeleton; simpl; solve [repeat (first [left; reflexivity | right])])
    end.
  rewrite P_empty. simpl. now rewrite !orb_false_r.
Qed.

Lemma existsb_opt (g : FlagGroup) (flag v : string) :
  Contains flag w = false ->
  existsb P (flat_map words (opt g flag v)) = Contains v w.
Proof.
  intros Hf. rewrite opt_words. destruct (nonempty v) eqn:E; simpl.
  - now rewrite Hf, orb_false_r.
  - apply nonempty_false in E as ->. now rewrite P_empty.
Qed.

Lemma existsb_opts (g : FlagGroup) (flag : string) (xs : list string) :
  Contains flag w = false ->
  existsb P (flat_map words (flat_map (opt g flag) xs)) = existsb P xs.
Proof.
  intros Hf. induction xs as [|x xs IH]; simpl; [reflexivity |].
  now rewrite flat_map_app, existsb_app, existsb_opt, IH.
Qed.
End Search.

Local Arguments Contains : simpl never.

(** The command is copied into the unit text as it is. *)
Lemma unitService_split (name : string) :
  exists p q, forall exec, unitService name exec = p +:+ exec +:+ q.
Proof.
  exists ("[Unit]" +:+ LF +:+ "Description=" +:+ name +:+ LF
          +:+ "After=network.target" +:+ LF +:+ "[Service]" +:+ LF
          +:+ "Type=notify" +:+ LF +:+ "ExecStart="),
         (LF +:+ "Restart=always" +:+ LF +:+ "LimitNOFILE=1048576" +:+ LF
          +:+ "[Install]" +:+ LF +:+ "WantedBy=multi-user.target" +:+ LF).
  intros exec. unfold unitService, LF. cbv zeta.
  repeat (rewrite ?append_assoc; simpl). reflexivity.
Qed.

Lemma Contains_unitService (name exec w : string) :
  Contains exec w = true -> Contains (unitService name exec) w = true.
Proof.
  intros H. destruct (unitService_split name) as (p & q & ->).
  now apply Contains_append_r, Contains_append_l.
Qed.

(** What a command line starts with: the words of its first item. *)
Lemma Contains_render_head (name : string) (it : Item) (rest : list Item) (w : string) :
  words it <> [] -> flat_map words rest <> [] ->
  Contains (Join (words it) " " +:+ " ") w = true ->
  Contains (renderUnit name (it :: rest)) w = true.
Proof.
  intros Hit Hrest Hw. unfold renderUnit. apply Contains_unitService.
  apply Contains_append_r. simpl flat_map.
  rewrite Join_app by assumption.
  rewrite <- append_assoc. now apply Contains_append_l.
Qed.

Lemma items_tail_nonempty (l : list Item) (tok : string) :
  In {| group := GToken; words := ["--token"; tok] |} l ->
  flat_map words l <> [].
Proof.
  intros Hin E.
  assert (H : In "--token" (flat_map words l)).
  { apply List.in_flat_map. eexists; split; [exact Hin | now left]. }
  rewrite E in H. destruct H.
Qed.

Ltac token_last :=
  eapply items_tail_nonempty; repeat (apply in_or_app; right); left; reflexivity.

Ltac flag_side :=
  first [ reflexivity | discriminate ].

(** Where the two role flags can occur in a server unit. *)
Lemma server_unit_mentions (w : string) (i : Installer) (node : Node)
    (ip : string) (b : bool) :
  w = initFlag \/ w = joinFlag ->
  Contains (serverServiceContent i node ip b) w
  = existsb (fun x => Contains x w)
      (if b then ["server"; "--cluster-init"] else ["server"; "--server"; joinTarget ip])
    || mentions w (serverValues (cluster (cfg i)) node).
Proof.
  intros Hw. rewrite serverServiceContent_render.
  assert (has_byte lf w = false /\ has_byte "=" w = false /\ has_byte " " w = false
          /\ w <> "" /\ mentions w skeleton = false /\ Contains "k3s" w = false
          /\ forall f, In f ["--flannel-backend"; "--cluster-cidr"; "--service-cidr";
                             "--data-dir"; "--node-name"; "--embedded-registry";
                             "--tls-san"; "--disable"; "--node-label"; "--token"] ->
                       Contains f w = false)
    as (H1 & H2 & H3 & H4 & H5 & H6 & H7).
  { destruct Hw as [-> | ->]; repeat split; try flag_side;
      intros f Hf; simpl in Hf;
      repeat (destruct Hf as [<- | Hf]; [reflexivity |]); destruct Hf. }
  rewrite (Contains_renderUnit w H1 H2 H3 H4 H5), H6. simpl orb.
  unfold serverItems, serverValues, mentions.
  repeat rewrite ?flat_map_app, ?existsb_app.
  rewrite ?(existsb_opt w H1 H2 H3 H4 H5), ?(existsb_opts w H1 H2 H3 H4 H5) by (apply H7; simpl; tauto).
  replace (existsb (fun x => Contains x w)
             (flat_map words
                (if EmbeddedRegistry (cluster (cfg i))
                 then [ {| group := GRegistry; words := ["--embedded-registry"] |} ]
                 else []))) with false
    by (destruct (EmbeddedRegistry (cluster (cfg i))); simpl;
        rewrite ?(H7 "--embedded-registry") by (simpl; tauto); reflexivity).
  simpl. rewrite (H7 "--token") by (simpl; tauto).
  rewrite ?orb_false_r, ?orb_false_l, ?orb_assoc. reflexivity.
Qed.

Lemma agent_unit_mentions (w : string) (i : Installer) (node : Node) (ip : string) :
  w = initFlag \/ w = joinFlag ->
  Contains (agentServiceContent i node ip) w
  = existsb (fun x => Contains x w) ["agent"; "--server"; joinTarget ip]
    || mentions w (agentValues (cluster (cfg i)) node).
Proof.
  intros Hw. rewrite agentServiceContent_render.
  assert (has_byte lf w = false /\ has_byte "=" w = false /\ has_byte " " w = false
          /\ w <> "" /\ mentions w skeleton = false /\ Contains "k3s-agent" w = false
          /\ forall f, In f ["--data-dir"; "--node-name"; "--node-label"; "--token"] ->
                       Contains f w = false)
    as (H1 & H2 & H3 & H4 & H5 & H6 & H7).
  { destruct Hw as [-> | ->]; repeat split; try flag_side;
      intros f Hf; simpl in Hf;
      repeat (destruct Hf as [<- | Hf]; [reflexivity |]); destruct Hf. }
  rewrite (Contains_renderUnit w H1 H2 H3 H4 H5), H6. simpl orb.
  unfold agentItems, agentValues, mentions.
  repeat rewrite ?flat_map_app, ?existsb_app.
  rewrite ?(existsb_opt w H1 H2 H3 H4 H5), ?(existsb_opts w H1 H2 H3 H4 H5) by (apply H7; simpl; tauto).
  simpl. rewrite (H7 "--token") by (simpl; tauto).
  rewrite ?orb_false_r, ?orb_false_l, ?orb_assoc. reflexivity.
Qed.

(** The join target [https://<ip>:6443] mentions a flag only if the
    address itself does. *)
Lemma joinTarget_mentions (w : string) (ip : string) :
  w = initFlag \/ w = joinFlag ->
  Contains (joinTarget ip) w = Contains ip w.
Proof.
  intros Hw. unfold joinTarget.
  change ("https://" +:+ ip +:+ ":6443")
    with ("https:" +:+ String "/" ("" +:+ String "/" (ip +:+ String ":" "6443"))).
  assert (has_byte "/" w = false /\ has_byte ":" w = false /\
          Contains "https:" w = false /\ Contains "" w = false /\
          Contains "6443" w = false) as (H1 & H2 & H3 & H4 & H5)
    by (destruct Hw as [-> | ->]; repeat split; reflexivity).
  rewrite !(Contains_sep "/" w _ _ H1), (Contains_sep ":" w _ _ H2).
  rewrite H3, H4, H5. simpl. now rewrite orb_false_r.
Qed.

(** *** The order of the flags *)

Lemma sorted_app (l1 l2 : list Item) (k : nat) :
  StronglySorted before l1 -> StronglySorted before l2 ->
  Forall (fun x => rank (group x) <= k) l1 ->
  Forall (fun y => k <= rank (group y)) l2 ->
  StronglySorted before (l1 ++ l2).
Proof.
  intros S1 S2 F1 F2. induction S1 as [|x l1 S1 IH Hx]; simpl; [assumption |].
  inversion F1 as [|? ? Hk F1']; subst.
  constructor; [now apply IH |].
  apply Forall_app; split; [assumption |].
  eapply List.Forall_impl; [| exact F2]. intros y Hy. unfold before. simpl in *. lia.
Qed.

Lemma opt_group (g : FlagGroup) (flag v : string) :
  Forall (fun x => group x = g) (opt g flag v).
Proof. unfold opt. destruct (nonempty v); repeat constructor. Qed.

Lemma opts_group (g : FlagGroup) (flag : string) (xs : list string) :
  Forall (fun x => group x = g) (flat_map (opt g flag) xs).
Proof.
  induction xs as [|x xs IH]; simpl; [constructor |].
  apply Forall_app; split; [apply opt_group | exact IH].
Qed.

(** Items of one group are in order whatever their number. *)
Lemma uniform_sorted (g : FlagGroup) (l : list Item) :
  Forall (fun x => group x = g) l -> StronglySorted before l.
Proof.
  induction 1 as [|x l Hx Hl IH]; constructor; [assumption |].
  eapply List.Forall_impl; [| exact Hl]. intros y Hy. unfold before.
  rewrite Hx, Hy. lia.
Qed.

Lemma uniform_le (g : FlagGroup) (k : nat) (l : list Item) :
  rank g <= k -> Forall (fun x => group x = g) l ->
  Forall (fun x => rank (group x) <= k) l.
Proof. intros Hk. apply List.Forall_impl. now intros x ->. Qed.

Lemma uniform_ge (g : FlagGroup) (k : nat) (l : list Item) :
  k <= rank g -> Forall (fun x => group x = g) l ->
  Forall (fun x => k <= rank (group x)) l.
Proof. intros Hk. apply List.Forall_impl. now intros x ->. Qed.

Lemma registry_group (b : bool) :
  Forall (fun x => group x = GRegistry)
    (if b then [ {| group := GRegistry; words := ["--embedded-registry"] |} ] else []).
Proof. destruct b; repeat constructor. Qed.

Ltac uniform :=
  first [ apply opt_group | apply opts_group | apply registry_group
        | repeat constructor ].

Ltac layout :=
  repeat first
    [ apply Forall_app; split
    | eapply uniform_le; cycle 1; [solve [uniform] | simpl; lia]
    | eapply uniform_ge; cycle 1; [solve [uniform] | simpl; lia] ].

Ltac sorted g k :=
  apply (sorted_app _ _ k);
  [ apply (uniform_sorted g); uniform | | layout | layout ].

Lemma serverItems_sorted (c : Cluster) (node : Node) (ip : string) (b : bool) :
  StronglySorted before (serverItems c node ip b).
Proof.
  unfold serverItems.
  sorted GRole 0. sorted GNetwork 1. sorted GNetwork 1. sorted GNetwork 1.
  sorted GDataDir 2. sorted GNodeName 3. sorted GRegistry 4.
  sorted GCertNames 5. sorted GDisabled 6. sorted GLabels 7.
  apply (uniform_sorted GToken); uniform.
Qed.

Lemma agentItems_sorted (c : Cluster) (node : Node) (ip : string) :
  StronglySorted before (agentItems c node ip).
Proof.
  unfold agentItems.
  sorted GRole 0. sorted GDataDir 2. sorted GNodeName 3. sorted GLabels 7.
  apply (uniform_sorted GToken); uniform.
Qed.

(** *** Which items are left out *)

Lemma opt_complete (g : FlagGroup) (flag v : string) :
  flag <> "" -> Forall complete (opt g flag v).
Proof.
  intros Hf. unfold opt. destruct (nonempty v) eqn:E; [| constructor].
  apply nonempty_true in E. repeat constructor; assumption.
Qed.

Lemma opts_complete (g : FlagGroup) (flag : string) (xs : list string) :
  flag <> "" -> Forall complete (flat_map (opt g flag) xs).
Proof.
  intros Hf. induction xs as [|x xs IH]; simpl; [constructor |].
  apply Forall_app; split; [now apply opt_complete | exact IH].
Qed.

Ltac complete_items :=
  repeat first
    [ apply Forall_app; split
    | apply opt_complete; discriminate
    | apply opts_complete; discriminate
    | apply Forall_nil ].

Lemma serverItems_complete (c : Cluster) (node : Node) (ip : string) (b : bool) :
  exists pre,
    serverItems c node ip b
    = pre ++ [ {| group := GToken; words := ["--token"; Token c] |} ]
    /\ Forall complete pre /\ Forall (fun x => group x <> GToken) pre.
Proof.
  unfold serverItems. eexists (_ :: _).
  split; [| split].
  - simpl. rewrite !app_assoc. reflexivity.
  - constructor.
    + destruct b; repeat constructor; discriminate.
    + complete_items. destruct (EmbeddedRegistry c); repeat constructor; discriminate.
  - constructor; [discriminate |].
    repeat (apply Forall_app; split);
      try (eapply List.Forall_impl; [| uniform]; intros x ->; discriminate).
Qed.

Lemma agentItems_complete (c : Cluster) (node : Node) (ip : string) :
  exists pre,
    agentItems c node ip
    = pre ++ [ {| group := GToken; words := ["--token"; Token c] |} ]
    /\ Forall complete pre /\ Forall (fun x => group x <> GToken) pre.
Proof.
  unfold agentItems. eexists (_ :: _).
  split; [| split].
  - simpl. rewrite !app_assoc. reflexivity.
  - constructor; [repeat constructor; discriminate | complete_items].
  - constructor; [discriminate |].
    repeat (apply Forall_app; split);
      try (eapply List.Forall_impl; [| uniform]; intros x ->; discriminate).
Qed.

End unit_facts.

(** ** The claims about service units *)

Module unit_claims.
Import strings strings_facts unit_facts.

(** C1, as amended.  The unit of the PRIMARY (first server) always contains
    [--cluster-init]; the unit of a SECONDARY server and of a WORKER agent
    always contains [--server https://<primaryAddress>:6443] followed by a
    blank.  The opposite flag is absent from the text exactly when none of
    the configured strings that the generator copies into the command line
    (and, for the joining roles, the primary address) contains it: the
    PRIMARY text contains [--server], and a joining text contains
    [--cluster-init], if and only if such a string does. *)
Theorem role_flags_of_units (i : Installer) (node : Node) (ip : string) :
  let c := cluster (cfg i) in
  (Contains (serverServiceContent i node ip true) "--cluster-init" = true /\
   Contains (serverServiceContent i node ip true) "--server"
   = mentions "--server" (serverValues c node))
  /\
  (Contains (serverServiceContent i node ip false)
     ("--server https://" +:+ ip +:+ ":6443 ") = true /\
   Contains (serverServiceContent i node ip false) "--cluster-init"
   = mentions "--cluster-init" (ip :: serverValues c node))
  /\
  (Contains (agentServiceContent i node ip)
     ("--server https://" +:+ ip +:+ ":6443 ") = true /\
   Contains (agentServiceContent i node ip) "--cluster-init"
   = mentions "--cluster-init" (ip :: agentValues c node)).
Proof.
  intros c. repeat split.
  - rewrite serverServiceContent_render.
    apply Contains_render_head; [discriminate | token_last | reflexivity].
  - rewrite (server_unit_mentions "--server") by (now right). reflexivity.
  - rewrite serverServiceContent_render.
    apply Contains_render_head; [discriminate | token_last |].
    apply Contains_spec. exists "server ", "".
    unfold joinTarget. simpl. now rewrite !append_assoc.
  - rewrite (server_unit_mentions "--cluster-init") by (now left).
    unfold mentions. cbn [existsb].
    rewrite (joinTarget_mentions "--cluster-init") by (now left).
    change (Contains "server" "--cluster-init") with false.
    change (Contains "--server" "--cluster-init") with false.
    cbn [orb]. now rewrite orb_false_r.
  - rewrite agentServiceContent_render.
    apply Contains_render_head; [discriminate | token_last |].
    apply Contains_spec. exists "agent ", "".
    unfold joinTarget. simpl. now rewrite !append_assoc.
  - rewrite (agent_unit_mentions "--cluster-init") by (now left).
    unfold mentions. cbn [existsb].
    rewrite (joinTarget_mentions "--cluster-init") by (now left).
    change (Contains "agent" "--cluster-init") with false.
    change (Contains "--server" "--cluster-init") with false.
    cbn [orb]. now rewrite orb_false_r.
Qed.

(** C1 as stated fails: a node label that happens to contain the text of
    a role flag puts that text into the unit of the opposite role. *)
Lemma role_flags_counterexample :
  Contains
    (serverServiceContent
       (sampleInstaller (sampleCluster "k3air-token") [] [])
       (sampleNode "k3s-server-2" "192.168.1.14" ["stage=post--cluster-init"])
       "192.168.1.11" false)
    "--cluster-init" = true
  /\
  Contains
    (serverServiceContent
       (sampleInstaller (sampleCluster "k3air-token") [] [])
       (sampleNode "k3s-server-1" "192.168.1.11" ["pool=k3s--server"])
       "192.168.1.11" true)
    "--server" = true.
Proof. split; vm_compute; reflexivity. Qed.

(** C4, as amended.  Both generators emit the layout of the
    specification: the role words first, then the network settings
    ([--flannel-backend], [--cluster-cidr], [--service-cidr]), the data
    directory, the node name, the embedded-registry toggle, the
    certificate names, the disabled components, the node labels and the
    token, an agent unit carrying only the role, data directory, node
    name, label and token groups.  The items come in the order of their
    groups.  The token item is always the last one, also when the token is
    empty.  Every other item is complete: none of its words is empty, and
    a flag that takes its argument from the configuration is emitted
    together with that argument or not at all. *)
Theorem flag_layout (i : Installer) (node : Node) (ip : string) (isPrimary : bool) :
  let c := cluster (cfg i) in
  let tokenItem := {| group := GToken; words := ["--token"; Token c] |} in
  (serverServiceContent i node ip isPrimary
   = renderUnit "k3s" (serverItems c node ip isPrimary) /\
   agentServiceContent i node ip = renderUnit "k3s-agent" (agentItems c node ip))
  /\
  (StronglySorted before (serverItems c node ip isPrimary) /\
   StronglySorted before (agentItems c node ip))
  /\
  (exists pre, serverItems c node ip isPrimary = pre ++ [tokenItem]
               /\ Forall complete pre /\ Forall (fun x => group x <> GToken) pre)
  /\
  (exists pre, agentItems c node ip = pre ++ [tokenItem]
               /\ Forall complete pre /\ Forall (fun x => group x <> GToken) pre).
Proof.
  intros c tokenItem. repeat split.
  - apply serverServiceContent_render.
  - apply agentServiceContent_render.
  - apply serverItems_sorted.
  - apply agentItems_sorted.
  - apply serverItems_complete.
  - apply agentItems_complete.
Qed.

(** C4 as stated fails for the token: with an empty token both generators
    still emit [--token], with nothing after it on the command line. *)
Lemma flag_layout_counterexample :
  Token (sampleCluster "") = ""
  /\
  Contains
    (serverServiceContent (sampleInstaller (sampleCluster "") [] [])
       (sampleNode "k3s-server-1" "192.168.1.11" []) "192.168.1.11" true)
    (" --token " +:+ LF) = true
  /\
  Contains
    (agentServiceContent (sampleInstaller (sampleCluster "") [] [])
       (sampleNode "k3s-agent-1" "192.168.1.21" []) "192.168.1.11")
    (" --token " +:+ LF) = true.
Proof. repeat split; vm_compute; reflexivity. Qed.

(** C7.  The unit text is a function of the cluster settings, the node's
    name and labels, the primary address and the role, and of nothing
    else: two calls that agree on these produce the same text, whatever
    the other fields of the installer and of the node are.  The generators
    take no machine state, so no trace or file-system state can influence
    the text. *)
Theorem unit_text_deterministic (i1 i2 : Installer) (n1 n2 : Node)
    (ip : string) (isPrimary : bool) :
  cluster (cfg i1) = cluster (cfg i2) ->
  NodeName n1 = NodeName n2 ->
  Labels n1 = Labels n2 ->
  serverServiceContent i1 n1 ip isPrimary = serverServiceContent i2 n2 ip isPrimary
  /\ agentServiceContent i1 n1 ip = agentServiceContent i2 n2 ip.
Proof.
  intros Hc Hn Hl.
  unfold serverServiceContent, agentServiceContent, serverArgs, agentArgs.
  cbv zeta. now rewrite Hc, Hn, Hl.
Qed.

Lemma unit_text_deterministic_witness :
  serverServiceContent
    (sampleInstaller (sampleCluster "k3air-token") [] [])
    (sampleNode "k3s-server-2" "192.168.1.14" ["zone=a"]) "192.168.1.11" false
  = serverServiceContent
      {| cfg := {| cluster := sampleCluster "k3air-token";
                   Assets := {| K3sBinary := "https://example.org/k3s";
                                K3sAirgapTarball := "" |};
                   Servers := [sampleNode "k3s-server-1" "192.168.1.11" []];
                   Agents := [] |};
         assetsDir := "/opt/assets"; templateAssetsDir := "/opt/assets";
         verbose := true |}
      {| NodeName := "k3s-server-2"; IP := "10.9.9.9"; Port := 2222;
         User := "admin"; Password := ""; KeyPath := "/root/.ssh/id_rsa";
         Labels := ["zone=a"] |}
      "192.168.1.11" false
  /\ agentServiceContent
       (sampleInstaller (sampleCluster "k3air-token") [] [])
       (sampleNode "k3s-server-2" "192.168.1.14" ["zone=a"]) "192.168.1.11"
     = agentServiceContent
         {| cfg := {| cluster := sampleCluster "k3air-token";
                      Assets := {| K3sBinary := "https://example.org/k3s";
                                   K3sAirgapTarball := "" |};
                      Servers := [sampleNode "k3s-server-1" "192.168.1.11" []];
                      Agents := [] |};
            assetsDir := "/opt/assets"; templateAssetsDir := "/opt/assets";
            verbose := true |}
         {| NodeName := "k3s-server-2"; IP := "10.9.9.9"; Port := 2222;
            User := "admin"; Password := ""; KeyPath := "/root/.ssh/id_rsa";
            Labels := ["zone=a"] |}
         "192.168.1.11".
Proof.
  apply unit_text_deterministic; reflexivity.
Defined.

End unit_claims.

(** ** CIDR ranges *)

Module net_facts.
Import net.
Local Open Scope Z_scope.

Local Arguments maskBytes : simpl never.
Local Arguments be_bytes : simpl never.

Lemma maskBytes_S (l : nat) (n : Z) :
  maskBytes (S l) n
  = if 8 <=? n then 255 :: maskBytes l (n - 8)
    else Z.lxor 255 (Z.shiftr 255 n) :: maskBytes l 0.
Proof. reflexivity. Qed.

Lemma length_maskBytes (l : nat) (n : Z) : length (maskBytes l n) = l.
Proof.
  revert n; induction l as [|l IH]; intros n; [reflexivity |].
  rewrite maskBytes_S. destruct (8 <=? n); simpl; now rewrite IH.
Qed.

Lemma length_be_bytes (n : nat) (v : Z) : length (be_bytes n v) = n.
Proof.
  induction n as [|n IH]; [reflexivity |].
  change (be_bytes (S n) v)
    with (Z.land (Z.shiftr v (8 * Z.of_nat n)) 255 :: be_bytes n v).
  simpl. now rewrite IH.
Qed.

Lemma length_andBytes (a b : list Z) :
  length a = length b -> length (andBytes a b) = length a.
Proof.
  revert b; induction a as [|x a IH]; intros [|y b] Hl; simpl in *; try congruence.
  now rewrite IH by congruence.
Qed.

(** The mask of a range of [k + l] bytes seen from byte [k] on is the
    mask of the remaining ones. *)
Lemma skipn_maskBytes (k l : nat) (n : Z) :
  0 <= n ->
  skipn k (maskBytes (k + l) n) = maskBytes l (Z.max 0 (n - 8 * Z.of_nat k)).
Proof.
  revert n; induction k as [|k IH]; intros n Hn.
  - replace (Z.max 0 (n - 8 * Z.of_nat 0)) with n by lia. reflexivity.
  - change (S k + l)%nat with (S (k + l)). rewrite maskBytes_S.
    destruct (8 <=? n) eqn:E; cbn [skipn].
    + apply Z.leb_le in E. rewrite IH by lia.
      replace (Z.max 0 (n - 8 - 8 * Z.of_nat k))
        with (Z.max 0 (n - 8 * Z.of_nat (S k))) by lia.
      reflexivity.
    + apply Z.leb_gt in E. rewrite IH by lia.
      replace (Z.max 0 (0 - 8 * Z.of_nat k))
        with (Z.max 0 (n - 8 * Z.of_nat (S k))) by lia.
      reflexivity.
Qed.

(** A shorter prefix mask is contained, bit by bit, in a longer one. *)
Lemma maskHead_nested (p q : Z) :
  0 <= p <= q -> Z.land (maskHead q) (maskHead p) = maskHead p.
Proof.
  intros Hpq. unfold maskHead.
  destruct (8 <=? p) eqn:Ep, (8 <=? q) eqn:Eq;
    try apply Z.leb_le in Ep; try apply Z.leb_gt in Ep;
    try apply Z.leb_le in Eq; try apply Z.leb_gt in Eq; try lia.
  - reflexivity.
  - assert (Hp : p = 0 \/ p = 1 \/ p = 2 \/ p = 3 \/ p = 4 \/ p = 5 \/ p = 6 \/ p = 7) by lia.
    repeat (destruct Hp as [-> | Hp]; [reflexivity |]). now subst.
  - assert (Hp : p = 0 \/ p = 1 \/ p = 2 \/ p = 3 \/ p = 4 \/ p = 5 \/ p = 6 \/ p = 7) by lia.
    assert (Hq : q = 0 \/ q = 1 \/ q = 2 \/ q = 3 \/ q = 4 \/ q = 5 \/ q = 6 \/ q = 7) by lia.
    repeat (destruct Hp as [-> | Hp]);
      repeat (destruct Hq as [-> | Hq]); subst; try lia; reflexivity.
Qed.

Lemma maskBytes_cons (l : nat) (n : Z) :
  maskBytes (S l) n = maskHead n :: maskBytes l (if 8 <=? n then n - 8 else 0).
Proof. rewrite maskBytes_S. unfold maskHead. now destruct (8 <=? n). Qed.

Lemma sameNetwork_refl (nn m : list Z) :
  length m = length nn -> sameNetwork nn m nn = true.
Proof.
  revert m; induction nn as [|x nn IH]; intros [|k m] Hl; simpl in *; try congruence.
  rewrite Z.eqb_refl, IH by congruence. reflexivity.
Qed.

(** If an address lies in two ranges of one length, the range with the
    shorter prefix contains the network number of the other. *)
Lemma sameNetwork_nested (l : nat) (p q : Z) (na nb ip : list Z) :
  0 <= p <= q ->
  length na = l -> length nb = l -> length ip = l ->
  sameNetwork na (maskBytes l p) ip = true ->
  sameNetwork nb (maskBytes l q) ip = true ->
  sameNetwork na (maskBytes l p) nb = true.
Proof.
  revert p q na nb ip; induction l as [|l IH]; intros p q na nb ip Hpq La Lb Li Ha Hb.
  - destruct na; [reflexivity | discriminate].
  - destruct na as [|x na], nb as [|z nb], ip as [|y ip]; try discriminate.
    rewrite maskBytes_cons in *. cbn [sameNetwork] in *.
    apply andb_true_iff in Ha as [Ha Ha'], Hb as [Hb Hb'].
    apply Z.eqb_eq in Ha, Hb.
    apply andb_true_iff; split.
    + apply Z.eqb_eq.
      rewrite <- (maskHead_nested p q Hpq).
      rewrite !Z.land_assoc, Hb, <- !Z.land_assoc, (maskHead_nested p q Hpq).
      exact Ha.
    + apply (IH _ (if 8 <=? q then q - 8 else 0) _ _ ip);
        simpl in *; try congruence.
      destruct (8 <=? p) eqn:Ep, (8 <=? q) eqn:Eq;
        try apply Z.leb_le in Ep; try apply Z.leb_gt in Ep;
        try apply Z.leb_le in Eq; try apply Z.leb_gt in Eq; lia.
Qed.

Lemma IPMask_apply_4 (b m : list Z) :
  length b = 4%nat -> length m = 4%nat ->
  IPMask_apply (v4InV6Prefix ++ b) m = andBytes b m.
Proof.
  intros Hb Hm. unfold IPMask_apply. cbv zeta.
  repeat (rewrite ?length_app, ?Hb, ?Hm; simpl; change (drop 0 b) with b).
  reflexivity.
Qed.

Lemma IPMask_apply_16 (b m : list Z) :
  length b = 16%nat -> length m = 16%nat ->
  IPMask_apply b m = andBytes b m.
Proof.
  intros Hb Hm. unfold IPMask_apply. cbv zeta.
  repeat (rewrite ?Hb, ?Hm; simpl). reflexivity.
Qed.

Lemma Contains_normal (n : IPNet) (nn : IP) (m : IPMask) (ip : IP) :
  networkNumberAndMask n = Some (nn, m) ->
  Contains n ip
  = (length (shorten ip) =? length nn)%nat && sameNetwork nn m (shorten ip).
Proof.
  intros Hn. unfold Contains, shorten. rewrite Hn. cbv zeta.
  now destruct (_ =? _)%nat.
Qed.

(** The network number of a canonical range is its (shortened) address,
    and its mask is a prefix mask of the same length. *)
Lemma canonical_normal (n : IPNet) :
  Canonical n ->
  exists p, 0 <= p /\
    networkNumberAndMask n
    = Some (shorten (netIP n), maskBytes (length (shorten (netIP n))) p).
Proof.
  intros [v k Hk | v k Hk].
  - exists k. split; [lia |].
    assert (L : length (andBytes (be_bytes 4 v) (maskBytes 4 k)) = 4%nat)
      by (rewrite length_andBytes; now rewrite ?length_be_bytes, ?length_maskBytes).
    unfold networkNumberAndMask, shorten, To4. cbn [netIP Mask].
    rewrite L, !length_maskBytes.
    change (4 =? IPv4len)%nat with true. cbn [negb]. now rewrite L.
  - set (ip := andBytes (be_bytes 16 v) (maskBytes 16 k)).
    assert (L : length ip = 16%nat)
      by (unfold ip; rewrite length_andBytes; now rewrite ?length_be_bytes, ?length_maskBytes).
    unfold networkNumberAndMask, shorten, To4. cbn [netIP Mask]. fold ip.
    rewrite L, !length_maskBytes.
    change (16 =? IPv4len)%nat with false. change (16 =? IPv6len)%nat with true.
    cbn [andb negb].
    destruct (isZeros (firstn 10 ip) && (nth 10 ip 0 =? 255) && (nth 11 ip 0 =? 255)).
    + assert (L4 : length (firstn 4 (skipn 12 ip)) = 4%nat)
        by (rewrite length_firstn, length_skipn, L; reflexivity).
      rewrite L4. change (4 =? IPv4len)%nat with true. cbn [negb].
      exists (Z.max 0 (k - 8 * Z.of_nat 12)). split; [lia |].
      now rewrite <- (skipn_maskBytes 12 4 k) by lia.
    + rewrite L. change (16 =? IPv4len)%nat with false. cbn [negb].
      exists k. split; [lia | reflexivity].
Qed.

(** A canonical range contains its own address. *)
Lemma Contains_own (n : IPNet) : Canonical n -> Contains n (netIP n) = true.
Proof.
  intros Hn. destruct (canonical_normal n Hn) as (p & _ & Hp).
  rewrite (Contains_normal _ _ _ _ Hp), Nat.eqb_refl.
  apply sameNetwork_refl, length_maskBytes.
Qed.

(** Two canonical ranges share an address exactly when one of them
    contains the address of the other. *)
Lemma shared_address (a b : IPNet) :
  Canonical a -> Canonical b ->
  (exists ip, Contains a ip = true /\ Contains b ip = true)
  <-> Contains a (netIP b) = true \/ Contains b (netIP a) = true.
Proof.
  intros Ha Hb. split.
  - intros (ip & Hia & Hib).
    destruct (canonical_normal a Ha) as (p & Hp & Na).
    destruct (canonical_normal b Hb) as (q & Hq & Nb).
    rewrite (Contains_normal _ _ _ _ Na) in Hia.
    rewrite (Contains_normal _ _ _ _ Nb) in Hib.
    rewrite (Contains_normal _ _ _ _ Na), (Contains_normal _ _ _ _ Nb).
    set (A := shorten (netIP a)) in *. set (B := shorten (netIP b)) in *.
    set (I := shorten ip) in *.
    apply andb_true_iff in Hia as [La Sa], Hib as [Lb Sb].
    apply Nat.eqb_eq in La, Lb.
    assert (Lab : length B = length A) by congruence.
    rewrite Lab in *. rewrite Nat.eqb_refl. cbn [andb].
    destruct (Z.le_ge_cases p q) as [Hpq | Hqp].
    + left. apply (sameNetwork_nested _ p q A B I); auto; lia.
    + right. apply (sameNetwork_nested _ q p B A I); auto; lia.
  - intros [H1 | H1].
    + exists (netIP b). split; [assumption | now apply Contains_own].
    + exists (netIP a). split; [now apply Contains_own | assumption].
Qed.

Section WithLib.
Context `{GoLib}.

(** [ParseCIDR] fails with the error [invalid CIDR address: <s>] only. *)
Lemma ParseCIDR_error (s : string) (e : error) :
  ParseCIDR s = Err e -> e = ParseError s.
Proof.
  unfold ParseCIDR. cbv zeta.
  destruct (IndexByte s "/" <? 0); [congruence |].
  destruct (netip_ParseAddr _) as [a|]; [| congruence].
  destruct (nonempty (Zone a)); [congruence |].
  destruct (dtoi _) as [[n i] ok].
  destruct (negb ok || _ || _ || _); congruence.
Qed.

(** Every range that [ParseCIDR] returns is canonical. *)
Lemma ParseCIDR_canonical (s : string) (ip : IP) (n : IPNet) :
  ParseCIDR s = Ok (ip, n) -> Canonical n.
Proof.
  unfold ParseCIDR. cbv zeta.
  destruct (IndexByte s "/" <? 0); [congruence |].
  destruct (netip_ParseAddr _) as [a|]; [| congruence].
  destruct (nonempty (Zone a)); [congruence |].
  destruct (dtoi _) as [[k i] ok] eqn:Ed.
  destruct (negb ok || _ || _ || _) eqn:Ec; [congruence |].
  apply orb_false_iff in Ec as [Ec Hhi]. apply orb_false_iff in Ec as [_ Hlo].
  apply Z.ltb_ge in Hhi, Hlo.
  intros E. injection E as _ <-.
  destruct a as [v | v zone]; simpl BitLen in *.
  - replace (CIDRMask k 32) with (maskBytes 4 k).
    2:{ unfold CIDRMask. simpl.
        destruct (k <? 0) eqn:E1; [apply Z.ltb_lt in E1; lia |].
        destruct (32 <? k) eqn:E2; [apply Z.ltb_lt in E2; lia |]. reflexivity. }
    replace (IPMask_apply (As16 (AddrFrom4 v)) (maskBytes 4 k))
      with (andBytes (be_bytes 4 v) (maskBytes 4 k)).
    2:{ unfold As16. symmetry.
        apply IPMask_apply_4; [apply length_be_bytes | apply length_maskBytes]. }
    now constructor.
  - replace (CIDRMask k 128) with (maskBytes 16 k).
    2:{ unfold CIDRMask. simpl.
        destruct (k <? 0) eqn:E1; [apply Z.ltb_lt in E1; lia |].
        destruct (128 <? k) eqn:E2; [apply Z.ltb_lt in E2; lia |]. reflexivity. }
    replace (IPMask_apply (As16 (AddrFrom16 v zone)) (maskBytes 16 k))
      with (andBytes (be_bytes 16 v) (maskBytes 16 k)).
    2:{ unfold As16. symmetry.
        apply IPMask_apply_16; [apply length_be_bytes | apply length_maskBytes]. }
    now constructor.
Qed.
End WithLib.

End net_facts.

(** ** The claim about configuration validation *)

Module config_claims.
Import net config net_facts.

Section WithLib.
Context `{GoLib}.

Lemma parseAndValidateCIDR_Err (s field : string) (e : error) :
  ParseCIDR s = Err e ->
  parseAndValidateCIDR s field
  = Err (Errorf ("invalid " +:+ field +:+ ": " +:+ s
                 +:+ " (error: invalid CIDR address: " +:+ s +:+ ")")).
Proof.
  intros E. unfold parseAndValidateCIDR. rewrite E.
  now rewrite (ParseCIDR_error _ _ E).
Qed.

Lemma parseAndValidateCIDR_Ok (s field : string) (ip : IP) (n : IPNet) :
  ParseCIDR s = Ok (ip, n) -> parseAndValidateCIDR s field = Ok n.
Proof. intros E. unfold parseAndValidateCIDR. now rewrite E. Qed.

(** For the ranges that [ParseCIDR] returns, the overlap test of
    [Validate] is exact. *)
Lemma overlapping_cidrsOverlap (a b : IPNet) :
  Canonical a -> Canonical b ->
  overlapping a b <-> cidrsOverlap a b = true.
Proof.
  intros Ha Hb. unfold overlapping, inRange, cidrsOverlap.
  rewrite orb_true_iff. now apply shared_address.
Qed.
End WithLib.

(** C3, as amended.  An invalid pod range is rejected with the error
    [invalid cluster-cidr: ...]; an invalid service range next to a valid
    pod range is rejected with the error [invalid service-cidr: ...] (when
    both are invalid, the pod range is the one reported).  For two valid
    ranges: they share an address exactly when one contains the network
    address of the other; identical ranges are rejected; ranges of which
    one contains the other's network address are rejected; distinct ranges
    that share no address pass the CIDR checks, and the result of
    [Validate] is then the result of the node-address checks. *)
Theorem cidr_validation `{GoLib} (c : Config) :
  let pod := ClusterCidr (cluster c) in
  let svc := ServiceCidr (cluster c) in
  (forall e, ParseCIDR pod = Err e ->
     Validate c = Some (Errorf ("invalid cluster-cidr: " +:+ pod
                                +:+ " (error: invalid CIDR address: " +:+ pod +:+ ")")))
  /\
  (forall r e, ParseCIDR pod = Ok r -> ParseCIDR svc = Err e ->
     Validate c = Some (Errorf ("invalid service-cidr: " +:+ svc
                                +:+ " (error: invalid CIDR address: " +:+ svc +:+ ")")))
  /\
  (forall ia a ib b, ParseCIDR pod = Ok (ia, a) -> ParseCIDR svc = Ok (ib, b) ->
     (overlapping a b <->
      Contains a (netIP b) = true \/ Contains b (netIP a) = true)
     /\
     (cidrsEqual a b = true ->
      Validate c = Some (Errorf ("cluster-cidr and service-cidr cannot be the same: "
                                 +:+ pod)))
     /\
     (cidrsEqual a b = false ->
      Contains a (netIP b) = true \/ Contains b (netIP a) = true ->
      Validate c = Some (Errorf ("cluster-cidr (" +:+ pod +:+ ") and service-cidr ("
                                 +:+ svc +:+ ") overlap")))
     /\
     (cidrsEqual a b = false -> ~ overlapping a b ->
      Validate c = match validateNodes "server" (Servers c) with
                   | Some err => Some err
                   | None => validateNodes "agent" (Agents c)
                   end)).
Proof.
  intros pod svc. split; [| split].
  - intros e E. unfold Validate. fold pod.
    now rewrite (parseAndValidateCIDR_Err _ "cluster-cidr" _ E).
  - intros [ip n] e E1 E2. unfold Validate. fold pod svc.
    rewrite (parseAndValidateCIDR_Ok _ _ _ _ E1).
    now rewrite (parseAndValidateCIDR_Err _ "service-cidr" _ E2).
  - intros ia a ib b E1 E2.
    pose proof (ParseCIDR_canonical _ _ _ E1) as Ca.
    pose proof (ParseCIDR_canonical _ _ _ E2) as Cb.
    assert (V : Validate c
                = if cidrsEqual a b then
                    Some (Errorf ("cluster-cidr and service-cidr cannot be the same: "
                                  +:+ pod))
                  else if cidrsOverlap a b then
                    Some (Errorf ("cluster-cidr (" +:+ pod +:+ ") and service-cidr ("
                                  +:+ svc +:+ ") overlap"))
                  else match validateNodes "server" (Servers c) with
                       | Some err => Some err
                       | None => validateNodes "agent" (Agents c)
                       end).
    { unfold Validate. fold pod svc.
      now rewrite (parseAndValidateCIDR_Ok _ _ _ _ E1), (parseAndValidateCIDR_Ok _ _ _ _ E2). }
    repeat split.
    + intros Ho. now apply shared_address.
    + intros Ho. now apply shared_address.
    + intros Eq. now rewrite V, Eq.
    + intros Eq Ho. rewrite V, Eq. unfold cidrsOverlap.
      apply orb_true_iff in Ho. now rewrite Ho.
    + intros Eq Hd. rewrite V, Eq.
      destruct (cidrsOverlap a b) eqn:Eo; [| reflexivity].
      exfalso. apply Hd. now apply overlapping_cidrsOverlap.
Qed.

(** The pod and service ranges of the default configuration are accepted;
    a service range inside the pod range is rejected. *)
Lemma cidr_validation_witness :
  @Validate sample.lib (sampleConfig "10.42.0.0/16" "10.43.0.0/16") = None
  /\ @Validate sample.lib (sampleConfig "10.0.0.0/8" "10.43.0.0/16")
     = Some (Errorf "cluster-cidr (10.0.0.0/8) and service-cidr (10.43.0.0/16) overlap")
  /\ @Validate sample.lib (sampleConfig "10.42.0.0/16" "10.43.0.0")
     = Some (Errorf "invalid service-cidr: 10.43.0.0 (error: invalid CIDR address: 10.43.0.0)").
Proof.
  split; [| split].
  - destruct (@cidr_validation sample.lib (sampleConfig "10.42.0.0/16" "10.43.0.0/16"))
      as (_ & _ & H3).
    destruct (H3 _ _ _ _ eq_refl eq_refl) as (Ho & _ & _ & Hok).
    rewrite Hok; [reflexivity | reflexivity |].
    intros Hov. apply Ho in Hov. destruct Hov as [Hc | Hc]; vm_compute in Hc; discriminate.
  - destruct (@cidr_validation sample.lib (sampleConfig "10.0.0.0/8" "10.43.0.0/16"))
      as (_ & _ & H3).
    destruct (H3 _ _ _ _ eq_refl eq_refl) as (_ & _ & Hrej & _).
    rewrite Hrej; [reflexivity | reflexivity | left; reflexivity].
  - destruct (@cidr_validation sample.lib (sampleConfig "10.42.0.0/16" "10.43.0.0"))
      as (_ & H2 & _).
    exact (H2 _ _ eq_refl eq_refl).
Defined.

(** C3 as stated fails when both ranges are invalid: the service range is
    invalid, yet the error names [cluster-cidr] and not [service-cidr].
    ([ParseCIDR] rejects a text without [/] before it reads the address,
    so this does not depend on the library.) *)
Lemma cidr_validation_counterexample :
  @ParseCIDR sample.lib "10.43.0.0" = Err (ParseError "10.43.0.0")
  /\ @Validate sample.lib (sampleConfig "10.42.0.0" "10.43.0.0")
     = Some (Errorf "invalid cluster-cidr: 10.42.0.0 (error: invalid CIDR address: 10.42.0.0)")
  /\ strings.Contains
       "invalid cluster-cidr: 10.42.0.0 (error: invalid CIDR address: 10.42.0.0)"
       "service-cidr" = false.
Proof. repeat split; vm_compute; reflexivity. Qed.

End config_claims.

(** ** The claims about the kubeconfig patcher *)

Module kubeconfig_claims.
Import strings strings_facts.

Lemma loopback_nonempty : "127.0.0.1" <> "".
Proof. discriminate. Qed.

Lemma Malformed_serverOf (config : gmap string yval) :
  Malformed config <-> serverOf config = None.
Proof.
  unfold serverOf. split.
  - intros [E | v E Hv | E | v rest E Hv | fc rest E1 E2 | fc rest v E1 E2 Hv
           | fc cd rest E1 E2 E3 | fc cd rest v E1 E2 E3 Hv];
      rewrite ?E, ?E1, ?E2, ?E3; try reflexivity.
    + destruct v; try reflexivity. exfalso. apply Hv. now eexists.
    + destruct v; try reflexivity. exfalso. apply Hv. now eexists.
    + destruct v; try reflexivity. exfalso. apply Hv. now eexists.
    + destruct v; try reflexivity. exfalso. apply Hv. now eexists.
  - intros Hs.
    destruct (config !! "clusters") as [v|] eqn:E; [| now apply NoClusters].
    destruct v as [| | | | | l | |];
      try (apply (ClustersNotSeq _ _ E); intros [l' Hl]; discriminate).
    destruct l as [|c0 rest]; [now apply ClustersEmpty |].
    destruct c0 as [| | | | | | fc |];
      try (apply (FirstNotMap _ _ _ E); intros [m' Hm]; discriminate).
    destruct (fc !! "cluster") as [v|] eqn:E2; [| now apply (NoCluster _ _ _ E)].
    destruct v as [| | | | | | cd |];
      try (apply (ClusterNotMap _ _ _ _ E E2); intros [m' Hm]; discriminate).
    destruct (cd !! "server") as [v|] eqn:E3; [| now apply (NoServer _ _ _ _ E E2)].
    destruct v as [| | | | s | | |];
      try (apply (ServerNotStr _ _ _ _ _ E E2 E3); intros [s' Hs']; discriminate).
    all: discriminate.
Qed.

Section WithLib.
Context `{GoLib}.

Lemma replace_unparsed (data ip : string) (e : error) :
  yaml_Unmarshal data = Err e ->
  replaceKubeconfigServer data ip = ("", false, Some e).
Proof. intros E. unfold replaceKubeconfigServer. now rewrite E. Qed.

(** Without a server URL the decoded document is written back as it is. *)
Lemma replace_malformed (data ip : string) (config : gmap string yval) :
  yaml_Unmarshal data = Ok config -> serverOf config = None ->
  replaceKubeconfigServer data ip = written config false.
Proof.
  intros E Hs. unfold replaceKubeconfigServer, written. rewrite E. cbv zeta.
  unfold serverOf in Hs.
  destruct (config !! "clusters") as [[| | | | | [|[| | | | | | fc |] rest] | |]|];
    try (now destruct (yaml_Marshal config)).
  destruct (fc !! "cluster") as [[| | | | | | cd |]|];
    try (now destruct (yaml_Marshal config)).
  destruct (cd !! "server") as [[| | | | s | | |]|];
    now destruct (yaml_Marshal config).
Qed.

(** With a server URL: the document is written back unchanged if the
    replacement leaves the URL as it is, and with the new URL otherwise. *)
Lemma replace_wellformed (data ip : string) (config : gmap string yval) (url : string) :
  yaml_Unmarshal data = Ok config -> serverOf config = Some url ->
  (ReplaceAll url "127.0.0.1" ip = url /\
   replaceKubeconfigServer data ip = written config false)
  \/
  (ReplaceAll url "127.0.0.1" ip <> url /\
   exists config', Patched config config' (ReplaceAll url "127.0.0.1" ip)
                   /\ replaceKubeconfigServer data ip = written config' true).
Proof.
  intros E Hs. unfold replaceKubeconfigServer, written. rewrite E. cbv zeta.
  unfold serverOf in Hs.
  destruct (config !! "clusters") as [[| | | | | [|[| | | | | | fc |] rest] | |]|] eqn:E1;
    try discriminate.
  destruct (fc !! "cluster") as [[| | | | | | cd |]|] eqn:E2; try discriminate.
  destruct (cd !! "server") as [[| | | | s | | |]|] eqn:E3; try discriminate.
  injection Hs as ->.
  destruct (String.eqb (ReplaceAll url "127.0.0.1" ip) url) eqn:Eq; cbn [negb].
  - left. apply String.eqb_eq in Eq. split; [exact Eq |].
    now destruct (yaml_Marshal config).
  - right. apply String.eqb_neq in Eq. split; [exact Eq |].
    set (new := ReplaceAll url "127.0.0.1" ip).
    exists (<["clusters" :=
               YSeq (YMap (<["cluster" := YMap (<["server" := YStr new]> cd)]> fc)
                     :: rest)]> config).
    split; [| now destruct (yaml_Marshal _)]. subst new.
    exists fc, (<["cluster" := YMap (<["server" := YStr (ReplaceAll url "127.0.0.1" ip)]> cd)]> fc),
      cd, (<["server" := YStr (ReplaceAll url "127.0.0.1" ip)]> cd), rest.
    repeat split; try assumption.
    + apply lookup_insert_eq.
    + intros k Hk. now apply lookup_insert_ne.
    + apply lookup_insert_eq.
    + intros k Hk. now apply lookup_insert_ne.
    + apply lookup_insert_eq.
    + intros k Hk. now apply lookup_insert_ne.
Qed.
End WithLib.

(** C5, as amended.  For a document that parses and whose first cluster
    entry has the server URL [url]: if [url] contains [127.0.0.1] and the
    real address is another text, the result reports [replaced = true] and
    is the serialization of the document in which the server URL is [url]
    with every [127.0.0.1] replaced by the real address, all else being
    equal; if the real address is itself [127.0.0.1], or [url] does not
    contain [127.0.0.1], the result reports [replaced = false] and is the
    serialization of the unchanged document. *)
Theorem patch_server_address `{GoLib} (data ip : string)
    (config : gmap string yval) (url : string) :
  yaml_Unmarshal data = Ok config ->
  serverOf config = Some url ->
  (Contains url "127.0.0.1" = true -> ip <> "127.0.0.1" ->
   exists config',
     Patched config config' (ReplaceAll url "127.0.0.1" ip)
     /\ ReplaceAll url "127.0.0.1" ip <> url
     /\ replaceKubeconfigServer data ip = written config' true)
  /\
  (Contains url "127.0.0.1" = true -> ip = "127.0.0.1" ->
   replaceKubeconfigServer data ip = written config false)
  /\
  (Contains url "127.0.0.1" = false ->
   ReplaceAll url "127.0.0.1" ip = url
   /\ replaceKubeconfigServer data ip = written config false).
Proof.
  intros E Hs.
  pose proof (ReplaceAll_changes url "127.0.0.1" ip loopback_nonempty) as Hch.
  destruct (replace_wellformed data ip config url E Hs)
    as [[Hsame Hr] | (Hdiff & config' & Hp & Hr)].
  - repeat split; try (intros; exact Hr).
    + intros Hc Hne. exfalso.
      assert (Hd : ReplaceAll url "127.0.0.1" ip <> url) by (apply Hch; now split).
      now apply Hd.
    + exact Hsame.
  - apply Hch in Hdiff as Hd. destruct Hd as [Hc Hne]. split; [| split].
    + intros _ _. exists config'. now repeat split.
    + intros _ ->. congruence.
    + intros Hn. congruence.
Qed.

(** The kubeconfig that k3s writes, fetched from the primary
    192.168.1.11. *)
Lemma patch_server_address_witness :
  ReplaceAll sample.loopbackURL "127.0.0.1" "192.168.1.11" = "https://192.168.1.11:6443"
  /\ exists config',
       Patched (sample.kubeconfigTree sample.loopbackURL) config'
         (ReplaceAll sample.loopbackURL "127.0.0.1" "192.168.1.11")
       /\ @replaceKubeconfigServer sample.lib
            (sample.kubeconfigText sample.loopbackURL) "192.168.1.11"
          = @written sample.lib config' true.
Proof.
  split; [reflexivity |].
  destruct (@patch_server_address sample.lib
              (sample.kubeconfigText sample.loopbackURL) "192.168.1.11"
              (sample.kubeconfigTree sample.loopbackURL) sample.loopbackURL
              eq_refl eq_refl) as (H1 & _ & _).
  destruct (H1 eq_refl ltac:(discriminate)) as (config' & Hp & _ & Hr).
  exists config'. split; assumption.
Defined.

(** C5 as stated fails when the primary's address is itself 127.0.0.1:
    the server URL contains the loopback host, yet [replaced] is false. *)
Lemma patch_server_address_counterexample :
  sample.unmarshal (sample.kubeconfigText sample.loopbackURL)
  = Ok (sample.kubeconfigTree sample.loopbackURL)
  /\ serverOf (sample.kubeconfigTree sample.loopbackURL) = Some sample.loopbackURL
  /\ Contains sample.loopbackURL "127.0.0.1" = true
  /\ snd (fst (@replaceKubeconfigServer sample.lib
                 (sample.kubeconfigText sample.loopbackURL) "127.0.0.1")) = false.
Proof. repeat split; vm_compute; reflexivity. Qed.

(** C10.  A document that parses but lacks the kubeconfig shape -- no
    [clusters] key, a [clusters] value that is not a list or is the empty
    list, a first entry that is not a mapping, a [cluster] value that is
    missing or not a mapping, a [server] value that is missing or not a
    string -- is serialized again as it was decoded, with
    [replaced = false] and with the error of the serializer, if any.  In
    general the function returns an error only if parsing fails or the
    serialization of the document it writes fails. *)
Theorem malformed_kubeconfig `{GoLib} (data ip : string) :
  (forall config, yaml_Unmarshal data = Ok config -> Malformed config ->
     replaceKubeconfigServer data ip = written config false)
  /\
  (forall e, snd (replaceKubeconfigServer data ip) = Some e ->
     yaml_Unmarshal data = Err e
     \/ exists config config' replaced,
          yaml_Unmarshal data = Ok config
          /\ replaceKubeconfigServer data ip = written config' replaced
          /\ snd (yaml_Marshal config') = Some e).
Proof.
  split.
  - intros config E Hm. apply replace_malformed; [exact E |].
    now apply Malformed_serverOf.
  - intros e He. destruct (yaml_Unmarshal data) as [config | e0] eqn:E.
    + right. destruct (serverOf config) as [url|] eqn:Hs.
      * destruct (replace_wellformed data ip config url E Hs)
          as [[_ Hr] | (_ & config' & _ & Hr)].
        -- exists config, config, false. rewrite Hr in He. now repeat split.
        -- exists config, config', true. rewrite Hr in He. now repeat split.
      * pose proof (replace_malformed data ip config E Hs) as Hr.
        exists config, config, false. rewrite Hr in He. now repeat split.
    + left. rewrite (replace_unparsed data ip e0 E) in He. simpl in He. congruence.
Qed.

(** A YAML document without a [clusters] key is written back as it is. *)
Lemma malformed_kubeconfig_witness :
  @replaceKubeconfigServer sample.lib ("kind: Config" +:+ LF) "192.168.1.11"
  = ("kind: Config" +:+ LF, false, None).
Proof.
  destruct (@malformed_kubeconfig sample.lib ("kind: Config" +:+ LF) "192.168.1.11")
    as [H1 _].
  rewrite (H1 {[ "kind" := YStr "Config" ]} eq_refl).
  - reflexivity.
  - apply NoClusters. reflexivity.
Defined.

End kubeconfig_claims.

(** ** The installer *)

Module install_facts.
Local Open Scope monad_scope.

(** *** Running computations *)

Lemma bind_Ok {A B : Type} (m : M A) (k : A -> M B) (s s' : State) (a : A) :
  m s = (Ok a, s') -> bind m k s = k a s'.
Proof. intros E. unfold bind. now rewrite E. Qed.

Lemma bind_Err {A B : Type} (m : M A) (k : A -> M B) (s s' : State) (e : error) :
  m s = (Err e, s') -> bind m k s = (Err e, s').
Proof. intros E. unfold bind. now rewrite E. Qed.

Lemma bind_assoc {A B C : Type} (m : M A) (k : A -> M B) (h : B -> M C) (s : State) :
  bind (bind m k) h s = bind m (fun a => bind (k a) h) s.
Proof. unfold bind. destruct (m s) as [[a | e] s']; reflexivity. Qed.

Lemma bind_ext {A B : Type} (m : M A) (k1 k2 : A -> M B) (s : State) :
  (forall a s1, k1 a s1 = k2 a s1) -> bind m k1 s = bind m k2 s.
Proof.
  intros Hk. unfold bind. destruct (m s) as [[a | e] s1]; [apply Hk | reflexivity].
Qed.

Lemma bind_ext_l {A B : Type} (m1 m2 : M A) (k : A -> M B) (s : State) :
  (forall s0, m1 s0 = m2 s0) -> bind m1 k s = bind m2 k s.
Proof. intros Hm. unfold bind. now rewrite Hm. Qed.

(** *** What a computation adds to the trace *)

Section Appends.
Context `{GoLib} `{Environment}.
Variable P : Event -> Prop.

Lemma appends_ret {A : Type} (a : A) : appends P (ret a).
Proof.
  intros s r s' E. injection E as <- <-. exists []. now rewrite app_nil_r.
Qed.

Lemma appends_fail {A : Type} (e : error) : appends P (@fail A e).
Proof.
  intros s r s' E. injection E as <- <-. exists []. now rewrite app_nil_r.
Qed.

Lemma appends_lift {A : Type} (x : result A) : appends P (lift x).
Proof.
  intros s r s' E. injection E as <- <-. exists []. now rewrite app_nil_r.
Qed.

Lemma appends_check (err : option error) : appends P (check err).
Proof. destruct err; [apply appends_fail | apply appends_ret]. Qed.

Lemma appends_bind {A B : Type} (m : M A) (k : A -> M B) :
  appends P m -> (forall a, appends P (k a)) -> appends P (bind m k).
Proof.
  intros Hm Hk s r s' E. unfold bind in E.
  destruct (m s) as [[a | e] s1] eqn:Em.
  - destruct (Hm _ _ _ Em) as (ev1 & T1 & F1).
    destruct (Hk a _ _ _ E) as (ev2 & T2 & F2).
    exists (ev1 ++ ev2). split.
    + now rewrite T2, T1, app_assoc.
    + apply Forall_app; now split.
  - injection E as <- <-. exact (Hm _ _ _ Em).
Qed.

Lemma appends_bind_val {A B : Type} (Q : A -> Prop) (m : M A) (k : A -> M B) :
  appends P m ->
  (forall s a s', m s = (Ok a, s') -> Q a) ->
  (forall a, Q a -> appends P (k a)) ->
  appends P (bind m k).
Proof.
  intros Hm HQ Hk s r s' E. unfold bind in E.
  destruct (m s) as [[a | e] s1] eqn:Em.
  - destruct (Hm _ _ _ Em) as (ev1 & T1 & F1).
    destruct (Hk a (HQ _ _ _ Em) _ _ _ E) as (ev2 & T2 & F2).
    exists (ev1 ++ ev2). split.
    + now rewrite T2, T1, app_assoc.
    + apply Forall_app; now split.
  - injection E as <- <-. exact (Hm _ _ _ Em).
Qed.

Lemma appends_try {A : Type} (m : M A) : appends P m -> appends P (try m).
Proof.
  intros Hm s r s' E. unfold try in E.
  destruct (m s) as [x s1] eqn:Em. injection E as <- <-.
  exact (Hm _ _ _ Em).
Qed.

Lemma appends_defer {A : Type} (cleanup : M unit) (body : M A) :
  appends P cleanup -> appends P body -> appends P (defer cleanup body).
Proof.
  intros Hc Hb s r s' E. unfold defer in E.
  destruct (body s) as [x s1] eqn:Eb. injection E as <- <-.
  destruct (Hb _ _ _ Eb) as (ev1 & T1 & F1).
  destruct (cleanup s1) as [y s2] eqn:Ec.
  destruct (Hc _ _ _ Ec) as (ev2 & T2 & F2).
  exists (ev1 ++ ev2). split.
  - simpl. now rewrite T2, T1, app_assoc.
  - apply Forall_app; now split.
Qed.

Lemma appends_ask (op : Op) : (forall r, P (op, r)) -> appends P (ask op).
Proof.
  intros Hop s r s' E. unfold ask in E. injection E as <- <-.
  eexists. split; [reflexivity |]. repeat constructor. apply Hop.
Qed.

Lemma appends_emit (op : Op) : (forall r, P (op, r)) -> appends P (emit op).
Proof.
  intros Hop. unfold emit. apply appends_bind; [now apply appends_ask |].
  intros _. apply appends_ret.
Qed.

Lemma appends_recordDownload (p : string) : appends P (recordDownload p).
Proof.
  intros s r s' E. injection E as <- <-. exists []. simpl. now rewrite app_nil_r.
Qed.

Lemma appends_state {A : Type} (f : State -> M A) :
  (forall s0, appends P (f s0)) -> appends P (fun s => f s s).
Proof. intros Hf s r s' E. exact (Hf s _ _ _ E). Qed.
End Appends.

(** One step of a proof that a computation only appends events of a
    given kind; the conditions on the operations are left over. *)
Ltac appends_step :=
  match goal with
  | |- appends _ (bind _ _) => apply appends_bind; [| intros ?]
  | |- appends _ (ret _) => apply appends_ret
  | |- appends _ (fail _) => apply appends_fail
  | |- appends _ (lift _) => apply appends_lift
  | |- appends _ (check _) => apply appends_check
  | |- appends _ (try _) => apply appends_try
  | |- appends _ (defer _ _) => apply appends_defer
  | |- appends _ (ask _) => apply appends_ask; intros ?
  | |- appends _ (emit _) => apply appends_emit; intros ?
  | |- appends _ (recordDownload _) => apply appends_recordDownload
  | |- appends _ (match ?x with _ => _ end) => destruct x
  | |- appends _ (if ?x then _ else _) => destruct x
  | |- appends _ (let '(_, _) := ?x in _) => destruct x
  end.

Ltac local_op := intros ? Hremote; simpl in Hremote |- *; congruence.

Ltac appends_auto := repeat first [appends_step | local_op].

Section Confined.
Context `{GoLib} `{Environment}.

Lemma New_client (h : string) (p : Z) (user : string) (auth : sshclient.Auth)
    (s s' : State) (c : Client) :
  sshclient.New h p user auth s = (Ok c, s') -> c = {| host := h; port := p |}.
Proof.
  unfold sshclient.New, bind, ask, check, ret, fail. cbv zeta.
  destruct (failure _); intros E; now inversion E.
Qed.

Lemma New_appends (h : string) (p : Z) (user : string) (auth : sshclient.Auth) :
  appends (onlyAt (h, p)) (sshclient.New h p user auth).
Proof. unfold sshclient.New. appends_auto. Qed.

(** The asset manager works on the local machine and the network only. *)
Lemma download_appends (addr : string * Z) (url : string) :
  appends (onlyAt addr) (download url).
Proof.
  unfold download. cbv zeta. destruct (String.eqb _ ""); [apply appends_fail |].
  apply (appends_state _ (fun s0 => _)). intros s0. appends_auto.
Qed.

Lemma ResolveAsset_appends (addr : string * Z) (source description : string) :
  appends (onlyAt addr) (ResolveAsset source description).
Proof.
  unfold ResolveAsset. destruct (isURL source).
  - apply appends_bind; [apply appends_try, download_appends |].
    intros r. appends_auto.
  - appends_auto.
Qed.

Lemma runCmd_appends (c : Client) (cmd : string) :
  appends (onlyAt (host c, port c)) (runCmd c cmd).
Proof. unfold runCmd, sshclient.Run. appends_auto. Qed.

Lemma prepareNode_appends (i : Installer) (c : Client) :
  appends (onlyAt (host c, port c)) (prepareNode i c).
Proof.
  unfold prepareNode. cbv zeta.
  repeat (apply appends_bind; [apply runCmd_appends | intros ?]).
  apply appends_ret.
Qed.

Ltac appends_known :=
  repeat first
    [ apply runCmd_appends | apply prepareNode_appends
    | apply ResolveAsset_appends | apply New_appends
    | appends_step | local_op ].

Lemma uploadAssets_appends (i : Installer) (c : Client) :
  appends (onlyAt (host c, port c)) (uploadAssets i c).
Proof.
  unfold uploadAssets, sshclient.Upload, sshclient.UploadBytes. appends_known.
Qed.

(** All remote operations of the provisioning of a node go to the
    address of that node. *)
Lemma installServer_appends (i : Installer) (node : Node) (ip : string) (b : bool) :
  appends (onlyAt (IP node, Port node)) (installServer i node ip b).
Proof.
  unfold installServer. cbv zeta.
  apply (appends_bind_val _ (fun c => c = {| host := IP node; port := Port node |}));
    [apply New_appends | intros s c s' E; exact (New_client _ _ _ _ _ _ _ E) |].
  intros c ->. unfold sshclient.Close, sshclient.UploadBytes.
  repeat first [ apply (uploadAssets_appends i {| host := IP node; port := Port node |})
               | apply (prepareNode_appends i {| host := IP node; port := Port node |})
               | apply (runCmd_appends {| host := IP node; port := Port node |})
               | appends_step | local_op ].
Qed.

Lemma installAgent_appends (i : Installer) (node : Node) (ip : string) :
  appends (onlyAt (IP node, Port node)) (installAgent i node ip).
Proof.
  unfold installAgent. cbv zeta.
  apply (appends_bind_val _ (fun c => c = {| host := IP node; port := Port node |}));
    [apply New_appends | intros s c s' E; exact (New_client _ _ _ _ _ _ _ E) |].
  intros c ->. unfold sshclient.Close, sshclient.UploadBytes.
  repeat first [ apply (uploadAssets_appends i {| host := IP node; port := Port node |})
               | apply (prepareNode_appends i {| host := IP node; port := Port node |})
               | apply (runCmd_appends {| host := IP node; port := Port node |})
               | appends_step | local_op ].
Qed.

Lemma provision_appends (i : Installer) (ip : string) (t : Target) :
  appends (onlyAt (addressOf t)) (provision i ip t).
Proof.
  destruct t; [apply installServer_appends | apply installAgent_appends].
Qed.
End Confined.

(** *** The order of the nodes *)

Section Order.
Context `{GoLib} `{Environment}.

Lemma bind_inv_Ok {A B : Type} (m : M A) (k : A -> M B) (s s' : State) (b : B) :
  bind m k s = (Ok b, s') ->
  exists a s1, m s = (Ok a, s1) /\ k a s1 = (Ok b, s').
Proof.
  unfold bind. destruct (m s) as [[a | e] s1]; intros E; [| discriminate].
  now exists a, s1.
Qed.

Lemma provisionAll_app (i : Installer) (ip : string) (l1 l2 : list Target) (s : State) :
  provisionAll i ip (l1 ++ l2) s
  = bind (provisionAll i ip l1) (fun _ => provisionAll i ip l2) s.
Proof.
  revert s; induction l1 as [|t l1 IH]; intros s; [reflexivity |].
  simpl. rewrite bind_assoc. apply bind_ext. intros _ s1. apply IH.
Qed.

Lemma installAgents_provisionAll (i : Installer) (ip : string) (agents : list Node)
    (s : State) :
  installAgents i ip agents s = provisionAll i ip (map AgentOf agents) s.
Proof.
  revert s; induction agents as [|ag agents IH]; intros s; [reflexivity |].
  simpl. apply bind_ext. intros _ s1. apply IH.
Qed.

Lemma installServers_provisionAll (i : Installer) (ip : string) (idx : nat)
    (servers : list Node) (s : State) :
  installServers i ip idx servers s = provisionAll i ip (serversFrom idx servers) s.
Proof.
  revert idx s; induction servers as [|srv servers IH]; intros idx s; [reflexivity |].
  simpl. apply bind_ext. intros _ s1. apply IH.
Qed.

(** [Apply] provisions the servers in declared order, the first one as
    primary, and then the agents in declared order; what follows runs
    only if all of these succeeded. *)
Lemma Apply_targets (i : Installer) (primary : Node) (others : list Node) (s : State) :
  Servers (cfg i) = primary :: others ->
  Apply i s
  = bind (provisionAll i (IP primary) (targets (cfg i)))
      (fun _ => _ <- try (downloadKubeconfig i primary) ;;
                showClusterInfo i primary ;;
                ret tt) s.
Proof.
  intros E. unfold Apply, targets. rewrite E. rewrite <- E.
  symmetry. etransitivity.
  { apply bind_ext_l. intros s0. apply provisionAll_app. }
  rewrite bind_assoc. etransitivity.
  { apply bind_ext_l. intros s0. symmetry. apply installServers_provisionAll. }
  apply bind_ext. intros _ s1.
  apply bind_ext_l. intros s0. symmetry. apply installAgents_provisionAll.
Qed.

Lemma confined_one (addr : string * Z) (evs : list Event) :
  Forall (onlyAt addr) evs -> confinedTo [addr] evs.
Proof.
  apply List.Forall_impl. intros ev Hev a Ha. left. symmetry. now apply Hev.
Qed.

Lemma confined_more (l1 l2 : list (string * Z)) (evs : list Event) :
  (forall a, In a l1 -> In a l2) -> confinedTo l1 evs -> confinedTo l2 evs.
Proof.
  intros Hl. apply List.Forall_impl. intros ev Hev a Ha. apply Hl, Hev, Ha.
Qed.

(** The remote operations of provisioning a list of nodes go to the
    addresses of these nodes. *)
Lemma provisionAll_confined (i : Installer) (ip : string) (ts : list Target)
    (s s' : State) (r : result unit) :
  provisionAll i ip ts s = (r, s') ->
  exists evs, trace s' = trace s ++ evs /\ confinedTo (map addressOf ts) evs.
Proof.
  revert s; induction ts as [|t ts IH]; intros s E.
  - injection E as <- <-. exists []. split; [now rewrite app_nil_r | constructor].
  - simpl in E. unfold bind in E.
    destruct (provision i ip t s) as [[[] | e] s1] eqn:Et.
    + destruct (provision_appends i ip t _ _ _ Et) as (ev1 & T1 & F1).
      destruct (IH _ E) as (ev2 & T2 & F2).
      exists (ev1 ++ ev2). split; [now rewrite T2, T1, app_assoc |].
      apply Forall_app; split.
      * eapply confined_more; [| apply confined_one, F1]. simpl. tauto.
      * eapply confined_more; [| exact F2]. simpl. tauto.
    + injection E as <- <-.
      destruct (provision_appends i ip t _ _ _ Et) as (ev1 & T1 & F1).
      exists ev1. split; [exact T1 |].
      eapply confined_more; [| apply confined_one, F1]. simpl. tauto.
Qed.
End Order.

(** *** Fetching the kubeconfig *)

Section Kubeconfig.
Context `{GoLib} `{Environment}.

Lemma default_user (u : string) :
(if String.eqb (if String.eqb u "" then "root" else u) "" then "root"
 else (if String.eqb u "" then "root" else u))
= (if String.eqb u "" then "root" else u).
Proof. destruct (String.eqb u "") eqn:E; [reflexivity | now rewrite E]. Qed.

(** Opening the session to a node. *)
Lemma New_run (node : Node) (s : State) :
sshclient.New (IP node) (Port node)
  (if String.eqb (User node) "" then "root" else User node)
  {| sshclient.Password := Password node; sshclient.KeyPath := KeyPath node |} s
= match failure (answer s (dialOf node)) with
  | Some e => (Err e, after s (dialOf node))
  | None => (Ok (clientOf node), after s (dialOf node))
  end.
Proof.
unfold sshclient.New. cbv zeta. rewrite default_user.
cbn [sshclient.Password sshclient.KeyPath]. fold (dialOf node).
unfold bind, ask, check, ret, fail. fold (answer s (dialOf node)).
fold (after s (dialOf node)). now destruct (failure _).
Qed.

Lemma DownloadBytes_run (c : Client) (path : string) (s : State) :
sshclient.DownloadBytes c path s
= match failure (answer s (OpDownloadBytes c path)) with
  | Some e => (Err e, after s (OpDownloadBytes c path))
  | None => (Ok (stdout (answer s (OpDownloadBytes c path))),
             after s (OpDownloadBytes c path))
  end.
Proof.
unfold sshclient.DownloadBytes, bind, ask, check, ret, fail.
fold (answer s (OpDownloadBytes c path)). fold (after s (OpDownloadBytes c path)).
now destruct (failure _).
Qed.

Lemma saveKubeconfig_appends (master : Node) (content : string) :
appends noDownload (saveKubeconfig master content).
Proof.
unfold saveKubeconfig.
destruct (replaceKubeconfigServer content (IP master)) as [[modified replaced] [e|]].
- apply appends_fail.
- repeat first [appends_step | reflexivity].
Qed.

Lemma downloadKubeconfig_order (i : Installer) (master : Node) (s s' : State)
  (r : result unit) :
downloadKubeconfig i master s = (r, s') ->
let c := clientOf master in
let dataDirPath :=
  filepath_Join [DataDir (cluster (cfg i)); "server"; "cred"; "k3s.yaml"] in
(exists rd, failure rd <> None /\ trace s' = trace s ++ [(dialOf master, rd)])
\/
(exists rd r1 rest,
    failure rd = None
    /\ trace s' = trace s ++ (dialOf master, rd)
                            :: (OpDownloadBytes c dataDirPath, r1) :: rest
    /\ ((failure r1 = None /\ Forall noDownload rest)
        \/ (failure r1 <> None
            /\ exists r2 rest',
                 rest = (OpDownloadBytes c "/etc/rancher/k3s/k3s.yaml", r2) :: rest'
                 /\ Forall noDownload rest'))).
Proof.
intros E c dataDirPath.
unfold downloadKubeconfig in E. cbv zeta in E.
unfold bind at 1 in E. rewrite New_run in E.
destruct (failure (answer s (dialOf master))) as [e|] eqn:Ed.
- left. injection E as <- <-. exists (answer s (dialOf master)).
  split; [congruence | reflexivity].
- right. exists (answer s (dialOf master)).
  set (s1 := after s (dialOf master)) in *.
  fold c dataDirPath in E.
  change (fun content => let '(modified, replaced, err) := replaceKubeconfigServer content (IP master) in _) with (saveKubeconfig master) in E.
  unfold defer in E.
  match type of E with (let (_, _) := ?b s1 in _) = _ => destruct (b s1) as [x s2] eqn:Eb end.
  injection E as <- <-.
  unfold sshclient.Close, emit, bind, ask, ret. cbn [snd trace].
  unfold bind at 1 in Eb. unfold try at 1 in Eb. rewrite DownloadBytes_run in Eb.
  set (op1 := OpDownloadBytes c dataDirPath) in *.
  exists (answer s1 op1).
  destruct (failure (answer s1 op1)) as [e1|] eqn:E1.
  + unfold bind at 1 in Eb. unfold bind at 1 in Eb. unfold try at 1 in Eb.
    rewrite DownloadBytes_run in Eb.
    set (op2 := OpDownloadBytes c "/etc/rancher/k3s/k3s.yaml") in *.
    destruct (failure (answer (after s1 op1) op2)) as [e2|] eqn:E2.
    * injection Eb as <- <-.
      eexists. split; [exact Ed |]. split.
      { unfold s1. cbn [after trace]. rewrite <- !app_assoc. reflexivity. }
      right. split; [congruence |].
      eexists _, _. split; [reflexivity |]. repeat constructor.
    * destruct (saveKubeconfig_appends master _ _ _ _ Eb) as (evs & T & F).
      eexists. split; [exact Ed |]. split.
      { rewrite T. unfold s1. cbn [after trace]. rewrite <- !app_assoc. reflexivity. }
      right. split; [congruence |].
      eexists _, _. split; [reflexivity |].
      apply Forall_app; split; [exact F | repeat constructor].
  + unfold bind at 1 in Eb. unfold ret at 1 in Eb.
    destruct (saveKubeconfig_appends master _ _ _ _ Eb) as (evs & T & F).
    eexists. split; [exact Ed |]. split.
    { rewrite T. unfold s1. cbn [after trace]. rewrite <- !app_assoc. reflexivity. }
    left. split; [reflexivity |].
    apply Forall_app; split; [exact F | repeat constructor].
Qed.
End Kubeconfig.

(** *** The last steps of a provisioning sequence *)

Section Finish.
Context `{GoLib} `{Environment}.

Lemma finishes_bind {A B : Type} (P : Event -> Prop) (ops : list Op)
    (m : M A) (k : A -> M B) :
  appends P m -> (forall a, finishes ops (k a)) -> finishes ops (bind m k).
Proof.
  intros Hm Hk s b s' E.
  apply bind_inv_Ok in E as (a & s1 & Em & Ek).
  destruct (Hm _ _ _ Em) as (ev1 & T1 & _).
  destruct (Hk a _ _ _ Ek) as (ev2 & tail & T2 & Ht).
  exists (ev1 ++ ev2), tail. split; [| exact Ht].
  now rewrite T2, T1, <- !app_assoc.
Qed.

Lemma finishes_defer_Close {A : Type} (ops : list Op) (c : Client) (body : M A) :
  finishes ops body -> finishes (ops ++ [OpClose c]) (defer (sshclient.Close c) body).
Proof.
  intros Hb s a s' E. unfold defer in E.
  destruct (body s) as [x s1] eqn:Eb. injection E as -> <-.
  destruct (Hb _ _ _ Eb) as (evs & tail & T & Ht).
  exists evs, (tail ++ [(OpClose c, answer s1 (OpClose c))]). split.
  - unfold sshclient.Close, emit, bind, ask, ret. cbn [snd trace].
    unfold answer. rewrite T. now rewrite <- !app_assoc.
  - rewrite List.map_app, <- Ht. reflexivity.
Qed.

Lemma runCmd_Ok (c : Client) (cmd : string) (s s' : State) :
  runCmd c cmd s = (Ok tt, s') -> s' = after s (OpRun c cmd).
Proof.
  unfold runCmd, sshclient.Run, bind, ask, ret, fail.
  fold (answer s (OpRun c cmd)). fold (after s (OpRun c cmd)).
  destruct (failure _); intros E; now inversion E.
Qed.

Lemma emit_Ok (op : Op) (s s' : State) (u : unit) :
  emit op s = (Ok u, s') -> s' = after s op.
Proof. unfold emit, bind, ask, ret. intros E. now inversion E. Qed.

(** The end of the server sequence: the settle interval, the [cp]
    command, and nothing more. *)
Lemma server_tail (c : Client) :
  finishes [OpSleep 2; OpRun c "cp /usr/local/bin/k3s /usr/local/bin/kubectl -f"]
    (emit (OpSleep 2) ;;
     runCmd c "cp /usr/local/bin/k3s /usr/local/bin/kubectl -f" ;;
     ret tt).
Proof.
  intros s a s' E.
  apply bind_inv_Ok in E as (u1 & s1 & E1 & E).
  apply bind_inv_Ok in E as ([] & s2 & E2 & E).
  injection E as _ <-.
  apply emit_Ok in E1. apply runCmd_Ok in E2. subst s1 s2.
  exists [], [(OpSleep 2, answer s (OpSleep 2));
              (OpRun c "cp /usr/local/bin/k3s /usr/local/bin/kubectl -f",
               answer (after s (OpSleep 2))
                 (OpRun c "cp /usr/local/bin/k3s /usr/local/bin/kubectl -f"))].
  split; [| reflexivity]. cbn [after trace]. now rewrite <- !app_assoc.
Qed.

(** The end of the agent sequence: the restart of the service and the
    settle interval. *)
Lemma agent_tail (c : Client) :
  finishes [OpRun c "systemctl restart k3s-agent"; OpSleep 2]
    (runCmd c "systemctl restart k3s-agent" ;;
     emit (OpSleep 2) ;;
     ret tt).
Proof.
  intros s a s' E.
  apply bind_inv_Ok in E as ([] & s1 & E1 & E).
  apply bind_inv_Ok in E as (u2 & s2 & E2 & E).
  injection E as _ <-.
  apply runCmd_Ok in E1. apply emit_Ok in E2. subst s1 s2.
  exists [], [(OpRun c "systemctl restart k3s-agent",
               answer s (OpRun c "systemctl restart k3s-agent"));
              (OpSleep 2, answer (after s (OpRun c "systemctl restart k3s-agent"))
                            (OpSleep 2))].
  split; [| reflexivity]. cbn [after trace]. now rewrite <- !app_assoc.
Qed.

Ltac front c :=
  first [ apply (uploadAssets_appends _ c) | apply (prepareNode_appends _ c)
        | apply (runCmd_appends c)
        | unfold sshclient.UploadBytes;
          repeat first [appends_step | local_op] ].

Lemma installServer_finishes (i : Installer) (node : Node) (ip : string) (b : bool) :
  finishes [OpSleep 2;
            OpRun (clientOf node) "cp /usr/local/bin/k3s /usr/local/bin/kubectl -f";
            OpClose (clientOf node)]
    (installServer i node ip b).
Proof.
  intros s a s' E. unfold installServer in E. cbv zeta in E.
  apply bind_inv_Ok in E as (c & s1 & Ec & E).
  rewrite New_run in Ec.
  destruct (failure (answer s (dialOf node))); [discriminate |].
  injection Ec as <- <-.
  match type of E with
  | ?m _ = _ =>
      assert (F : finishes
                    ([OpSleep 2;
                      OpRun (clientOf node)
                        "cp /usr/local/bin/k3s /usr/local/bin/kubectl -f"]
                     ++ [OpClose (clientOf node)]) m)
  end.
  { apply finishes_defer_Close.
    do 9 (eapply (finishes_bind (onlyAt (host (clientOf node), port (clientOf node))));
           [front (clientOf node) | intros ?]).
    apply server_tail. }
  destruct (F _ _ _ E) as (evs & tail & T & Ht).
  exists ((dialOf node, answer s (dialOf node)) :: evs), tail.
  split; [| exact Ht]. rewrite T. cbn [after trace]. now rewrite <- !app_assoc.
Qed.

Lemma installAgent_finishes (i : Installer) (node : Node) (ip : string) :
  finishes [OpRun (clientOf node) "systemctl restart k3s-agent"; OpSleep 2;
            OpClose (clientOf node)]
    (installAgent i node ip).
Proof.
  intros s a s' E. unfold installAgent in E. cbv zeta in E.
  apply bind_inv_Ok in E as (c & s1 & Ec & E).
  rewrite New_run in Ec.
  destruct (failure (answer s (dialOf node))); [discriminate |].
  injection Ec as <- <-.
  match type of E with
  | ?m _ = _ =>
      assert (F : finishes
                    ([OpRun (clientOf node) "systemctl restart k3s-agent"; OpSleep 2]
                     ++ [OpClose (clientOf node)]) m)
  end.
  { apply finishes_defer_Close.
    do 8 (eapply (finishes_bind (onlyAt (host (clientOf node), port (clientOf node))));
          [front (clientOf node) | intros ?]).
    apply agent_tail. }
  destruct (F _ _ _ E) as (evs & tail & T & Ht).
  exists ((dialOf node, answer s (dialOf node)) :: evs), tail.
  split; [| exact Ht]. rewrite T. cbn [after trace]. now rewrite <- !app_assoc.
Qed.

(** [showClusterInfo] never returns an error. *)
Lemma showClusterInfo_Ok (i : Installer) (master : Node) (s : State) :
  fst (showClusterInfo i master s) = Ok tt.
Proof.
  unfold showClusterInfo. cbv zeta. unfold bind at 1, try at 1.
  rewrite New_run. destruct (failure (answer s (dialOf master))); [reflexivity |].
  unfold defer. cbn [fst].
  match goal with |- fst (let (_, _) := ?b ?s1 in _) = _ => destruct (b s1) as [x s2] eqn:Eb end.
  cbn [fst]. unfold bind at 1, try at 1 in Eb.
  destruct (runCmd _ _ _) as [[[] | e] s3]; cbn in Eb.
  - unfold bind, sshclient.Run, ask, ret in Eb. now inversion Eb.
  - unfold ret in Eb. now inversion Eb.
Qed.
End Finish.

End install_facts.

(** ** The claims about the installer *)

Module install_claims.
Import install_facts.
Local Open Scope monad_scope.

(** C2.  [Apply] provisions the nodes one after the other in the order
    [targets]: the servers in declared order, index 0 as primary, then the
    agents in declared order.  If the nodes [pre] are provisioned without
    error and the sequence of the next node [t] returns the error [e],
    then [Apply] returns [e] in the very state in which that sequence
    ended: nothing is executed for the nodes [post] behind it.  The events
    of the completed nodes stay in the trace, and the failing sequence
    adds operations at the address of [t] only, so nothing is undone on
    the nodes provisioned before. *)
Theorem apply_fail_fast `{GoLib} `{Environment} (i : Installer)
    (primary : Node) (others : list Node)
    (pre post : list Target) (t : Target) (s0 s1 s2 : State) (e : error) :
  Servers (cfg i) = primary :: others ->
  targets (cfg i) = pre ++ t :: post ->
  provisionAll i (IP primary) pre s0 = (Ok tt, s1) ->
  provision i (IP primary) t s1 = (Err e, s2) ->
  Apply i s0 = (Err e, s2)
  /\ exists evs1 evs2,
       trace s1 = trace s0 ++ evs1
       /\ trace s2 = trace s0 ++ evs1 ++ evs2
       /\ confinedTo (map addressOf pre) evs1
       /\ confinedTo [addressOf t] evs2.
Proof.
  intros Es Et Hpre Ht. split.
  - rewrite (Apply_targets i primary others s0 Es), Et.
    apply bind_Err. rewrite provisionAll_app.
    rewrite (bind_Ok _ _ _ _ _ Hpre). simpl.
    now apply bind_Err.
  - destruct (provisionAll_confined _ _ _ _ _ _ Hpre) as (evs1 & T1 & C1).
    destruct (provision_appends i (IP primary) t _ _ _ Ht) as (evs2 & T2 & C2).
    exists evs1, evs2. repeat split; try assumption.
    + now rewrite T2, T1, app_assoc.
    + now apply confined_one.
Qed.

(** The scenario of the specification: three servers, the second of which
    fails to start k3s.  [Apply] returns that error, and no operation of
    the run talks to the third server. *)
Lemma apply_fail_fast_witness :
  exists s2,
    @Apply sample.lib secondServerDown threeServers emptyState
    = (Err (Errorf ("cmd failed: systemctl restart k3s" +:+ LF
                    +:+ "stdout:" +:+ LF +:+ LF
                    +:+ "stderr:" +:+ LF +:+ "Job for k3s.service failed" +:+ LF
                    +:+ "err: Process exited with status 1")), s2)
    /\ confinedTo [("192.168.1.11", 22%Z); ("192.168.1.14", 22%Z)] (trace s2).
Proof.
  pose (s1 := snd (@provisionAll sample.lib secondServerDown threeServers
                     "192.168.1.11" [ServerAt 0 server1] emptyState)).
  pose (s2 := snd (@provision sample.lib secondServerDown threeServers
                     "192.168.1.11" (ServerAt 1 server2) s1)).
  exists s2.
  destruct (@apply_fail_fast sample.lib secondServerDown threeServers
              server1 [server2; server3]
              [ServerAt 0 server1] [ServerAt 2 server3] (ServerAt 1 server2)
              emptyState s1 s2
              (Errorf ("cmd failed: systemctl restart k3s" +:+ LF
                       +:+ "stdout:" +:+ LF +:+ LF
                       +:+ "stderr:" +:+ LF +:+ "Job for k3s.service failed" +:+ LF
                       +:+ "err: Process exited with status 1")))
    as (HA & evs1 & evs2 & T1 & T2 & C1 & C2).
  - reflexivity.
  - reflexivity.
  - vm_compute. reflexivity.
  - vm_compute. reflexivity.
  - split; [exact HA |].
    rewrite T2. change (trace emptyState) with (@nil Event). simpl app.
    apply Forall_app; split.
    + eapply confined_more; [| exact C1]. simpl. tauto.
    + eapply confined_more; [| exact C2]. simpl. tauto.
Defined.

(** C8.  For a reference that is not an http(s) URL and that [os.Stat]
    finds, [ResolveAsset] returns the reference itself; the only operation
    it performs is that [os.Stat] (no request, no file created), and the
    asset manager, with its list of downloaded files, is left as it was. *)
Theorem resolve_local_asset `{GoLib} `{Environment}
    (source description : string) (s : State) :
  isURL source = false ->
  failure (respond (trace s) (OpStat source)) = None ->
  ResolveAsset source description s
  = (Ok source,
     {| trace := trace s ++ [(OpStat source, respond (trace s) (OpStat source))];
        assetManager := assetManager s |}).
Proof.
  intros Hurl Hstat. unfold ResolveAsset. rewrite Hurl.
  unfold bind, ask. now rewrite Hstat.
Qed.

Lemma resolve_local_asset_witness :
  @ResolveAsset sample.lib healthy "k3s" "k3s binary" emptyState
  = (Ok "k3s",
     {| trace := [(OpStat "k3s", done)];
        assetManager := {| tempDir := "/tmp/k3air-assets-1"; downloadedFiles := [] |} |}).
Proof.
  exact (@resolve_local_asset sample.lib healthy "k3s" "k3s binary" emptyState
           eq_refl eq_refl).
Defined.

(** C6.  If the provisioning of every node succeeds, [Apply] returns no
    error whatever the result [r] of the credential-file step is.  In that
    step the first file read from the primary is the one under the
    configured data directory; [/etc/rancher/k3s/k3s.yaml] is read if and
    only if that first read failed, directly after it, and no other file
    is read. *)
Theorem apply_tolerates_kubeconfig_failure `{GoLib} `{Environment} (i : Installer)
    (primary : Node) (others : list Node) (s0 s1 : State) :
  Servers (cfg i) = primary :: others ->
  provisionAll i (IP primary) (targets (cfg i)) s0 = (Ok tt, s1) ->
  (forall r sk, downloadKubeconfig i primary s1 = (r, sk) ->
     Apply i s0 = (Ok tt, snd (showClusterInfo i primary sk)))
  /\
  (forall s r s', downloadKubeconfig i primary s = (r, s') ->
     let c := clientOf primary in
     let dataDirPath :=
       filepath_Join [DataDir (cluster (cfg i)); "server"; "cred"; "k3s.yaml"] in
     (exists rd, failure rd <> None /\ trace s' = trace s ++ [(dialOf primary, rd)])
     \/
     (exists rd r1 rest,
        failure rd = None
        /\ trace s' = trace s ++ (dialOf primary, rd)
                                :: (OpDownloadBytes c dataDirPath, r1) :: rest
        /\ ((failure r1 = None /\ Forall noDownload rest)
            \/ (failure r1 <> None
                /\ exists r2 rest',
                     rest = (OpDownloadBytes c "/etc/rancher/k3s/k3s.yaml", r2) :: rest'
                     /\ Forall noDownload rest')))).
Proof.
  intros Es Hall. split.
  - intros r sk Hk.
    rewrite (Apply_targets i primary others s0 Es).
    rewrite (bind_Ok _ _ _ _ _ Hall).
    unfold bind at 1, try at 1. rewrite Hk.
    unfold bind, ret.
    pose proof (showClusterInfo_Ok i primary sk) as Hs.
    destruct (showClusterInfo i primary sk) as [[[] | e] s2]; [reflexivity | discriminate].
  - intros s r s' Hk. exact (downloadKubeconfig_order i primary s s' r Hk).
Qed.

(** A run in which no kubeconfig can be fetched: [Apply] returns no error,
    and both paths were tried, the one under the data directory first. *)
Lemma apply_tolerates_kubeconfig_failure_witness :
  fst (@Apply sample.lib noKubeconfig oneServerOneAgent emptyState) = Ok tt
  /\ fst (@downloadKubeconfig sample.lib noKubeconfig oneServerOneAgent server1
            (snd (@provisionAll sample.lib noKubeconfig oneServerOneAgent
                    "192.168.1.11" [ServerAt 0 server1; AgentOf agent1] emptyState)))
     = Err (Errorf "failed to download kubeconfig: file does not exist")
  /\ filter (fun op => isDownloadBytes op)
       (map fst (trace (snd (@Apply sample.lib noKubeconfig oneServerOneAgent emptyState))))
     = [OpDownloadBytes (clientOf server1) "/var/lib/rancher/k3s/server/cred/k3s.yaml";
        OpDownloadBytes (clientOf server1) "/etc/rancher/k3s/k3s.yaml"].
Proof.
  pose (s1 := snd (@provisionAll sample.lib noKubeconfig oneServerOneAgent
                     "192.168.1.11" [ServerAt 0 server1; AgentOf agent1] emptyState)).
  pose (sk := snd (@downloadKubeconfig sample.lib noKubeconfig oneServerOneAgent
                     server1 s1)).
  destruct (@apply_tolerates_kubeconfig_failure sample.lib noKubeconfig
              oneServerOneAgent server1 [] emptyState s1 eq_refl)
    as [HA _].
  - vm_compute. reflexivity.
  - specialize (HA (Err (Errorf "failed to download kubeconfig: file does not exist")) sk).
    split; [| split].
    + rewrite HA; [reflexivity | vm_compute; reflexivity].
    + vm_compute. reflexivity.
    + vm_compute. reflexivity.
Defined.

(** C9: what the code does.  A server sequence that succeeds ends with
    the settle interval, the command
    [cp /usr/local/bin/k3s /usr/local/bin/kubectl -f] and the closing of
    the session: the binary is copied under the name [kubectl], it is not
    linked.  An agent sequence that succeeds ends with the restart of the
    service, the settle interval and the closing of the session; it has no
    step for the client tool. *)
Theorem kubectl_step `{GoLib} `{Environment} (i : Installer) (node : Node)
    (primaryIP : string) (isPrimary : bool) :
  finishes [OpSleep 2;
            OpRun (clientOf node) "cp /usr/local/bin/k3s /usr/local/bin/kubectl -f";
            OpClose (clientOf node)]
    (installServer i node primaryIP isPrimary)
  /\
  finishes [OpRun (clientOf node) "systemctl restart k3s-agent"; OpSleep 2;
            OpClose (clientOf node)]
    (installAgent i node primaryIP).
Proof.
  split; [apply installServer_finishes | apply installAgent_finishes].
Qed.

(** The last three operations on the first server and on the agent of a
    run in which everything succeeds. *)
Lemma kubectl_step_witness :
  (exists evs tail,
     trace (snd (@installServer sample.lib healthy oneServerOneAgent server1
                   "192.168.1.11" true emptyState))
     = evs ++ tail
     /\ map fst tail
        = [OpSleep 2;
           OpRun (clientOf server1) "cp /usr/local/bin/k3s /usr/local/bin/kubectl -f";
           OpClose (clientOf server1)])
  /\
  (exists evs tail,
     trace (snd (@installAgent sample.lib healthy oneServerOneAgent agent1
                   "192.168.1.11" emptyState))
     = evs ++ tail
     /\ map fst tail
        = [OpRun (clientOf agent1) "systemctl restart k3s-agent"; OpSleep 2;
           OpClose (clientOf agent1)]).
Proof.
  destruct (@kubectl_step sample.lib healthy oneServerOneAgent server1
              "192.168.1.11" true) as [Hs _].
  destruct (@kubectl_step sample.lib healthy oneServerOneAgent agent1
              "192.168.1.11" true) as [_ Ha].
  split.
  - destruct (Hs emptyState tt
                (snd (@installServer sample.lib healthy oneServerOneAgent server1
                        "192.168.1.11" true emptyState)))
      as (evs & tail & T & Ht); [vm_compute; reflexivity |].
    exists evs, tail. split; [exact T | exact Ht].
  - destruct (Ha emptyState tt
                (snd (@installAgent sample.lib healthy oneServerOneAgent agent1
                        "192.168.1.11" emptyState)))
      as (evs & tail & T & Ht); [vm_compute; reflexivity |].
    exists evs, tail. split; [exact T | exact Ht].
Defined.

End install_claims.

(** ** The embedding at work *)

Module examples.
Import strings.

Example Join_words : Join ["server"; "--cluster-init"] " " = "server --cluster-init".
Proof. reflexivity. Qed.

Example Join_nothing : Join [] " " = "".
Proof. reflexivity. Qed.

Example ReplaceAll_loopback :
  ReplaceAll "https://127.0.0.1:6443" "127.0.0.1" "192.168.1.11"
  = "https://192.168.1.11:6443".
Proof. reflexivity. Qed.

Example ReplaceAll_twice :
  ReplaceAll "127.0.0.1,127.0.0.1" "127.0.0.1" "h" = "h,h".
Proof. reflexivity. Qed.

Example Split_path : Split "/releases/k3s" "/" = [""; "releases"; "k3s"].
Proof. reflexivity. Qed.

Example CIDRMask_12 : net.CIDRMask 12 32 = [255; 240; 0; 0]%Z.
Proof. reflexivity. Qed.

Example CIDRMask_bad : net.CIDRMask 33 32 = [].
Proof. reflexivity. Qed.

Example dtoi_16 : net.dtoi "16" = (16, 2, true)%Z.
Proof. reflexivity. Qed.

Example dtoi_none : net.dtoi "x" = (0, 0, false)%Z.
Proof. reflexivity. Qed.

Example To4_mapped :
  net.To4 [0; 0; 0; 0; 0; 0; 0; 0; 0; 0; 255; 255; 10; 42; 0; 0]%Z
  = Some [10; 42; 0; 0]%Z.
Proof. reflexivity. Qed.

Example ParseCIDR_masks_the_address :
  @net.ParseCIDR sample.lib "10.42.3.4/12"
  = Ok ([0; 0; 0; 0; 0; 0; 0; 0; 0; 0; 255; 255; 10; 42; 3; 4]%Z,
        {| net.netIP := [10; 32; 0; 0]%Z; net.Mask := [255; 240; 0; 0]%Z |}).
Proof. reflexivity. Qed.

(** The [ExecStart] lines of the three roles. *)
Example primary_line :
  Contains
    (serverServiceContent threeServers server1 "192.168.1.11" true)
    ("ExecStart=/usr/local/bin/k3s server --cluster-init --flannel-backend vxlan"
     +:+ " --cluster-cidr 10.42.0.0/16 --service-cidr 10.43.0.0/16"
     +:+ " --data-dir /var/lib/rancher/k3s --node-name k3s-server-1"
     +:+ " --disable traefik --token k3air-token" +:+ LF) = true.
Proof. vm_compute. reflexivity. Qed.

Example secondary_line :
  Contains
    (serverServiceContent threeServers server2 "192.168.1.11" false)
    ("ExecStart=/usr/local/bin/k3s server --server https://192.168.1.11:6443"
     +:+ " --flannel-backend vxlan"
     +:+ " --cluster-cidr 10.42.0.0/16 --service-cidr 10.43.0.0/16"
     +:+ " --data-dir /var/lib/rancher/k3s --node-name k3s-server-2"
     +:+ " --disable traefik --token k3air-token" +:+ LF) = true.
Proof. vm_compute. reflexivity. Qed.

Example worker_line :
  Contains
    (agentServiceContent oneServerOneAgent agent1 "192.168.1.11")
    ("ExecStart=/usr/local/bin/k3s agent --server https://192.168.1.11:6443"
     +:+ " --data-dir /var/lib/rancher/k3s --node-name k3s-agent-1"
     +:+ " --token k3air-token" +:+ LF) = true.
Proof. vm_compute. reflexivity. Qed.

(** A missing default binary: the error carries the download hint. *)
Example missing_binary :
  fst (@ResolveAsset sample.lib
         {| respond := fun _ _ =>
              {| stdout := ""; stderr := "";
                 failure := Some {| Error := "stat k3s: no such file or directory";
                                    IsNotExist := true |} |} |}
         "k3s" "k3s binary" emptyState)
  = Err (Errorf ("k3s binary file not found: k3s" +:+ hintBinary)).
Proof. reflexivity. Qed.

(** A URL is fetched into the temporary directory and recorded. *)
Example fetched_binary :
  let r := @ResolveAsset sample.lib healthy "https://example.org/releases/k3s"
             "k3s binary" emptyState in
  fst r = Ok "/tmp/k3air-assets-1/k3s"
  /\ downloadedFiles (assetManager (snd r)) = ["/tmp/k3air-assets-1/k3s"]
  /\ map fst (trace (snd r))
     = [OpCreate "/tmp/k3air-assets-1/k3s";
        OpHttpGet "https://example.org/releases/k3s";
        OpCopyBody "https://example.org/releases/k3s" "/tmp/k3air-assets-1/k3s"].
Proof. repeat split; vm_compute; reflexivity. Qed.

(** Without servers nothing is provisioned. *)
Example no_servers :
  @Apply sample.lib healthy (sampleInstaller (sampleCluster "t") [] [agent1]) emptyState
  = (Err (Errorf "no servers defined"), emptyState).
Proof. reflexivity. Qed.

End examples.
(** * Further properties of the code

    The sections below cover functions that the claims above do not reach,
    and further properties of those they do. *)

(** ** The size formatter *)

Module sizes_facts.
Local Open Scope Z_scope.

Lemma int64_small (z : Z) : - 2 ^ 63 <= z < 2 ^ 63 -> int64 z = z.
Proof. intros Hz. unfold int64. rewrite Z.mod_small; lia. Qed.

Lemma pow1024_pos (k : Z) : 0 <= k -> 0 < 1024 ^ k.
Proof. intros Hk. apply Z.pow_pos_nonneg; lia. Qed.

Lemma pow1024_bound (k : Z) : 0 <= k -> 1024 ^ k < 2 ^ 63 -> k <= 6.
Proof.
  intros Hk Hb. destruct (Z_le_gt_dec k 6) as [|Hgt]; [assumption | exfalso].
  assert (1024 ^ 7 <= 1024 ^ k) by (apply Z.pow_le_mono_r; lia).
  change (1024 ^ 7) with 1180591620717411303424 in *.
  change (2 ^ 63) with 9223372036854775808 in *. lia.
Qed.

Lemma div_lt_inv (a d q : Z) : 0 < d -> a / d < q -> a < d * q.
Proof.
  intros Hd Hq. destruct (Z_lt_ge_dec a (d * q)) as [|Hge]; [assumption | exfalso].
  assert (q <= a / d) by (apply Z.div_le_lower_bound; lia). lia.
Qed.

(** The loop of [formatBytes] after [k] rounds: [div] is [1024 ^ (k + 1)]
    and [n] is [b / div].  It ends after at most five rounds, with the
    power of 1024 that [b] reaches, and no value leaves the range of
    [int64]. *)
Lemma scale_power (b : Z) (rounds : nat) (k : Z) :
  b < 2 ^ 63 -> 0 <= k -> 5 <= k + Z.of_nat rounds ->
  1024 ^ (k + 1) <= b ->
  exists e, k <= e <= 5
    /\ scale rounds (b / 1024 ^ (k + 1)) (1024 ^ (k + 1)) k = Some (1024 ^ (e + 1), e)
    /\ 1024 ^ (e + 1) <= b < 1024 ^ (e + 2).
Proof.
  intros Hb. revert k. induction rounds as [|rounds IH]; intros k Hk Hr Hlow.
  all: pose proof (pow1024_pos (k + 1) ltac:(lia)) as Hd.
  all: assert (Hnext : 1024 ^ (k + 2) = 1024 ^ (k + 1) * 1024)
         by (replace (k + 2) with (Z.succ (k + 1)) by lia;
             rewrite Z.pow_succ_r by lia; lia).
  all: assert (Hk6 : k + 1 <= 6) by (apply pow1024_bound; lia).
  all: cbn [scale]; cbv zeta.
  all: destruct (Z.leb_spec 1024 (b / 1024 ^ (k + 1))) as [Hn | Hn].
  - (* no rounds left: [k = 5], so the loop has ended *)
    exfalso.
    assert (1024 ^ (k + 1) * 1024 <= b).
    { transitivity (1024 ^ (k + 1) * (b / 1024 ^ (k + 1))); [nia |].
      apply Z.mul_div_le; lia. }
    assert (k + 2 <= 6) by (apply pow1024_bound; lia). lia.
  - exists k. repeat split; try lia.
    rewrite Hnext. apply div_lt_inv in Hn; lia.
  - assert (Hmul : 1024 ^ (k + 1) * 1024 <= b).
    { transitivity (1024 ^ (k + 1) * (b / 1024 ^ (k + 1))); [nia |].
      apply Z.mul_div_le; lia. }
    assert (k + 2 <= 6) by (apply pow1024_bound; lia).
    destruct (IH (k + 1)) as (e & He & Hs & Hbounds); try lia.
    { replace (k + 1 + 1) with (k + 2) by lia. lia. }
    exists e. split; [lia |]. split; [| exact Hbounds].
    rewrite Z.quot_div_nonneg by lia.
    rewrite !int64_small.
    + rewrite Z.div_div by lia. rewrite <- Hnext.
      replace (k + 1 + 1) with (k + 2) in Hs by lia. exact Hs.
    + change (2 ^ 63) with 9223372036854775808 in *. lia.
    + change (2 ^ 63) with 9223372036854775808 in *. lia.
    + change (2 ^ 63) with 9223372036854775808 in *.
      assert (0 <= b / 1024 ^ (k + 1) / 1024) by (apply Z.div_pos; lia).
      assert (b / 1024 ^ (k + 1) / 1024 <= b).
      { rewrite Z.div_div by lia. apply Z.div_le_upper_bound; nia. }
      lia.
  - exists k. repeat split; try lia.
    rewrite Hnext. apply div_lt_inv in Hn; lia.
Qed.
End sizes_facts.

(** ** Properties of the size formatter *)

Module sizes_properties.
Import sizes_facts.
Local Open Scope Z_scope.

(** X1.  For every [int64] value [b], [formatBytes] returns: the indexing
    of ["KMGTPE"] never leaves the string, the multiplication [div *= unit]
    never overflows, and five rounds of the loop suffice.  Below 1024
    (negative values included) the text is the number followed by [" B"];
    from 1024 on the divisor is the power [1024 ^ (e + 1)] with
    [1024 ^ (e + 1) <= b < 1024 ^ (e + 2)], and the unit letter is the one
    at index [e] of ["KMGTPE"]. *)
Theorem formatBytes_unit `{FmtLib} (rounds : nat) (b : Z) :
  - 2 ^ 63 <= b < 2 ^ 63 -> (5 <= rounds)%nat ->
  (b < 1024 /\ formatBytes rounds b = Returns (Sprintf_d b +:+ " B"))
  \/ exists e c,
       0 <= e <= 5
       /\ String.get (Z.to_nat e) "KMGTPE" = Some c
       /\ 1024 ^ (e + 1) <= b < 1024 ^ (e + 2)
       /\ formatBytes rounds b
          = Returns (Sprintf_f1 b (1024 ^ (e + 1)) +:+ " " +:+ String c "B").
Proof.
  intros Hb Hr. unfold formatBytes. cbv zeta.
  destruct (Z.ltb_spec b 1024) as [Hlt | Hge]; [left; now split | right].
  destruct (scale_power b rounds 0) as (e & He & Hs & Hbounds); try lia.
  change (1024 ^ (0 + 1)) with 1024 in Hs.
  rewrite Z.quot_div_nonneg by lia.
  rewrite !int64_small.
  2: change (2 ^ 63) with 9223372036854775808; lia.
  2: { change (2 ^ 63) with 9223372036854775808 in *.
       assert (0 <= b / 1024) by (apply Z.div_pos; lia).
       assert (b / 1024 <= b) by (apply Z.div_le_upper_bound; lia). lia. }
  rewrite Hs.
  assert (Hc : exists c, index "KMGTPE" e = Some c
                         /\ String.get (Z.to_nat e) "KMGTPE" = Some c).
  { assert (e = 0 \/ e = 1 \/ e = 2 \/ e = 3 \/ e = 4 \/ e = 5) as Hcases by lia.
    repeat (destruct Hcases as [-> | Hcases]); [.. | subst e];
      eexists; split; reflexivity. }
  destruct Hc as (c & Hi & Hg). rewrite Hi.
  exists e, c. repeat split; try lia; assumption.
Qed.

(** A file of one and a half kibibytes. *)
Lemma formatBytes_unit_witness :
  @formatBytes demo.fmt 5 1536 = Returns "1.5 KB".
Proof.
  destruct (@formatBytes_unit demo.fmt 5 1536)
    as [[Hlt _] | (e & c & He & Hc & Hb & ->)].
  - change (2 ^ 63) with 9223372036854775808. lia.
  - lia.
  - lia.
  - assert (e = 0).
    { destruct (Z.eq_dec e 0) as [|Hne]; [assumption | exfalso].
      assert (1024 ^ 2 <= 1024 ^ (e + 1)) by (apply Z.pow_le_mono_r; lia).
      change (1024 ^ 2) with 1048576 in *. lia. }
    subst e. simpl in Hc. injection Hc as <-. reflexivity.
Defined.
End sizes_properties.
(** ** Properties of configuration loading and validation *)

Module config_facts.
Import config net_facts config_claims.

Lemma bytesEq_eq (a b : list Z) : net.bytesEq a b = true -> a = b.
Proof.
  revert b; induction a as [|x a IH]; intros [|y b] E; simpl in E;
    try discriminate; [reflexivity |].
  apply andb_true_iff in E as [Exy E]. apply Z.eqb_eq in Exy as ->.
  now rewrite (IH _ E).
Qed.

Lemma bytesEq_refl (a : list Z) : net.bytesEq a a = true.
Proof. induction a as [|x a IH]; simpl; [reflexivity | now rewrite Z.eqb_refl]. Qed.

Lemma bytesEqual_from_eq (a b : list Z) :
  length a = length b -> bytesEqual_from a b = true -> a = b.
Proof.
  revert b; induction a as [|x a IH]; intros [|y b] L E; simpl in *;
    try discriminate; [reflexivity |].
  destruct (Z.eqb_spec x y) as [-> | N]; simpl in E; [| discriminate].
  rewrite (IH b); [reflexivity | congruence | assumption].
Qed.

Lemma bytesEqual_from_refl (a : list Z) : bytesEqual_from a a = true.
Proof. induction a as [|x a IH]; simpl; [reflexivity | now rewrite Z.eqb_refl]. Qed.

(** [bytesEqual] is equality of byte slices. *)
Lemma bytesEqual_eq (a b : list Z) : bytesEqual a b = true <-> a = b.
Proof.
  unfold bytesEqual. split.
  - destruct (Nat.eqb_spec (length a) (length b)) as [L | L]; simpl; [| discriminate].
    now apply bytesEqual_from_eq.
  - intros ->. rewrite Nat.eqb_refl. simpl. apply bytesEqual_from_refl.
Qed.

Lemma canonical_lengths (n : net.IPNet) :
  net.Canonical n ->
  (length (net.netIP n) = 4%nat /\ length (net.Mask n) = 4%nat)
  \/ (length (net.netIP n) = 16%nat /\ length (net.Mask n) = 16%nat).
Proof.
  intros [v k Hk | v k Hk]; [left | right]; cbn [net.netIP net.Mask];
    (split; [rewrite length_andBytes |]);
    rewrite ?length_be_bytes, ?length_maskBytes; reflexivity.
Qed.

(** Two ranges as [net.ParseCIDR] returns them pass [cidrsEqual] only if they
    are the same range. *)
Lemma cidrsEqual_same (a b : net.IPNet) :
  net.Canonical a -> net.Canonical b -> cidrsEqual a b = true -> a = b.
Proof.
  intros Ca Cb E. unfold cidrsEqual in E.
  apply andb_true_iff in E as [Ei Em]. apply bytesEqual_eq in Em.
  assert (L : length (net.netIP a) = length (net.netIP b)).
  { destruct (canonical_lengths a Ca) as [[La Ma] | [La Ma]],
             (canonical_lengths b Cb) as [[Lb Mb] | [Lb Mb]];
      rewrite Em in Ma; congruence. }
  unfold net.Equal in Ei. rewrite L, Nat.eqb_refl in Ei. apply bytesEq_eq in Ei.
  destruct a, b; simpl in *; congruence.
Qed.

Lemma cidrsEqual_refl (a : net.IPNet) : cidrsEqual a a = true.
Proof.
  unfold cidrsEqual, net.Equal. rewrite Nat.eqb_refl, bytesEq_refl. simpl.
  now apply bytesEqual_eq.
Qed.

Section WithLib.
Context `{GoLib}.

Lemma parseAndValidateCIDR_inv (s field : string) (n : net.IPNet) :
  parseAndValidateCIDR s field = Ok n -> exists ip, net.ParseCIDR s = Ok (ip, n).
Proof.
  unfold parseAndValidateCIDR. destruct (net.ParseCIDR s) as [[ip m] | e]; [| discriminate].
  intros E. injection E as <-. now exists ip.
Qed.

Lemma validateNodeIP_None (n : Node) : validateNodeIP n = None <-> addressed n.
Proof.
  unfold validateNodeIP, addressed.
  destruct (String.eqb_spec (IP n) "") as [E | E].
  - split; [discriminate | tauto].
  - destruct (net.ParseIP (IP n)); split; try discriminate; try tauto.
    intros _. split; [assumption | discriminate].
Qed.

Lemma validateNodeIP_Some (n : Node) :
  ~ addressed n -> validateNodeIP n = Some (Errorf (addressError n)).
Proof.
  intros Hn. unfold validateNodeIP, addressError.
  destruct (String.eqb_spec (IP n) "") as [E | E]; [reflexivity |].
  destruct (net.ParseIP (IP n)) eqn:Ep; [| reflexivity].
  exfalso. apply Hn. split; [assumption |]. unfold addressed. now rewrite Ep.
Qed.

Lemma validateNodes_None (kind : string) (nodes : list Node) :
  validateNodes kind nodes = None <-> Forall addressed nodes.
Proof.
  induction nodes as [|n nodes IH]; simpl.
  - split; [constructor | reflexivity].
  - destruct (validateNodeIP n) as [e|] eqn:En.
    + split; [discriminate |]. intros F. inversion F as [|? ? Hn _]; subst.
      apply validateNodeIP_None in Hn. congruence.
    + rewrite IH. split.
      * intros F. constructor; [now apply validateNodeIP_None | assumption].
      * intros F. now inversion F.
Qed.

(** The loop over the nodes stops at the first node that is not
    [addressed] and reports it. *)
Lemma validateNodes_first (kind : string) (pre post : list Node) (n : Node) :
  Forall addressed pre -> ~ addressed n ->
  validateNodes kind (pre ++ n :: post)
  = Some (Errorf (kind +:+ " " +:+ NodeName n +:+ ": " +:+ addressError n)).
Proof.
  intros Hpre Hn. induction Hpre as [|m pre Hm Hpre IH]; simpl.
  - now rewrite (validateNodeIP_Some n Hn).
  - apply validateNodeIP_None in Hm. now rewrite Hm.
Qed.

(** [Validate] once both ranges are read. *)
Lemma Validate_parsed (c : Config) (ia ib : net.IP) (a b : net.IPNet) :
  net.ParseCIDR (ClusterCidr (cluster c)) = Ok (ia, a) ->
  net.ParseCIDR (ServiceCidr (cluster c)) = Ok (ib, b) ->
  Validate c
  = if cidrsEqual a b then
      Some (Errorf ("cluster-cidr and service-cidr cannot be the same: "
                    +:+ ClusterCidr (cluster c)))
    else if cidrsOverlap a b then
      Some (Errorf ("cluster-cidr (" +:+ ClusterCidr (cluster c)
                    +:+ ") and service-cidr (" +:+ ServiceCidr (cluster c)
                    +:+ ") overlap"))
    else match validateNodes "server" (Servers c) with
         | Some err => Some err
         | None => validateNodes "agent" (Agents c)
         end.
Proof.
  intros E1 E2. unfold Validate.
  now rewrite (parseAndValidateCIDR_Ok _ _ _ _ E1), (parseAndValidateCIDR_Ok _ _ _ _ E2).
Qed.

Lemma disjoint_checks (a b : net.IPNet) :
  net.Canonical a -> net.Canonical b ->
  ~ overlapping a b <-> cidrsEqual a b = false /\ cidrsOverlap a b = false.
Proof.
  intros Ca Cb. rewrite (overlapping_cidrsOverlap a b Ca Cb). split.
  - intros Hno. destruct (cidrsOverlap a b) eqn:Eo; [now destruct Hno |].
    split; [| reflexivity].
    destruct (cidrsEqual a b) eqn:Ee; [exfalso | reflexivity].
    apply (cidrsEqual_same a b Ca Cb) in Ee. subst b.
    unfold cidrsOverlap in Eo. now rewrite (Contains_own a Ca) in Eo.
  - intros [_ Eo]. now rewrite Eo.
Qed.
End WithLib.
End config_facts.

Module config_properties.
Import config net_facts config_claims config_facts.

(** X2.  [Validate] accepts a configuration exactly when both ranges are
    read by [net.ParseCIDR], the two ranges share no address, and every
    server and every agent has an address that is not empty and that
    [net.ParseIP] reads. *)
Theorem validate_accepts `{GoLib} (c : Config) :
  Validate c = None
  <-> exists ia a ib b,
        net.ParseCIDR (ClusterCidr (cluster c)) = Ok (ia, a)
        /\ net.ParseCIDR (ServiceCidr (cluster c)) = Ok (ib, b)
        /\ ~ overlapping a b
        /\ Forall addressed (Servers c ++ Agents c).
Proof.
  split.
  - intros V. unfold Validate in V.
    destruct (parseAndValidateCIDR _ "cluster-cidr") as [a | e] eqn:Ea; [| discriminate].
    destruct (parseAndValidateCIDR _ "service-cidr") as [b | e] eqn:Eb; [| discriminate].
    apply parseAndValidateCIDR_inv in Ea as [ia Ea].
    apply parseAndValidateCIDR_inv in Eb as [ib Eb].
    exists ia, a, ib, b. split; [assumption |]. split; [assumption |].
    pose proof (ParseCIDR_canonical _ _ _ Ea) as Ca.
    pose proof (ParseCIDR_canonical _ _ _ Eb) as Cb.
    destruct (cidrsEqual a b) eqn:Ee; [discriminate |].
    destruct (cidrsOverlap a b) eqn:Eo; [discriminate |].
    split; [now apply disjoint_checks |].
    destruct (validateNodes "server" (Servers c)) eqn:Es; [discriminate |].
    apply Forall_app. split;
      [now apply (validateNodes_None "server") | now apply (validateNodes_None "agent")].
  - intros (ia & a & ib & b & Ea & Eb & Hd & Hn).
    pose proof (ParseCIDR_canonical _ _ _ Ea) as Ca.
    pose proof (ParseCIDR_canonical _ _ _ Eb) as Cb.
    apply (disjoint_checks a b Ca Cb) in Hd as [Ee Eo].
    rewrite (Validate_parsed c _ _ _ _ Ea Eb), Ee, Eo.
    apply Forall_app in Hn as [Hs Ha].
    apply (validateNodes_None "server") in Hs. rewrite Hs.
    now apply (validateNodes_None "agent").
Qed.

(** X3.  When the two ranges pass the CIDR checks (they are read, are
    not equal and do not overlap), [Validate] reports the first server
    whose address is empty or unreadable, with the node's name and the
    prefix [server]; the agents are looked at only if every server
    passes, and the first such agent is reported with the prefix
    [agent]. *)
Theorem validate_first_bad_node `{GoLib} (c : Config)
    (ia ib : net.IP) (a b : net.IPNet) (pre post : list Node) (n : Node) :
  net.ParseCIDR (ClusterCidr (cluster c)) = Ok (ia, a) ->
  net.ParseCIDR (ServiceCidr (cluster c)) = Ok (ib, b) ->
  cidrsEqual a b = false -> cidrsOverlap a b = false ->
  Forall addressed pre -> ~ addressed n ->
  (Servers c = pre ++ n :: post ->
   Validate c
   = Some (Errorf ("server " +:+ NodeName n +:+ ": " +:+ addressError n)))
  /\
  (Forall addressed (Servers c) -> Agents c = pre ++ n :: post ->
   Validate c
   = Some (Errorf ("agent " +:+ NodeName n +:+ ": " +:+ addressError n))).
Proof.
  intros Ea Eb Ee Eo Hpre Hn.
  rewrite (Validate_parsed c _ _ _ _ Ea Eb), Ee, Eo. split.
  - intros ->. now rewrite (validateNodes_first "server" pre post n Hpre Hn).
  - intros Hs ->. apply (validateNodes_None "server") in Hs. rewrite Hs.
    now apply validateNodes_first.
Qed.

(** Three servers, the second of which has no address. *)
Lemma validate_first_bad_node_witness :
  @Validate sample.lib demo.unaddressed
  = Some (Errorf "server k3s-server-2: ip address is empty").
Proof.
  destruct (@validate_first_bad_node sample.lib demo.unaddressed
              _ _ _ _
              [demo.bareNode "k3s-server-1" "192.168.1.11" 22]
              [demo.bareNode "k3s-server-3" "192.168.1.16" 22]
              (demo.bareNode "k3s-server-2" "" 22)
              eq_refl eq_refl) as [Hs _].
  - vm_compute. reflexivity.
  - vm_compute. reflexivity.
  - repeat constructor; [discriminate | vm_compute; discriminate].
  - intros [Hne _]. now apply Hne.
  - exact (Hs eq_refl).
Defined.

(** X4.  For two ranges that [parseAndValidateCIDR] returns, [cidrsEqual]
    holds exactly when they are the same range (same network address and
    same mask), and then [cidrsOverlap] holds as well: of the two
    rejections in [Validate], the one for identical ranges only decides
    the message. *)
Theorem equal_ranges_overlap `{GoLib} (s1 s2 f1 f2 : string) (a b : net.IPNet) :
  parseAndValidateCIDR s1 f1 = Ok a ->
  parseAndValidateCIDR s2 f2 = Ok b ->
  (cidrsEqual a b = true <-> a = b)
  /\ (cidrsEqual a b = true -> cidrsOverlap a b = true).
Proof.
  intros Ea Eb.
  apply parseAndValidateCIDR_inv in Ea as [ia Ea].
  apply parseAndValidateCIDR_inv in Eb as [ib Eb].
  pose proof (ParseCIDR_canonical _ _ _ Ea) as Ca.
  pose proof (ParseCIDR_canonical _ _ _ Eb) as Cb.
  split; [split |].
  - now apply cidrsEqual_same.
  - intros ->. apply cidrsEqual_refl.
  - intros E. apply (cidrsEqual_same a b Ca Cb) in E. subst b.
    unfold cidrsOverlap. now rewrite (Contains_own a Ca).
Qed.

(** A pod range written with host bits set is the range of its network:
    it equals the service range, and the two overlap. *)
Lemma equal_ranges_overlap_witness :
  exists a b,
    @parseAndValidateCIDR sample.lib "10.42.3.4/16" "cluster-cidr" = Ok a
    /\ @parseAndValidateCIDR sample.lib "10.42.0.0/16" "service-cidr" = Ok b
    /\ a = b /\ cidrsOverlap a b = true.
Proof.
  eexists _, _. split; [vm_compute; reflexivity |]. split; [vm_compute; reflexivity |].
  destruct (@equal_ranges_overlap sample.lib "10.42.3.4/16" "10.42.0.0/16"
              "cluster-cidr" "service-cidr" _ _ eq_refl eq_refl) as [Heq Hov].
  split.
  - apply Heq. vm_compute. reflexivity.
  - apply Hov. vm_compute. reflexivity.
Defined.
End config_properties.
(** ** Properties of [Load] *)

Module load_facts.
Import config configfile.

Lemma defaultPort_set (n : Node) : Port (defaultPort n) <> 0%Z.
Proof.
  unfold defaultPort. destruct (Z.eqb_spec (Port n) 0) as [E | E]; simpl; [lia | exact E].
Qed.

Lemma defaultPort_fixed (n : Node) : Port n <> 0%Z -> defaultPort n = n.
Proof.
  intros Hn. unfold defaultPort. destruct (Z.eqb_spec (Port n) 0); [contradiction | reflexivity].
Qed.

Lemma map_defaultPort_set (l : list Node) :
  Forall (fun n => Port n <> 0%Z) (map defaultPort l).
Proof. induction l; simpl; constructor; [apply defaultPort_set | assumption]. Qed.

Lemma map_defaultPort_fixed (l : list Node) :
  Forall (fun n => Port n <> 0%Z) l -> map defaultPort l = l.
Proof.
  induction 1 as [|n l Hn Hl IH]; simpl; [reflexivity |].
  now rewrite IH, defaultPort_fixed.
Qed.

Lemma eqb_empty (s : string) : String.eqb s "" = false <-> s <> "".
Proof. now rewrite String.eqb_neq. Qed.

(** After the defaults are assigned, every defaulted setting is present. *)
Lemma withDefaults_filledIn (c : Config) : filledIn (withDefaults c).
Proof.
  destruct c as [[fb cc sc tok san dis dd er reg] [bin tar] srv ag].
  destruct cc, sc, dd, fb, bin, tar;
    cbv - [map defaultPort app];
    repeat (split; [discriminate |]);
    apply Forall_app; split; apply map_defaultPort_set.
Qed.

(** A configuration in which they are present already is left as it is. *)
Lemma withDefaults_fixed (c : Config) : filledIn c -> withDefaults c = c.
Proof.
  intros (H1 & H2 & H3 & H4 & H5 & H6 & H7).
  apply Forall_app in H7 as [Hs Ha].
  destruct c as [[fb cc sc tok san dis dd er reg] [bin tar] srv ag].
  cbn [cluster Assets Servers Agents ClusterCidr ServiceCidr DataDir
       FlannelBackend K3sBinary K3sAirgapTarball] in *.
  destruct cc, sc, dd, fb, bin, tar; try contradiction.
  cbv - [map defaultPort].
  now rewrite !map_defaultPort_fixed.
Qed.

Section WithLib.
Context `{GoLib} `{ConfigFiles}.

Lemma Load_decoded (path b : string) (c0 : Config) :
  os_ReadFile path = Ok b ->
  yaml_Unmarshal_Config b = (c0, None) ->
  Load path
  = match Validate (withDefaults c0) with
    | Some err =>
        (withDefaults c0, Some (Errorf ("config validation failed: " +:+ Error err)))
    | None => (withDefaults c0, None)
    end.
Proof. intros Er Ed. unfold Load. rewrite Er, Ed. reflexivity. Qed.

Lemma Load_None (path : string) (c : Config) :
  Load path = (c, None) ->
  exists b c0, os_ReadFile path = Ok b /\ yaml_Unmarshal_Config b = (c0, None)
               /\ c = withDefaults c0 /\ Validate c = None.
Proof.
  intros E. unfold Load in E.
  destruct (os_ReadFile path) as [b | e] eqn:Er; [| discriminate].
  destruct (yaml_Unmarshal_Config b) as [c0 [e|]] eqn:Ed; [discriminate |].
  fold (withDefaults c0) in E.
  destruct (Validate (withDefaults c0)) eqn:Ev; [discriminate |].
  injection E as <-. now exists b, c0.
Qed.
End WithLib.
End load_facts.

Module load_properties.
Import config configfile load_facts unit_facts.

(** X5.  A configuration that [Load] returns without an error has a pod
    range, a service range, a data directory, a flannel backend, a k3s
    binary and an images archive that are not empty, an SSH port other
    than 0 on every server and agent, and it passes [Validate]. *)
Theorem load_fills_defaults `{GoLib} `{ConfigFiles} (path : string) (c : Config) :
  Load path = (c, None) -> filledIn c /\ Validate c = None.
Proof.
  intros E. apply Load_None in E as (b & c0 & _ & _ & -> & V).
  split; [apply withDefaults_filledIn | exact V].
Qed.

(** The minimal file: every default is filled in. *)
Lemma load_fills_defaults_witness :
  @Load sample.lib demo.files "init.yaml" = (demo.completeConfig, None)
  /\ filledIn demo.completeConfig
  /\ @Validate sample.lib demo.completeConfig = None.
Proof.
  assert (E : @Load sample.lib demo.files "init.yaml" = (demo.completeConfig, None))
    by (vm_compute; reflexivity).
  split; [exact E |].
  exact (@load_fills_defaults sample.lib demo.files "init.yaml" demo.completeConfig E).
Defined.

(** X6.  Loading is stable: if a file decodes to a configuration that
    [Load] has returned without an error, then [Load] returns that very
    configuration for it, again without an error.  The defaults change
    nothing where a value is present. *)
Theorem load_is_stable `{GoLib} `{ConfigFiles} (path path' b' : string) (c : Config) :
  Load path = (c, None) ->
  os_ReadFile path' = Ok b' ->
  yaml_Unmarshal_Config b' = (c, None) ->
  Load path' = (c, None).
Proof.
  intros E Er Ed. apply Load_None in E as (b & c0 & _ & _ & Ec & V).
  rewrite (Load_decoded path' b' c Er Ed).
  assert (F : withDefaults c = c).
  { apply withDefaults_fixed. rewrite Ec. apply withDefaults_filledIn. }
  rewrite F, V. reflexivity.
Qed.

(** The file with every setting written out loads to what the minimal
    file loads to. *)
Lemma load_is_stable_witness :
  @Load sample.lib demo.files "complete.yaml" = (demo.completeConfig, None).
Proof.
  apply (@load_is_stable sample.lib demo.files "init.yaml" "complete.yaml"
           demo.completeText demo.completeConfig).
  - vm_compute. reflexivity.
  - reflexivity.
  - reflexivity.
Defined.

(** X7.  For a configuration that [Load] has returned without an error,
    every server command line pins the flannel backend, the pod range,
    the service range and the data directory, and every agent command
    line the data directory, each by a flag with a non-empty argument
    right behind the role words: the settings left out of the file reach
    k3s as the defaults of [Load], not as the defaults of k3s. *)
Theorem loaded_settings_reach_units `{GoLib} `{ConfigFiles} (path : string)
    (i : Installer) (node : Node) (ip : string) (b : bool) :
  Load path = (cfg i, None) ->
  let c := cluster (cfg i) in
  (FlannelBackend c <> "" /\ ClusterCidr c <> "" /\ ServiceCidr c <> ""
   /\ DataDir c <> "")
  /\
  (exists rest,
     serverArgs i node ip b
     = (if b then ["server"; "--cluster-init"]
        else ["server"; "--server"; "https://" +:+ ip +:+ ":6443"])
       ++ ["--flannel-backend"; FlannelBackend c; "--cluster-cidr"; ClusterCidr c;
           "--service-cidr"; ServiceCidr c; "--data-dir"; DataDir c]
       ++ rest)
  /\
  (exists rest,
     agentArgs i node ip
     = ["agent"; "--server"; "https://" +:+ ip +:+ ":6443"; "--data-dir"; DataDir c]
       ++ rest).
Proof.
  intros E c. apply Load_None in E as (bs & c0 & _ & _ & Ec & _).
  pose proof (withDefaults_filledIn c0) as F. rewrite <- Ec in F.
  destruct F as (H1 & H2 & H3 & H4 & _). fold c in H1, H2, H3, H4.
  split; [tauto |].
  apply nonempty_true in H1, H2, H3, H4.
  split.
  - unfold serverArgs. cbv zeta. fold c. rewrite H1, H2, H3, H4.
    rewrite (fold_append_flag GLabels), (fold_append_flag GDisabled),
      (fold_append_flag GCertNames), !if_append.
    destruct b; cbn [app]; rewrite <- ?app_assoc; cbn [app];
      eexists; repeat f_equal.
  - unfold agentArgs. cbv zeta. fold c. rewrite H3.
    rewrite (fold_append_flag GLabels), !if_append.
    cbn [app]; rewrite <- ?app_assoc; cbn [app]. eexists; repeat f_equal.
Qed.

(** The units of the minimal file carry the defaults of [Load]. *)
Lemma loaded_settings_reach_units_witness :
  exists rest,
    serverArgs (demo.installerOf demo.completeConfig)
      (demo.bareNode "k3s-server-1" "192.168.1.11" 22) "192.168.1.11" true
    = ["server"; "--cluster-init"]
      ++ ["--flannel-backend"; "vxlan"; "--cluster-cidr"; "10.42.0.0/16";
          "--service-cidr"; "10.43.0.0/16"; "--data-dir"; "/var/lib/rancher/k3s"]
      ++ rest.
Proof.
  destruct (@loaded_settings_reach_units sample.lib demo.files "init.yaml"
              (demo.installerOf demo.completeConfig)
              (demo.bareNode "k3s-server-1" "192.168.1.11" 22) "192.168.1.11" true)
    as (_ & Hs & _).
  - vm_compute. reflexivity.
  - exact Hs.
Defined.
End load_properties.
(** ** More about the generated units *)

Module words_facts.
Import strings strings_facts unit_facts.

Lemma has_byte_append (c : ascii) (a b : string) :
  has_byte c (a +:+ b) = has_byte c a || has_byte c b.
Proof. induction a as [|x a IH]; simpl; [reflexivity | now rewrite IH, orb_assoc]. Qed.

Lemma Split_nonempty (s : string) (sep : ascii) : Split s sep <> [].
Proof.
  induction s as [|c s IH]; simpl; [discriminate |].
  destruct (Ascii.eqb c sep); [discriminate |].
  destruct (Split s sep); discriminate.
Qed.

(** No part of a split contains the separator. *)
Lemma Split_parts (s : string) (sep : ascii) :
  Forall (fun p => has_byte sep p = false) (Split s sep).
Proof.
  induction s as [|c s IH]; simpl; [repeat constructor |].
  destruct (Ascii.eqb c sep) eqn:E; [constructor; [reflexivity | exact IH] |].
  rewrite Ascii.eqb_sym in E.
  destruct (Split s sep) as [|p ps].
  - repeat constructor. simpl. now rewrite E.
  - inversion IH as [|? ? Hp Hps]; subst. constructor; [| exact Hps].
    simpl. now rewrite E, Hp.
Qed.

Lemma Split_word (w : string) (sep : ascii) :
  has_byte sep w = false -> Split w sep = [w].
Proof.
  induction w as [|c w IH]; simpl; [reflexivity |]. intros Hw.
  apply orb_false_iff in Hw as [Hc Hw]. rewrite Ascii.eqb_sym in Hc.
  now rewrite Hc, (IH Hw).
Qed.

Lemma Split_cons (w rest : string) (sep : ascii) :
  has_byte sep w = false ->
  Split (w +:+ String sep rest) sep = w :: Split rest sep.
Proof.
  induction w as [|c w IH]; simpl; intros Hw.
  - now rewrite Ascii.eqb_refl.
  - apply orb_false_iff in Hw as [Hc Hw]. rewrite Ascii.eqb_sym in Hc.
    now rewrite Hc, (IH Hw).
Qed.

(** Splitting undoes joining when no element contains the separator. *)
Lemma Split_Join (l : list string) (sep : ascii) :
  l <> [] -> Forall (fun w => has_byte sep w = false) l ->
  Split (Join l (String sep "")) sep = l.
Proof.
  intros Hl F. induction F as [|w l Hw F IH]; [congruence |].
  destruct l as [|v l].
  - simpl. now apply Split_word.
  - rewrite Join_cons.
    change (String sep "" +:+ Join (v :: l) (String sep ""))
      with (String sep (Join (v :: l) (String sep ""))).
    rewrite (Split_cons _ _ _ Hw), IH by discriminate. reflexivity.
Qed.

Lemma opt_Forall (P : string -> Prop) (g : FlagGroup) (flag v : string) :
  P flag -> P v -> Forall P (flat_map words (opt g flag v)).
Proof.
  intros Hf Hv. rewrite opt_words. destruct (nonempty v); repeat constructor; assumption.
Qed.

Lemma opts_Forall (P : string -> Prop) (g : FlagGroup) (flag : string) (xs : list string) :
  P flag -> Forall P xs -> Forall P (flat_map words (flat_map (opt g flag) xs)).
Proof.
  intros Hf. induction 1 as [|x xs Hx Hxs IH]; simpl; [constructor |].
  rewrite flat_map_app. apply Forall_app; split; [now apply opt_Forall | exact IH].
Qed.

Lemma joinTarget_blank (ip : string) :
  has_byte " " ip = false -> has_byte " " (joinTarget ip) = false.
Proof.
  intros Hip. unfold joinTarget. now rewrite !has_byte_append, Hip.
Qed.

Ltac words_free :=
  repeat first
    [ apply Forall_app; split
    | apply opt_Forall; [reflexivity | assumption]
    | apply opts_Forall; [reflexivity | assumption]
    | apply List.Forall_nil
    | apply List.Forall_cons; [first [reflexivity | assumption] |] ].

(** If no configured value contains a blank, no word of a command line
    does. *)
Lemma serverItems_blank (c : Cluster) (node : Node) (ip : string) (b : bool) :
  Forall (fun v => has_byte " " v = false) (ip :: serverValues c node) ->
  Forall (fun w => has_byte " " w = false) (flat_map words (serverItems c node ip b)).
Proof.
  intros F. inversion F as [|? ? Hip F']; subst. unfold serverValues in F'.
  apply joinTarget_blank in Hip.
  inversion F' as [|? ? H1 F1]; subst. inversion F1 as [|? ? H2 F2]; subst.
  inversion F2 as [|? ? H3 F3]; subst. inversion F3 as [|? ? H4 F4]; subst.
  inversion F4 as [|? ? H5 F5]; subst.
  apply Forall_app in F5 as [Hsan F5]. apply Forall_app in F5 as [Hdis F5].
  apply Forall_app in F5 as [Hlab F5]. inversion F5 as [|? ? Htok _]; subst.
  unfold serverItems. rewrite !flat_map_app.
  destruct b, (EmbeddedRegistry c); cbn [flat_map words app]; words_free.
Qed.

Lemma agentItems_blank (c : Cluster) (node : Node) (ip : string) :
  Forall (fun v => has_byte " " v = false) (ip :: agentValues c node) ->
  Forall (fun w => has_byte " " w = false) (flat_map words (agentItems c node ip)).
Proof.
  intros F. inversion F as [|? ? Hip F']; subst. unfold agentValues in F'.
  apply joinTarget_blank in Hip.
  inversion F' as [|? ? H1 F1]; subst. inversion F1 as [|? ? H2 F2]; subst.
  apply Forall_app in F2 as [Hlab F5]. inversion F5 as [|? ? Htok _]; subst.
  unfold agentItems. rewrite !flat_map_app.
  cbn [flat_map words app]; words_free.
Qed.
End words_facts.

Module unit_properties.
Import strings strings_facts unit_facts words_facts.
Local Arguments Contains : simpl never.

(** X8.  If neither the primary address nor any configured value that goes
    into the command line contains a blank, the command of a unit splits
    at blanks into the binary path followed by exactly the arguments that
    the generator collected, with the token last: no argument is lost,
    merged or cut in two.  This holds for the server unit and for the
    agent unit. *)
Theorem command_line_words (i : Installer) (node : Node) (ip : string) (b : bool) :
  let c := cluster (cfg i) in
  (Forall (fun v => has_byte " " v = false) (ip :: serverValues c node) ->
   exists cmd,
     serverServiceContent i node ip b = unitService "k3s" cmd
     /\ Split cmd " "
        = "/usr/local/bin/k3s" :: serverArgs i node ip b ++ ["--token"; Token c])
  /\
  (Forall (fun v => has_byte " " v = false) (ip :: agentValues c node) ->
   exists cmd,
     agentServiceContent i node ip = unitService "k3s-agent" cmd
     /\ Split cmd " " = "/usr/local/bin/k3s" :: agentArgs i node ip).
Proof.
  intros c. split; intros F.
  - exists ("/usr/local/bin/k3s"
            +:+ String " " (Join (serverArgs i node ip b ++ ["--token"; Token c]) " ")).
    split.
    + unfold serverServiceContent. cbv zeta. fold c.
      rewrite Join_app by (try apply serverArgs_nonempty; discriminate).
      reflexivity.
    + rewrite Split_cons by reflexivity. f_equal.
      apply Split_Join.
      * intros E. apply app_eq_nil in E as [_ E]. discriminate.
      * unfold c. rewrite serverArgs_items. now apply serverItems_blank.
  - exists ("/usr/local/bin/k3s" +:+ String " " (Join (agentArgs i node ip) " ")).
    split; [reflexivity |].
    rewrite Split_cons by reflexivity. f_equal.
    apply Split_Join.
    + rewrite agentArgs_items. unfold agentItems. discriminate.
    + rewrite agentArgs_items. now apply agentItems_blank.
Qed.

(** The command line of the second server of the sample cluster. *)
Lemma command_line_words_witness :
  exists cmd,
    serverServiceContent (sampleInstaller (sampleCluster "k3air-token") [] [])
      (sampleNode "k3s-server-2" "192.168.1.14" ["disk=ssd"]) "192.168.1.11" false
    = unitService "k3s" cmd
    /\ Split cmd " "
       = ["/usr/local/bin/k3s"; "server"; "--server"; "https://192.168.1.11:6443";
          "--flannel-backend"; "vxlan"; "--cluster-cidr"; "10.42.0.0/16";
          "--service-cidr"; "10.43.0.0/16"; "--data-dir"; "/var/lib/rancher/k3s";
          "--node-name"; "k3s-server-2"; "--disable"; "traefik";
          "--node-label"; "disk=ssd"; "--token"; "k3air-token"].
Proof.
  destruct (command_line_words (sampleInstaller (sampleCluster "k3air-token") [] [])
              (sampleNode "k3s-server-2" "192.168.1.14" ["disk=ssd"])
              "192.168.1.11" false) as [Hs _].
  destruct Hs as (cmd & Hu & Hw).
  - repeat constructor.
  - exists cmd. split; [exact Hu | exact Hw].
Defined.

(** X9.  An agent unit carries no flag of the control plane: the texts
    [--flannel-backend], [--cluster-cidr], [--service-cidr],
    [--embedded-registry], [--tls-san] and [--disable] occur in it only
    if the primary address or one of the configured values that go into
    the agent command line (data directory, node name, labels, token)
    contains them. *)
Theorem agent_unit_flags (i : Installer) (node : Node) (ip : string) (w : string) :
  In w controlPlaneFlags ->
  Contains (agentServiceContent i node ip) w
  = mentions w (ip :: agentValues (cluster (cfg i)) node).
Proof.
  intros Hw. rewrite agentServiceContent_render.
  assert (has_byte lf w = false /\ has_byte "=" w = false /\ has_byte " " w = false
          /\ w <> "" /\ mentions w skeleton = false /\ Contains "k3s-agent" w = false
          /\ (forall f, In f ["--data-dir"; "--node-name"; "--node-label"; "--token";
                              "agent"; "--server"; "https:"; ""; "6443"] ->
                        Contains f w = false)
          /\ has_byte "/" w = false /\ has_byte ":" w = false)
    as (H1 & H2 & H3 & H4 & H5 & H6 & H7 & H8 & H9).
  { unfold controlPlaneFlags in Hw. simpl in Hw.
    repeat (destruct Hw as [<- | Hw];
            [ repeat split; try first [reflexivity | discriminate];
              intros f Hf; simpl in Hf;
              repeat (destruct Hf as [<- | Hf]; [reflexivity |]); destruct Hf
            | ]).
    destruct Hw. }
  rewrite (Contains_renderUnit w H1 H2 H3 H4 H5), H6. simpl orb.
  unfold agentItems, agentValues, mentions.
  repeat rewrite ?flat_map_app, ?existsb_app.
  rewrite ?(existsb_opt w H1 H2 H3 H4 H5), ?(existsb_opts w H1 H2 H3 H4 H5)
    by (apply H7; simpl; tauto).
  cbn [flat_map words app existsb].
  assert (J : Contains (joinTarget ip) w = Contains ip w).
  { unfold joinTarget.
    change ("https://" +:+ ip +:+ ":6443")
      with ("https:" +:+ String "/" ("" +:+ String "/" (ip +:+ String ":" "6443"))).
    rewrite !(Contains_sep "/" w _ _ H8), (Contains_sep ":" w _ _ H9).
    rewrite (H7 "https:"), (H7 ""), (H7 "6443") by (simpl; tauto).
    simpl. now rewrite orb_false_r. }
  rewrite J, (H7 "agent"), (H7 "--server"), (H7 "--token") by (simpl; tauto).
  rewrite existsb_app. cbn [existsb].
  rewrite ?orb_false_r, ?orb_false_l, ?orb_assoc. reflexivity.
Qed.

(** The agent of the sample cluster: although the cluster disables a
    component, the agent unit has no [--disable]. *)
Lemma agent_unit_flags_witness :
  Contains
    (agentServiceContent (sampleInstaller (sampleCluster "k3air-token") [] [])
       (sampleNode "k3s-agent-1" "192.168.1.21" ["disk=ssd"]) "192.168.1.11")
    "--disable" = false.
Proof.
  rewrite (agent_unit_flags (sampleInstaller (sampleCluster "k3air-token") [] [])
             (sampleNode "k3s-agent-1" "192.168.1.21" ["disk=ssd"]) "192.168.1.11"
             "--disable").
  - vm_compute. reflexivity.
  - simpl. tauto.
Defined.
End unit_properties.
(** ** Properties of the asset manager *)

Module assets_facts.
Import strings strings_facts words_facts install_facts.
Local Open Scope monad_scope.

Lemma last_In {A : Type} (l : list A) (d : A) : l <> [] -> In (List.last l d) l.
Proof.
  induction l as [|x l IH]; [congruence |]. intros _.
  destruct l as [|y l]; [now left |]. right. apply IH. discriminate.
Qed.

Section WithLib.
Context `{GoLib} `{Environment}.

Lemma getFilenameFromURL_parts (source : string) :
  getFilenameFromURL source = ""
  \/ exists path, url_Parse_Path source = Ok path
                  /\ In (getFilenameFromURL source) (Split path "/").
Proof.
  unfold getFilenameFromURL. destruct (url_Parse_Path source) as [path | e]; [| now left].
  right. exists path. split; [reflexivity |].
  destruct (Nat.eqb_spec (length (Split path "/")) 0) as [E | E].
  - exfalso. apply (Split_nonempty path "/"). now apply length_zero_iff_nil.
  - apply last_In, Split_nonempty.
Qed.

(** What [download] does when it returns a path. *)
Lemma download_Ok (url p : string) (s s' : State) :
  download url s = (Ok p, s') ->
  getFilenameFromURL url <> ""
  /\ p = filepath_Join [tempDir (assetManager s); getFilenameFromURL url]
  /\ assetManager s' = assetManager s
  /\ exists rc rg rb,
       trace s' = trace s ++ [(OpCreate p, rc); (OpHttpGet url, rg);
                              (OpCopyBody url p, rb)]
       /\ failure rc = None /\ failure rg = None
       /\ statusOK (stdout rg) = true /\ failure rb = None.
Proof.
  unfold download. cbv zeta.
  destruct (String.eqb_spec (getFilenameFromURL url) "") as [E | E]; [discriminate |].
  set (localPath := filepath_Join [tempDir (assetManager s); getFilenameFromURL url]).
  intros R.
  apply bind_inv_Ok in R as (rc & s1 & E1 & R). injection E1 as <- <-.
  set (rc := respond (trace s) (OpCreate localPath)) in *.
  destruct (failure rc) eqn:Ec; [discriminate |].
  apply bind_inv_Ok in R as (rg & s2 & E2 & R). injection E2 as <- <-.
  cbn [trace assetManager] in R.
  set (rg := respond (trace s ++ [(OpCreate localPath, rc)]) (OpHttpGet url)) in *.
  destruct (failure rg) eqn:Eg; [discriminate |].
  destruct (statusOK (stdout rg)) eqn:Es; cbn [negb] in R; [| discriminate].
  apply bind_inv_Ok in R as (rb & s3 & E3 & R). injection E3 as <- <-.
  cbn [trace assetManager] in R.
  set (rb := respond _ (OpCopyBody url localPath)) in *.
  destruct (failure rb) eqn:Eb; [discriminate |].
  injection R as <- <-. cbn [trace assetManager].
  repeat split; try assumption.
  exists rc, rg, rb. split; [now rewrite <- !app_assoc |].
  repeat split; assumption.
Qed.

(** [download] leaves the asset manager as it is, and fails before it
    does anything if the URL yields no file name. *)
Lemma download_manager (url : string) (s s' : State) (r : result string) :
  download url s = (r, s') -> assetManager s' = assetManager s.
Proof.
  unfold download. cbv zeta.
  destruct (String.eqb (getFilenameFromURL url) ""); [intros E; now inversion E |].
  unfold bind, ask, fail, ret. cbn [trace assetManager].
  repeat match goal with
         | |- (match failure ?x with _ => _ end) _ = _ -> _ => destruct (failure x)
         | |- (if negb ?x then _ else _) _ = _ -> _ => destruct x; cbn [negb]
         end; intros E; now inversion E.
Qed.

Lemma emit_run (op : Op) (s : State) : emit op s = (Ok tt, after s op).
Proof. reflexivity. Qed.

Lemma runCmd_succeeds (c : Client) (cmd : string) (s : State) :
  failure (answer s (OpRun c cmd)) = None ->
  runCmd c cmd s = (Ok tt, after s (OpRun c cmd)).
Proof.
  intros E. unfold runCmd, sshclient.Run, bind, ask.
  fold (answer s (OpRun c cmd)). now rewrite E.
Qed.

Lemma Upload_succeeds (c : Client) (l r : string) (p : bool) (s : State) :
  failure (answer s (OpUpload c l r p)) = None ->
  sshclient.Upload c l r p s = (Ok tt, after s (OpUpload c l r p)).
Proof.
  intros E. unfold sshclient.Upload, bind, ask, check.
  fold (answer s (OpUpload c l r p)). now rewrite E.
Qed.

Lemma bind_ret_tt (m : M unit) (s : State) : bind m (fun _ => ret tt) s = m s.
Proof. unfold bind, ret. destruct (m s) as [[[] | e] s1]; reflexivity. Qed.
End WithLib.
End assets_facts.

Module assets_properties.
Import strings strings_facts words_facts install_facts assets_facts.
Local Open Scope monad_scope.

(** X10.  The file name that [getFilenameFromURL] takes from a URL never
    contains a slash, whatever the URL parser returns: it is the last of
    the parts of the path between slashes (and the test for an empty list
    of parts never applies, since splitting yields at least one part). *)
Theorem filename_has_no_slash `{GoLib} (source : string) :
  has_byte "/" (getFilenameFromURL source) = false.
Proof.
  destruct (getFilenameFromURL_parts source) as [-> | (path & _ & Hin)]; [reflexivity |].
  pose proof (Split_parts path "/") as F.
  rewrite List.Forall_forall in F. now apply F.
Qed.

(** X11.  For an http(s) reference, [ResolveAsset] returns a path only
    after the file was created in the temp directory, the server answered
    the request with status 200 and the body was copied without an error;
    the path is the temp directory joined with the file name of the URL,
    and exactly this path is appended to the list of downloaded files.
    If it returns an error, the asset manager is left as it was: nothing
    is recorded.  In both cases the reference is never looked up in the
    local file system. *)
Theorem resolve_remote_asset `{GoLib} `{Environment}
    (source description : string) (s s' : State) (r : result string) :
  isURL source = true ->
  ResolveAsset source description s = (r, s') ->
  match r with
  | Ok p =>
      p = filepath_Join [tempDir (assetManager s); getFilenameFromURL source]
      /\ getFilenameFromURL source <> ""
      /\ assetManager s'
         = {| tempDir := tempDir (assetManager s);
              downloadedFiles := downloadedFiles (assetManager s) ++ [p] |}
      /\ exists rc rg rb,
           trace s' = trace s ++ [(OpCreate p, rc); (OpHttpGet source, rg);
                                  (OpCopyBody source p, rb)]
           /\ failure rc = None /\ failure rg = None
           /\ statusOK (stdout rg) = true /\ failure rb = None
  | Err e =>
      assetManager s' = assetManager s
      /\ (exists cause,
            e = Errorf ("failed to download " +:+ description +:+ ": " +:+ cause))
      /\ exists evs, trace s' = trace s ++ evs
                     /\ Forall (fun ev => forall path, fst ev <> OpStat path) evs
  end.
Proof.
  intros Hurl E. unfold ResolveAsset in E. rewrite Hurl in E.
  unfold bind at 1, try at 1 in E.
  destruct (download source s) as [[p | e] s1] eqn:Ed.
  - unfold bind, recordDownload, ret in E. injection E as <- <-.
    apply download_Ok in Ed as (Hn & Hp & Hm & rc & rg & rb & T & Hs).
    cbn [trace assetManager]. rewrite Hm.
    repeat split; try assumption. now exists rc, rg, rb.
  - unfold fail in E. injection E as <- <-.
    split; [exact (download_manager _ _ _ _ Ed) |].
    split; [now eexists |].
    assert (A : appends (fun ev => forall path, fst ev <> OpStat path) (download source)).
    { unfold download. cbv zeta. destruct (String.eqb _ ""); [apply appends_fail |].
      apply (appends_state _ (fun s0 => _)). intros s0.
      repeat first [appends_step | discriminate]. }
    exact (A _ _ _ Ed).
Qed.

(** The binary fetched from a server in the local network. *)
Lemma resolve_remote_asset_witness :
  exists s',
    @ResolveAsset sample.lib healthy "http://192.168.1.8:8100/k3s" "k3s binary"
      emptyState = (Ok "/tmp/k3air-assets-1/k3s", s')
    /\ assetManager s'
       = {| tempDir := "/tmp/k3air-assets-1";
            downloadedFiles := ["/tmp/k3air-assets-1/k3s"] |}.
Proof.
  assert (E : @ResolveAsset sample.lib healthy "http://192.168.1.8:8100/k3s"
                "k3s binary" emptyState
              = (Ok "/tmp/k3air-assets-1/k3s",
                 snd (@ResolveAsset sample.lib healthy "http://192.168.1.8:8100/k3s"
                        "k3s binary" emptyState)))
    by (vm_compute; reflexivity).
  eexists. split; [exact E |].
  destruct (@resolve_remote_asset sample.lib healthy "http://192.168.1.8:8100/k3s"
              "k3s binary" emptyState _ _ eq_refl E)
    as (_ & _ & Hm & _).
  exact Hm.
Defined.

(** X12.  An images archive that cannot be resolved (a missing file, a
    failed download) does not fail [uploadAssets]: once the binary is
    resolved, uploaded and made executable, an error of [ResolveAsset]
    for the archive is dropped, no transfer is started for the archive,
    and [uploadAssets] goes on with the registries file: it returns no
    error if none is configured, and the result of that upload
    otherwise. *)
Theorem missing_images_tolerated `{GoLib} `{Environment}
    (i : Installer) (c : Client) (s s1 s4 : State) (p : string) (e : error) :
  let assets := Assets (cfg i) in
  let registries := Registries (cluster (cfg i)) in
  let s2 := after s1 (OpStat p) in
  let s3 := after s2 (OpUpload c p "/usr/local/bin/k3s" true) in
  let s3' := after s3 (OpRun c "chmod +x /usr/local/bin/k3s") in
  ResolveAsset (K3sBinary assets) "k3s binary" s = (Ok p, s1) ->
  failure (answer s2 (OpUpload c p "/usr/local/bin/k3s" true)) = None ->
  failure (answer s3 (OpRun c "chmod +x /usr/local/bin/k3s")) = None ->
  K3sAirgapTarball assets <> "" ->
  ResolveAsset (K3sAirgapTarball assets) "airgap images" s3' = (Err e, s4) ->
  (registries = "" -> uploadAssets i c s = (Ok tt, s4))
  /\ (registries <> "" ->
      uploadAssets i c s
      = sshclient.UploadBytes c registries "/etc/rancher/k3s/registries.yaml" s4).
Proof.
  intros assets registries s2 s3 s3' Hbin Hup Hch Htar Himg.
  assert (U : uploadAssets i c s
              = bind (if nonempty registries
                      then sshclient.UploadBytes c registries
                             "/etc/rancher/k3s/registries.yaml"
                      else ret tt) (fun _ => ret tt) s4).
  { unfold uploadAssets. fold assets registries.
    rewrite (bind_Ok _ _ _ _ _ Hbin).
    rewrite (bind_Ok _ _ _ _ _ (emit_run (OpStat p) s1)). fold s2.
    rewrite (bind_Ok _ _ _ _ _ (Upload_succeeds c p _ true s2 Hup)). fold s3.
    rewrite (bind_Ok _ _ _ _ _ (runCmd_succeeds c _ s3 Hch)). fold s3'.
    apply unit_facts.nonempty_true in Htar. rewrite Htar.
    unfold bind at 1. unfold bind at 1. unfold try at 1. rewrite Himg.
    reflexivity. }
  rewrite U, bind_ret_tt. split.
  - intros ->. reflexivity.
  - intros Hr. apply unit_facts.nonempty_true in Hr. now rewrite Hr.
Qed.

(** The sample cluster on a machine without the images archive. *)
Lemma missing_images_tolerated_witness :
  exists s4,
    @uploadAssets sample.lib noImages oneServerOneAgent (clientOf server1) emptyState
    = (Ok tt, s4)
    /\ map fst (trace s4)
       = [OpStat "k3s"; OpStat "k3s";
          OpUpload (clientOf server1) "k3s" "/usr/local/bin/k3s" true;
          OpRun (clientOf server1) "chmod +x /usr/local/bin/k3s";
          OpStat "k3s-airgap-images-amd64.tar.gz"].
Proof.
  pose (s1 := snd (@ResolveAsset sample.lib noImages "k3s" "k3s binary" emptyState)).
  pose (s3' := @after noImages
                 (@after noImages (@after noImages s1 (OpStat "k3s"))
                    (OpUpload (clientOf server1) "k3s" "/usr/local/bin/k3s" true))
                 (OpRun (clientOf server1) "chmod +x /usr/local/bin/k3s")).
  pose (s4 := snd (@ResolveAsset sample.lib noImages "k3s-airgap-images-amd64.tar.gz"
                     "airgap images" s3')).
  exists s4. split.
  - apply (@missing_images_tolerated sample.lib noImages oneServerOneAgent
             (clientOf server1) emptyState s1 s4 "k3s"
             (Errorf ("airgap images file not found: k3s-airgap-images-amd64.tar.gz"
                      +:+ hintImages))).
    + vm_compute. reflexivity.
    + vm_compute. reflexivity.
    + vm_compute. reflexivity.
    + discriminate.
    + vm_compute. reflexivity.
    + reflexivity.
  - vm_compute. reflexivity.
Defined.
End assets_properties.
(** ** The script of a provisioning sequence *)

Module script_facts.
Import install_facts assets_facts.
Local Open Scope monad_scope.

(** *** Scripts and the events that follow them *)

Lemma remoteEvents_app (a b : list Event) :
  remoteEvents (a ++ b) = remoteEvents a ++ remoteEvents b.
Proof. apply List.filter_app. Qed.

Lemma remoteEvents_local (evs : list Event) :
  Forall (fun ev => remoteOf (fst ev) = None) evs -> remoteEvents evs = [].
Proof.
  induction 1 as [|ev evs Hev _ IH]; [reflexivity |].
  unfold remoteEvents in *. simpl. unfold isRemote at 1. now rewrite Hev.
Qed.

Lemma Forall_removelast {A : Type} (P : A -> Prop) (l : list A) :
  Forall P l -> Forall P (removelast l).
Proof.
  induction 1 as [|x l Hx Hl IH]; [constructor |].
  destruct l as [|y l]; [constructor |].
  change (removelast (x :: y :: l)) with (x :: removelast (y :: l)).
  now constructor.
Qed.

Lemma follows_nil (ops : list Op) : follows ops [].
Proof. split; [now exists ops | constructor]. Qed.

Lemma follows_more (o1 o2 : list Op) (evs : list Event) :
  follows o1 evs -> follows (o1 ++ o2) evs.
Proof.
  intros [[rest ->] F]. split; [| exact F].
  exists (rest ++ o2). now rewrite app_assoc.
Qed.

Lemma completes_follows (ops : list Op) (evs : list Event) :
  completes ops evs -> follows ops evs.
Proof.
  intros [<- F]. split; [exists []; now rewrite app_nil_r | now apply Forall_removelast].
Qed.

Lemma follows_seq (o1 o2 : list Op) (e1 e2 : list Event) :
  completes o1 e1 -> follows o2 e2 -> follows (o1 ++ o2) (e1 ++ e2).
Proof.
  intros [<- F1] [[rest ->] F2]. split.
  - exists rest. now rewrite List.map_app, app_assoc.
  - destruct e2 as [|x e2].
    + rewrite app_nil_r. now apply Forall_removelast.
    + rewrite removelast_app by discriminate. apply Forall_app. now split.
Qed.

Lemma completes_seq (o1 o2 : list Op) (e1 e2 : list Event) :
  completes o1 e1 -> completes o2 e2 -> completes (o1 ++ o2) (e1 ++ e2).
Proof.
  intros [<- F1] [<- F2]. split; [apply List.map_app | apply Forall_app; now split].
Qed.

Lemma played_seq {A B : Type} (td : string) (o1 o2 : list Op)
    (s s1 s' : State) (a : A) (r : result B) :
  played td o1 s (Ok a) s1 -> played td o2 s1 r s' -> played td (o1 ++ o2) s r s'.
Proof.
  intros (_ & e1 & T1 & _ & C1) (Htd & e2 & T2 & F2 & C2).
  specialize (C1 I). split; [exact Htd |].
  exists (e1 ++ e2). split; [now rewrite T2, T1, app_assoc |].
  rewrite remoteEvents_app. split.
  - now apply follows_seq.
  - intros Hr. apply completes_seq; [exact C1 | now apply C2].
Qed.

Lemma played_stop {A B : Type} (td : string) (o1 o2 : list Op)
    (s s' : State) (e : error) :
  played (A := A) td o1 s (Err e) s' -> played (A := B) td (o1 ++ o2) s (Err e) s'.
Proof.
  intros (Htd & e1 & T1 & F1 & _). split; [exact Htd |].
  exists e1. split; [exact T1 |]. split; [now apply follows_more | intros []].
Qed.

(** *** Computations that play a script *)

Lemma plays_ext {A : Type} (td : string) (F G : bool -> list Op) (m : M A) :
  (forall b, F b = G b) -> plays td F m -> plays td G m.
Proof.
  intros E P s r s' Htd Hm. destruct (P s r s' Htd Hm) as [b Hb].
  exists b. now rewrite <- E.
Qed.

Lemma played_none {A : Type} (td : string) (s : State) (r : result A) :
  tempDir (assetManager s) = td -> played td [] s r s.
Proof.
  intros Htd. split; [exact Htd |]. exists []. split; [now rewrite app_nil_r |].
  split; [apply follows_nil | intros _; split; [reflexivity | constructor]].
Qed.

Lemma plays_ret {A : Type} (td : string) (a : A) : plays td (fun _ => []) (ret a).
Proof. intros s r s' Htd E. injection E as <- <-. exists false. now apply played_none. Qed.

Lemma plays_fail {A : Type} (td : string) (e : error) :
  plays td (fun _ => []) (@fail A e).
Proof. intros s r s' Htd E. injection E as <- <-. exists false. now apply played_none. Qed.

Lemma plays_lift {A : Type} (td : string) (x : result A) :
  plays td (fun _ => []) (lift x).
Proof. intros s r s' Htd E. injection E as <- <-. exists false. now apply played_none. Qed.

(** Sequencing, when the first part has one script only. *)
Lemma plays_bind0 {A B : Type} (td : string) (o1 : list Op) (F2 : bool -> list Op)
    (Q : A -> Prop) (m : M A) (k : A -> M B) :
  plays td (fun _ => o1) m ->
  (forall s a s', tempDir (assetManager s) = td -> m s = (Ok a, s') -> Q a) ->
  (forall a, Q a -> plays td F2 (k a)) ->
  plays td (fun b => o1 ++ F2 b) (bind m k).
Proof.
  intros Pm HQ Pk s r s' Htd E. unfold bind in E.
  destruct (m s) as [[a | e] s1] eqn:Em.
  - destruct (Pm _ _ _ Htd Em) as [_ P1].
    destruct (Pk a (HQ _ _ _ Htd Em) _ _ _ (proj1 P1) E) as [b P2].
    exists b. exact (played_seq _ _ _ _ _ _ _ _ P1 P2).
  - injection E as <- <-. destruct (Pm _ _ _ Htd Em) as [_ P1].
    exists false. exact (played_stop (A := A) _ _ _ _ _ _ P1).
Qed.

(** Sequencing, when the second part has one script only. *)
Lemma plays_bind1 {A B : Type} (td : string) (F1 : bool -> list Op) (o2 : list Op)
    (m : M A) (k : A -> M B) :
  plays td F1 m ->
  (forall a, plays td (fun _ => o2) (k a)) ->
  plays td (fun b => F1 b ++ o2) (bind m k).
Proof.
  intros Pm Pk s r s' Htd E. unfold bind in E.
  destruct (m s) as [[a | e] s1] eqn:Em.
  - destruct (Pm _ _ _ Htd Em) as [b P1].
    destruct (Pk a _ _ _ (proj1 P1) E) as [_ P2].
    exists b. exact (played_seq _ _ _ _ _ _ _ _ P1 P2).
  - injection E as <- <-. destruct (Pm _ _ _ Htd Em) as [b P1].
    exists b. exact (played_stop (A := A) _ _ _ _ _ _ P1).
Qed.

Lemma plays_seq {A B : Type} (td : string) (o1 : list Op) (F2 : bool -> list Op)
    (m : M A) (k : A -> M B) :
  plays td (fun _ => o1) m ->
  (forall a, plays td F2 (k a)) ->
  plays td (fun b => o1 ++ F2 b) (bind m k).
Proof.
  intros Pm Pk. apply (plays_bind0 td o1 F2 (fun _ => True)); auto.
Qed.

Lemma plays0_bind {A B : Type} (td : string) (o1 o2 : list Op)
    (Q : A -> Prop) (m : M A) (k : A -> M B) :
  plays td (fun _ => o1) m ->
  (forall s a s', tempDir (assetManager s) = td -> m s = (Ok a, s') -> Q a) ->
  (forall a, Q a -> plays td (fun _ => o2) (k a)) ->
  plays td (fun _ => o1 ++ o2) (bind m k).
Proof. intros Pm HQ Pk. exact (plays_bind0 td o1 (fun _ => o2) Q m k Pm HQ Pk). Qed.

Lemma plays0_seq {A B : Type} (td : string) (o1 o2 : list Op)
    (m : M A) (k : A -> M B) :
  plays td (fun _ => o1) m ->
  (forall a, plays td (fun _ => o2) (k a)) ->
  plays td (fun _ => o1 ++ o2) (bind m k).
Proof. intros Pm Pk. exact (plays_seq td o1 (fun _ => o2) m k Pm Pk). Qed.

Lemma bind_cases {A B : Type} (m : M A) (k : A -> M B) (s s' : State) (r : result B) :
  bind m k s = (r, s') ->
  (exists a s1, m s = (Ok a, s1) /\ k a s1 = (r, s'))
  \/ (exists e, m s = (Err e, s') /\ r = Err e).
Proof.
  unfold bind. destruct (m s) as [[a | e] s1]; intros E.
  - left. now exists a, s1.
  - right. injection E as <- <-. now exists e.
Qed.

Section WithEnv.
Context `{GoLib} `{Environment}.

(** One command or transfer whose error the caller returns. *)
Lemma played_one {A : Type} (td : string) (op : Op) (s : State) (r : result A) :
  remoteOf op <> None ->
  (isOk r -> failure (answer s op) = None) ->
  tempDir (assetManager s) = td ->
  played td [op] s r (after s op).
Proof.
  intros Hop Hr Htd. split; [exact Htd |].
  exists [(op, answer s op)]. split; [reflexivity |].
  assert (R : remoteEvents [(op, answer s op)] = [(op, answer s op)]).
  { unfold remoteEvents. simpl. unfold isRemote. simpl.
    destruct (remoteOf op); [reflexivity | congruence]. }
  rewrite R. split.
  - split; [now exists [] | constructor].
  - intros Ok. split; [reflexivity |]. repeat constructor. now apply Hr.
Qed.

Lemma plays_runCmd (td : string) (c : Client) (cmd : string) :
  plays td (fun _ => [OpRun c cmd]) (runCmd c cmd).
Proof.
  intros s r s' Htd E. exists false.
  unfold runCmd, sshclient.Run, bind, ask, ret, fail in E.
  fold (answer s (OpRun c cmd)) in E. fold (after s (OpRun c cmd)) in E.
  destruct (failure (answer s (OpRun c cmd))) eqn:Ef; injection E as <- <-;
    apply played_one; try assumption; try discriminate; auto; intros [].
Qed.

Lemma plays_Upload (td : string) (c : Client) (l p : string) (g : bool) :
  plays td (fun _ => [OpUpload c l p g]) (sshclient.Upload c l p g).
Proof.
  intros s r s' Htd E. exists false.
  unfold sshclient.Upload, bind, ask, check, ret, fail in E.
  fold (answer s (OpUpload c l p g)) in E. fold (after s (OpUpload c l p g)) in E.
  destruct (failure (answer s (OpUpload c l p g))) eqn:Ef; injection E as <- <-;
    apply played_one; try assumption; try discriminate; auto; intros [].
Qed.

Lemma plays_UploadBytes (td : string) (c : Client) (data p : string) :
  plays td (fun _ => [OpUploadBytes c data p]) (sshclient.UploadBytes c data p).
Proof.
  intros s r s' Htd E. exists false.
  unfold sshclient.UploadBytes, bind, ask, check, ret, fail in E.
  fold (answer s (OpUploadBytes c data p)) in E.
  fold (after s (OpUploadBytes c data p)) in E.
  destruct (failure (answer s (OpUploadBytes c data p))) eqn:Ef; injection E as <- <-;
    apply played_one; try assumption; try discriminate; auto; intros [].
Qed.

(** A computation that works on the local machine and the network only
    and keeps the temp directory plays the empty script. *)
Lemma plays_local {A : Type} (td : string) (m : M A) :
  appends (fun ev => remoteOf (fst ev) = None) m ->
  (forall s r s', m s = (r, s') ->
     tempDir (assetManager s') = tempDir (assetManager s)) ->
  plays td (fun _ => []) m.
Proof.
  intros Hm Ht s r s' Htd E. exists false.
  destruct (Hm _ _ _ E) as (evs & T & F).
  split; [now rewrite (Ht _ _ _ E) |].
  exists evs. split; [exact T |]. rewrite (remoteEvents_local _ F).
  split; [apply follows_nil | intros _; split; [reflexivity | constructor]].
Qed.

Lemma plays_emit_local (td : string) (op : Op) :
  remoteOf op = None -> plays td (fun _ => []) (emit op).
Proof.
  intros Hop. apply plays_local.
  - apply appends_emit. intros r. exact Hop.
  - intros s r s' E. injection E as _ <-. reflexivity.
Qed.

Lemma ResolveAsset_local (source description : string) :
  appends (fun ev => remoteOf (fst ev) = None) (ResolveAsset source description).
Proof.
  unfold ResolveAsset. destruct (isURL source).
  - apply appends_bind.
    + apply appends_try. unfold download. cbv zeta.
      destruct (String.eqb _ ""); [apply appends_fail |].
      apply (appends_state _ (fun s0 => _)). intros s0.
      repeat first [appends_step | reflexivity].
    + intros r. repeat first [appends_step | reflexivity].
  - repeat first [appends_step | reflexivity].
Qed.

Lemma ResolveAsset_tempDir (source description : string) (s s' : State)
    (r : result string) :
  ResolveAsset source description s = (r, s') ->
  tempDir (assetManager s') = tempDir (assetManager s).
Proof.
  unfold ResolveAsset. destruct (isURL source).
  - unfold bind at 1, try at 1.
    destruct (download source s) as [[p | e] s1] eqn:Ed;
      apply download_manager in Ed.
    + unfold bind, recordDownload, ret. intros E. injection E as _ <-.
      cbn [assetManager tempDir]. now rewrite Ed.
    + unfold fail. intros E. injection E as _ <-. now rewrite Ed.
  - unfold bind, ask, ret, fail.
    destruct (failure _) as [e|]; [destruct (IsNotExist e) |];
      intros E; injection E as _ <-; reflexivity.
Qed.

Lemma plays_ResolveAsset (td source description : string) :
  plays td (fun _ => []) (ResolveAsset source description).
Proof.
  apply plays_local; [apply ResolveAsset_local |].
  intros s r s'. apply ResolveAsset_tempDir.
Qed.

(** The path that [ResolveAsset] returns. *)
Lemma ResolveAsset_path (td source description p : string) (s s' : State) :
  tempDir (assetManager s) = td ->
  ResolveAsset source description s = (Ok p, s') ->
  p = assetPath td source.
Proof.
  intros Htd. unfold ResolveAsset, assetPath. destruct (isURL source).
  - unfold bind at 1, try at 1.
    destruct (download source s) as [[q | e] s1] eqn:Ed; [| discriminate].
    apply download_Ok in Ed as (_ & Hq & _).
    unfold bind, recordDownload, ret. intros E. injection E as <- _.
    now rewrite <- Htd.
  - unfold bind, ask, ret, fail.
    destruct (failure _) as [e|]; [destruct (IsNotExist e); discriminate |].
    intros E. now injection E as <- _.
Qed.

(** *** The parts of a provisioning sequence *)

Lemma plays_prepareNode (td : string) (i : Installer) (c : Client) :
  plays td
    (fun _ => [ OpRun c "mkdir -p /usr/local/bin";
                OpRun c ("mkdir -p "
                         +:+ filepath_Join [DataDir (cluster (cfg i)); "agent"; "images"]);
                OpRun c "mkdir -p /etc/rancher/k3s" ])
    (prepareNode i c).
Proof.
  unfold prepareNode. cbv zeta.
  eapply plays_ext; cycle 1.
  - repeat (eapply plays0_seq; [apply plays_runCmd | intros ?]). apply plays_ret.
  - intros b. reflexivity.
Qed.

Lemma played_quiet {A B : Type} (td : string) (s s' : State)
    (r : result A) (r' : result B) :
  played td [] s r s' -> played td [] s r' s'.
Proof.
  intros (Htd & evs & T & F & _). split; [exact Htd |].
  exists evs. split; [exact T |]. split; [exact F |]. intros _.
  destruct F as [[rest E] _]. symmetry in E. apply app_eq_nil in E as [E _].
  apply map_eq_nil in E. rewrite E. split; [reflexivity | constructor].
Qed.

(** The step for the images archive: the archive is sent if and only if
    it is configured and resolved. *)
Lemma plays_images (td : string) (i : Installer) (c : Client) :
  plays td
    (fun b => if b
              then [ OpUpload c (assetPath td (K3sAirgapTarball (Assets (cfg i))))
                       (filepath_Join [DataDir (cluster (cfg i)); "agent"; "images";
                                       "k3s-airgap-images-amd64.tar.gz"]) true ]
              else [])
    (if nonempty (K3sAirgapTarball (Assets (cfg i))) then
       r <- try (ResolveAsset (K3sAirgapTarball (Assets (cfg i))) "airgap images") ;;
       match r with
       | Err _ => ret tt
       | Ok imgPath =>
           let tarballPath :=
             filepath_Join [DataDir (cluster (cfg i)); "agent"; "images";
                            "k3s-airgap-images-amd64.tar.gz"] in
           emit (OpStat imgPath) ;;
           sshclient.Upload c imgPath tarballPath true
       end
     else ret tt).
Proof.
  intros s r s' Htd E.
  destruct (nonempty _).
  - unfold bind at 1, try at 1 in E.
    destruct (ResolveAsset _ _ s) as [[p | e] s1] eqn:Er.
    + exists true.
      destruct (plays_ResolveAsset td _ _ _ _ _ Htd Er) as [_ P1].
      rewrite (ResolveAsset_path _ _ _ _ _ _ Htd Er) in E. cbv zeta in E.
      assert (P2 : plays td (fun _ => [] ++ [OpUpload c
                     (assetPath td (K3sAirgapTarball (Assets (cfg i))))
                     (filepath_Join [DataDir (cluster (cfg i)); "agent"; "images";
                                     "k3s-airgap-images-amd64.tar.gz"]) true])
                     (emit (OpStat (assetPath td (K3sAirgapTarball (Assets (cfg i))))) ;;
                      sshclient.Upload c
                        (assetPath td (K3sAirgapTarball (Assets (cfg i))))
                        (filepath_Join [DataDir (cluster (cfg i)); "agent"; "images";
                                        "k3s-airgap-images-amd64.tar.gz"]) true)).
      { apply plays0_seq; [now apply plays_emit_local | intros _; apply plays_Upload]. }
      destruct (P2 _ _ _ (proj1 P1) E) as [_ P3].
      exact (played_seq _ _ _ _ _ _ _ _ P1 P3).
    + exists false. injection E as <- <-.
      destruct (plays_ResolveAsset td _ _ _ _ _ Htd Er) as [_ P1].
      exact (played_quiet _ _ _ _ _ P1).
  - exists false. injection E as <- <-. now apply played_none.
Qed.

Lemma plays_registries (td : string) (i : Installer) (c : Client) :
  plays td
    (fun _ => if nonempty (Registries (cluster (cfg i)))
              then [ OpUploadBytes c (Registries (cluster (cfg i)))
                       "/etc/rancher/k3s/registries.yaml" ]
              else [])
    (if nonempty (Registries (cluster (cfg i))) then
       sshclient.UploadBytes c (Registries (cluster (cfg i)))
         "/etc/rancher/k3s/registries.yaml"
     else ret tt).
Proof. destruct (nonempty _); [apply plays_UploadBytes | apply plays_ret]. Qed.

Lemma plays_uploadAssets (td : string) (i : Installer) (c : Client) :
  plays td
    (fun b =>
       [ OpUpload c (assetPath td (K3sBinary (Assets (cfg i)))) "/usr/local/bin/k3s" true;
         OpRun c "chmod +x /usr/local/bin/k3s" ]
       ++ (if b
           then [ OpUpload c (assetPath td (K3sAirgapTarball (Assets (cfg i))))
                    (filepath_Join [DataDir (cluster (cfg i)); "agent"; "images";
                                    "k3s-airgap-images-amd64.tar.gz"]) true ]
           else [])
       ++ (if nonempty (Registries (cluster (cfg i)))
           then [ OpUploadBytes c (Registries (cluster (cfg i)))
                    "/etc/rancher/k3s/registries.yaml" ]
           else []))
    (uploadAssets i c).
Proof.
  unfold uploadAssets.
  eapply plays_ext; cycle 1.
  - eapply (plays_bind0 td _ _ (fun p => p = assetPath td (K3sBinary (Assets (cfg i))))).
    + apply plays_ResolveAsset.
    + intros s p s' Htd E. exact (ResolveAsset_path _ _ _ _ _ _ Htd E).
    + intros p ->.
      eapply plays_seq; [now apply plays_emit_local | intros _].
      eapply plays_seq; [apply plays_Upload | intros _].
      eapply plays_seq; [apply plays_runCmd | intros _].
      eapply plays_bind1; [apply plays_images | intros _].
      eapply plays0_seq; [apply plays_registries | intros _].
      apply plays_ret.
  - intros b. cbn [app]. now rewrite app_nil_r.
Qed.

Lemma lift_Ok {A : Type} (x : result A) (s s' : State) (a : A) :
  lift x s = (Ok a, s') -> x = Ok a.
Proof. intros E. now injection E as -> _. Qed.

(** The steps behind [uploadAssets]. *)
Lemma plays_finish (td : string) (i : Installer) (primaryIP : string) (t : Target) :
  let c := clientOf (nodeOf t) in
  plays td
    (fun _ => [ OpUploadBytes c (uninstallText i t) "/usr/local/bin/k3s-uninstall.sh";
                OpRun c "chmod +x /usr/local/bin/k3s-uninstall.sh";
                OpUploadBytes c (unitText i primaryIP t) (unitPath t);
                OpRun c "systemctl daemon-reload";
                OpRun c ("systemctl enable " +:+ serviceName t);
                OpRun c ("systemctl restart " +:+ serviceName t) ]
              ++ match t with
                 | ServerAt _ _ =>
                     [ OpRun c "cp /usr/local/bin/k3s /usr/local/bin/kubectl -f" ]
                 | AgentOf _ => []
                 end)
    match t with
    | ServerAt idx node =>
        uninstallScript <- lift (uninstallScriptContent i) ;;
        sshclient.UploadBytes c uninstallScript "/usr/local/bin/k3s-uninstall.sh" ;;
        runCmd c "chmod +x /usr/local/bin/k3s-uninstall.sh" ;;
        sshclient.UploadBytes c (serverServiceContent i node primaryIP (idx =? 0)%nat)
          "/etc/systemd/system/k3s.service" ;;
        runCmd c "systemctl daemon-reload" ;;
        runCmd c "systemctl enable k3s" ;;
        runCmd c "systemctl restart k3s" ;;
        emit (OpSleep 2) ;;
        runCmd c "cp /usr/local/bin/k3s /usr/local/bin/kubectl -f" ;;
        ret tt
    | AgentOf node =>
        agentUninstallScript <- lift (agentUninstallScriptContent i) ;;
        sshclient.UploadBytes c agentUninstallScript "/usr/local/bin/k3s-uninstall.sh" ;;
        runCmd c "chmod +x /usr/local/bin/k3s-uninstall.sh" ;;
        sshclient.UploadBytes c (agentServiceContent i node primaryIP)
          "/etc/systemd/system/k3s-agent.service" ;;
        runCmd c "systemctl daemon-reload" ;;
        runCmd c "systemctl enable k3s-agent" ;;
        runCmd c "systemctl restart k3s-agent" ;;
        emit (OpSleep 2) ;;
        ret tt
    end.
Proof.
  intros c. destruct t as [idx node | node]; cbn [nodeOf] in c.
  - eapply plays_ext; cycle 1.
    + eapply (plays0_bind td _ _
                (fun a => a = uninstallText i (ServerAt idx node))).
      * apply plays_lift.
      * intros s a s' _ E. apply lift_Ok in E. unfold uninstallText.
        unfold uninstallScriptContent in E. now rewrite E.
      * intros a ->.
        eapply plays0_seq; [apply plays_UploadBytes | intros _].
        eapply plays0_seq; [apply plays_runCmd | intros _].
        eapply plays0_seq; [apply plays_UploadBytes | intros _].
        eapply plays0_seq; [apply plays_runCmd | intros _].
        eapply plays0_seq; [apply plays_runCmd | intros _].
        eapply plays0_seq; [apply plays_runCmd | intros _].
        eapply plays0_seq; [now apply plays_emit_local | intros _].
        eapply plays0_seq; [apply plays_runCmd | intros _].
        apply plays_ret.
    + intros b. reflexivity.
  - eapply plays_ext; cycle 1.
    + eapply (plays0_bind td _ _
                (fun a => a = uninstallText i (AgentOf node))).
      * apply plays_lift.
      * intros s a s' _ E. apply lift_Ok in E. unfold uninstallText.
        unfold agentUninstallScriptContent in E. now rewrite E.
      * intros a ->.
        eapply plays0_seq; [apply plays_UploadBytes | intros _].
        eapply plays0_seq; [apply plays_runCmd | intros _].
        eapply plays0_seq; [apply plays_UploadBytes | intros _].
        eapply plays0_seq; [apply plays_runCmd | intros _].
        eapply plays0_seq; [apply plays_runCmd | intros _].
        eapply plays0_seq; [apply plays_runCmd | intros _].
        eapply plays0_seq; [now apply plays_emit_local | intros _].
        apply plays_ret.
    + intros b. reflexivity.
Qed.

(** The body of a provisioning sequence plays the script of its
    target. *)
Lemma plays_server_body (td : string) (i : Installer) (primaryIP : string)
    (idx : nat) (node : Node) :
  let c := clientOf node in
  plays td (script i primaryIP (ServerAt idx node) td)
    (prepareNode i c ;;
     uploadAssets i c ;;
     uninstallScript <- lift (uninstallScriptContent i) ;;
     sshclient.UploadBytes c uninstallScript "/usr/local/bin/k3s-uninstall.sh" ;;
     runCmd c "chmod +x /usr/local/bin/k3s-uninstall.sh" ;;
     sshclient.UploadBytes c (serverServiceContent i node primaryIP (idx =? 0)%nat)
       "/etc/systemd/system/k3s.service" ;;
     runCmd c "systemctl daemon-reload" ;;
     runCmd c "systemctl enable k3s" ;;
     runCmd c "systemctl restart k3s" ;;
     emit (OpSleep 2) ;;
     runCmd c "cp /usr/local/bin/k3s /usr/local/bin/kubectl -f" ;;
     ret tt).
Proof.
  intros c. eapply plays_ext; cycle 1.
  - eapply plays_seq; [apply plays_prepareNode | intros _].
    eapply plays_bind1; [apply plays_uploadAssets | intros _].
    exact (plays_finish td i primaryIP (ServerAt idx node)).
  - intros b. unfold script. cbn [nodeOf]. fold c.
    cbn [app]. rewrite <- !app_assoc. reflexivity.
Qed.

Lemma plays_agent_body (td : string) (i : Installer) (primaryIP : string)
    (node : Node) :
  let c := clientOf node in
  plays td (script i primaryIP (AgentOf node) td)
    (prepareNode i c ;;
     uploadAssets i c ;;
     agentUninstallScript <- lift (agentUninstallScriptContent i) ;;
     sshclient.UploadBytes c agentUninstallScript "/usr/local/bin/k3s-uninstall.sh" ;;
     runCmd c "chmod +x /usr/local/bin/k3s-uninstall.sh" ;;
     sshclient.UploadBytes c (agentServiceContent i node primaryIP)
       "/etc/systemd/system/k3s-agent.service" ;;
     runCmd c "systemctl daemon-reload" ;;
     runCmd c "systemctl enable k3s-agent" ;;
     runCmd c "systemctl restart k3s-agent" ;;
     emit (OpSleep 2) ;;
     ret tt).
Proof.
  intros c. eapply plays_ext; cycle 1.
  - eapply plays_seq; [apply plays_prepareNode | intros _].
    eapply plays_bind1; [apply plays_uploadAssets | intros _].
    exact (plays_finish td i primaryIP (AgentOf node)).
  - intros b. unfold script. cbn [nodeOf]. fold c.
    cbn [app]. rewrite <- !app_assoc. reflexivity.
Qed.

(** A session: the dial, and if it is accepted the body and the close. *)
Lemma session_played {A : Type} (td : string) (F : bool -> list Op) (node : Node)
    (body : Client -> M A) (s s' : State) (r : result A) :
  plays td F (body (clientOf node)) ->
  tempDir (assetManager s) = td ->
  bind (sshclient.New (IP node) (Port node)
          (if String.eqb (User node) "" then "root" else User node)
          {| sshclient.Password := Password node;
             sshclient.KeyPath := KeyPath node |})
    (fun c => defer (sshclient.Close c) (body c)) s = (r, s') ->
  (exists rd e, failure rd = Some e /\ r = Err e
                /\ trace s' = trace s ++ [(dialOf node, rd)])
  \/ (exists rd rc evs b,
        failure rd = None
        /\ trace s' = trace s ++ (dialOf node, rd) :: evs
                               ++ [(OpClose (clientOf node), rc)]
        /\ follows (F b) (remoteEvents evs)
        /\ (isOk r -> completes (F b) (remoteEvents evs))).
Proof.
  intros Pb Htd E. apply bind_cases in E as [(c & s1 & En & E) | (e & En & ->)];
    rewrite New_run in En;
    destruct (failure (answer s (dialOf node))) as [e'|] eqn:Ed;
    try discriminate.
  - injection En as <- <-. unfold defer in E.
    destruct (body (clientOf node) (after s (dialOf node))) as [x s2] eqn:Eb.
    injection E as -> <-.
    assert (Htd1 : tempDir (assetManager (after s (dialOf node))) = td) by exact Htd.
    destruct (Pb _ _ _ Htd1 Eb) as (b & _ & evs & T & Fo & Co).
    right. exists (answer s (dialOf node)),
             (answer s2 (OpClose (clientOf node))), evs, b.
    split; [exact Ed |]. split; [| split; assumption].
    unfold sshclient.Close, emit, bind, ask, ret. cbn [snd trace].
    fold (answer s2 (OpClose (clientOf node))). rewrite T.
    cbn [after trace]. now rewrite <- !app_assoc.
  - injection En as <- <-. left.
    now exists (answer s (dialOf node)), e'.
Qed.

(** The two sequences as sessions with a script. *)
Lemma provision_played (i : Installer) (primaryIP : string) (t : Target)
    (s s' : State) (r : result unit) :
  provision i primaryIP t s = (r, s') ->
  let node := nodeOf t in
  let td := tempDir (assetManager s) in
  (exists rd e, failure rd = Some e /\ r = Err e
                /\ trace s' = trace s ++ [(dialOf node, rd)])
  \/ (exists rd rc evs images,
        failure rd = None
        /\ trace s' = trace s ++ (dialOf node, rd) :: evs
                               ++ [(OpClose (clientOf node), rc)]
        /\ follows (script i primaryIP t td images) (remoteEvents evs)
        /\ (isOk r -> completes (script i primaryIP t td images) (remoteEvents evs))).
Proof.
  intros E node td.
  destruct t as [idx n | n]; cbn [provision] in E.
  - unfold installServer in E. cbv zeta in E.
    exact (session_played td _ n _ s s' r
             (plays_server_body td i primaryIP idx n) eq_refl E).
  - unfold installAgent in E. cbv zeta in E.
    exact (session_played td _ n _ s s' r
             (plays_agent_body td i primaryIP n) eq_refl E).
Qed.
End WithEnv.
End script_facts.

Module script_properties.
Import install_facts assets_facts script_facts.
Local Open Scope monad_scope.

(** X13.  The provisioning of a node begins with the dial; if the dial
    is refused it returns that error and does nothing else.  Otherwise
    the dial is followed by the events [evs] of the sequence and then by
    the close of the session.  The commands and transfers among [evs]
    are the first operations of the script of the node, in the order of
    the script; every one of them except possibly the last succeeded, so
    nothing is sent to the node after a failed command or transfer; and
    if the provisioning returns no error, the whole script was performed
    and every operation of it succeeded.  The script sends the images
    archive only if it was resolved ([images]). *)
Theorem provision_script `{GoLib} `{Environment} (i : Installer) (primaryIP : string)
    (t : Target) (s s' : State) (r : result unit) :
  provision i primaryIP t s = (r, s') ->
  let node := nodeOf t in
  let td := tempDir (assetManager s) in
  (exists rd e, failure rd = Some e /\ r = Err e
                /\ trace s' = trace s ++ [(dialOf node, rd)])
  \/ (exists rd rc evs images,
        failure rd = None
        /\ trace s' = trace s ++ (dialOf node, rd) :: evs
                               ++ [(OpClose (clientOf node), rc)]
        /\ follows (script i primaryIP t td images) (remoteEvents evs)
        /\ (r = Ok tt ->
            completes (script i primaryIP t td images) (remoteEvents evs))).
Proof.
  intros E node td.
  destruct (provision_played i primaryIP t s s' r E)
    as [G | (rd & rc & evs & b & Hd & Ht & Hf & Hc)]; [now left | right].
  exists rd, rc, evs, b.
  split; [exact Hd |]. split; [exact Ht |]. split; [exact Hf |].
  intros ->. apply Hc. exact I.
Qed.

(** The first server of the sample cluster in a world without failures:
    the whole script is performed. *)
Lemma provision_script_witness :
  exists rd rc evs images,
    trace (snd (@provision sample.lib healthy oneServerOneAgent "192.168.1.11"
                  (ServerAt 0 server1) emptyState))
    = (dialOf server1, rd) :: evs ++ [(OpClose (clientOf server1), rc)]
    /\ completes
         (@script sample.lib oneServerOneAgent "192.168.1.11" (ServerAt 0 server1)
            "/tmp/k3air-assets-1" images)
         (remoteEvents evs).
Proof.
  assert (E : @provision sample.lib healthy oneServerOneAgent "192.168.1.11"
                (ServerAt 0 server1) emptyState
              = (Ok tt,
                 snd (@provision sample.lib healthy oneServerOneAgent "192.168.1.11"
                        (ServerAt 0 server1) emptyState)))
    by (vm_compute; reflexivity).
  destruct (@provision_script sample.lib healthy oneServerOneAgent "192.168.1.11"
              (ServerAt 0 server1) emptyState _ _ E)
    as [(rd & e & _ & Hr & _) | (rd & rc & evs & images & _ & T & _ & C)];
    [discriminate Hr |].
  exists rd, rc, evs, images. split; [exact T | exact (C eq_refl)].
Defined.
End script_properties.
(** ** Sessions, unit files and local files of a run *)

Module runs_facts.
Import install_facts assets_facts script_facts.
Local Open Scope monad_scope.

Ltac unfold_steps :=
  unfold installServer, installAgent, downloadKubeconfig, showClusterInfo,
    prepareNode, uploadAssets, ResolveAsset, download, runCmd,
    uninstallScriptContent, agentUninstallScriptContent,
    sshclient.New, sshclient.Close, sshclient.Run, sshclient.Upload,
    sshclient.UploadBytes, sshclient.DownloadBytes;
  cbv zeta.

(** A proof that a computation only adds events of one kind, given a
    tactic for the single operations. *)
Ltac appends_by leaf :=
  repeat first
    [ appends_step
    | match goal with
      | |- appends _ (fun s => _) => apply (appends_state _ (fun s0 => _)); intros ?
      end
    | leaf ].

Lemma Sessions_app (a b : list Event) : Sessions a -> Sessions b -> Sessions (a ++ b).
Proof.
  intros Sa Sb. induction Sa as [| h p u pw k r rest Hr _ IH
                                 | h p u pw k r rc body rest Hr Hb _ IH].
  - exact Sb.
  - simpl. now constructor.
  - simpl. rewrite <- app_assoc. simpl. now constructor.
Qed.

Lemma within_local (c : Client) (ev : Event) :
  remoteOf (fst ev) = None -> within c ev.
Proof. unfold within. destruct (fst ev); simpl; intros E; try discriminate; exact I. Qed.

Lemma In_remoteEvents (ev : Event) (evs : list Event) :
  In ev evs -> remoteOf (fst ev) <> None -> In ev (remoteEvents evs).
Proof.
  intros Hin Hr. apply List.filter_In. split; [exact Hin |].
  unfold isRemote. destruct (remoteOf (fst ev)); [reflexivity | congruence].
Qed.

(** Every event of a run whose remote events follow a script is local or
    an operation of the script. *)
Lemma follows_alphabet (ops : list Op) (evs : list Event) (P : Event -> Prop) :
  follows ops (remoteEvents evs) ->
  (forall ev, remoteOf (fst ev) = None -> P ev) ->
  (forall ev, In (fst ev) ops -> P ev) ->
  Forall P evs.
Proof.
  intros [[rest E] _] Hl Ho. apply List.Forall_forall. intros ev Hin.
  destruct (remoteOf (fst ev)) eqn:Er; [| now apply Hl].
  apply Ho. rewrite E. apply in_or_app. left. apply List.in_map.
  apply In_remoteEvents; [exact Hin | congruence].
Qed.

Section WithEnv.
Context `{GoLib} `{Environment}.

Lemma script_within (i : Installer) (primaryIP : string) (t : Target)
    (td : string) (b : bool) (ev : Event) :
  In (fst ev) (script i primaryIP t td b) -> within (clientOf (nodeOf t)) ev.
Proof.
  unfold script, within. cbv zeta. intros Hin.
  repeat (apply in_app_or in Hin as [Hin | Hin]);
    repeat match type of Hin with
           | In _ (if ?x then _ else _) => destruct x
           | In _ (match ?x with _ => _ end) => destruct x
           end;
    simpl in Hin;
    repeat (destruct Hin as [<- | Hin]; [reflexivity |]); destruct Hin.
Qed.

(** *** Sessions *)

Lemma inSessions_ret {A : Type} (a : A) : inSessions (ret a).
Proof.
  intros s r s' E. injection E as <- <-. exists [].
  split; [now rewrite app_nil_r | constructor].
Qed.

Lemma inSessions_fail {A : Type} (e : error) : inSessions (@fail A e).
Proof.
  intros s r s' E. injection E as <- <-. exists [].
  split; [now rewrite app_nil_r | constructor].
Qed.

Lemma inSessions_bind {A B : Type} (m : M A) (k : A -> M B) :
  inSessions m -> (forall a, inSessions (k a)) -> inSessions (bind m k).
Proof.
  intros Hm Hk s r s' E. apply bind_cases in E as [(a & s1 & Em & Ek) | (e & Em & ->)].
  - destruct (Hm _ _ _ Em) as (e1 & T1 & S1).
    destruct (Hk a _ _ _ Ek) as (e2 & T2 & S2).
    exists (e1 ++ e2). split; [now rewrite T2, T1, app_assoc | now apply Sessions_app].
  - exact (Hm _ _ _ Em).
Qed.

Lemma inSessions_try {A : Type} (m : M A) : inSessions m -> inSessions (try m).
Proof.
  intros Hm s r s' E. unfold try in E. destruct (m s) as [x s1] eqn:Em.
  injection E as <- <-. exact (Hm _ _ _ Em).
Qed.

Lemma inSessions_provision (i : Installer) (primaryIP : string) (t : Target) :
  inSessions (provision i primaryIP t).
Proof.
  intros s r s' E.
  destruct (provision_played i primaryIP t s s' r E)
    as [(rd & e & Hd & _ & T) | (rd & rc & evs & b & Hd & T & Hf & _)].
  - exists [(dialOf (nodeOf t), rd)]. split; [exact T |].
    apply Sessions_refused; [rewrite Hd; discriminate | constructor].
  - exists ((dialOf (nodeOf t), rd) :: evs ++ [(OpClose (clientOf (nodeOf t)), rc)]).
    split; [exact T |].
    apply (Sessions_held (IP (nodeOf t)) (Port (nodeOf t))); [exact Hd | | constructor].
    eapply follows_alphabet; [exact Hf | apply within_local |].
    intros ev. apply script_within.
Qed.

Lemma inSessions_provisionAll (i : Installer) (primaryIP : string) (ts : list Target) :
  inSessions (provisionAll i primaryIP ts).
Proof.
  induction ts as [|t ts IH]; [apply inSessions_ret |].
  cbn [provisionAll]. apply inSessions_bind; [apply inSessions_provision | now intros _].
Qed.

(** A session whose body stays within it. *)
Lemma session_within {A : Type} (node : Node) (body : Client -> M A) :
  appends (within (clientOf node)) (body (clientOf node)) ->
  inSessions
    (bind (sshclient.New (IP node) (Port node)
             (if String.eqb (User node) "" then "root" else User node)
             {| sshclient.Password := Password node;
                sshclient.KeyPath := KeyPath node |})
       (fun c => defer (sshclient.Close c) (body c))).
Proof.
  intros Hb s r s' E.
  apply bind_cases in E as [(c & s1 & En & E) | (e & En & ->)];
    rewrite New_run in En;
    destruct (failure (answer s (dialOf node))) as [e'|] eqn:Ed;
    try discriminate.
  - injection En as <- <-. unfold defer in E.
    destruct (body (clientOf node) (after s (dialOf node))) as [x s2] eqn:Eb.
    injection E as -> <-.
    destruct (Hb _ _ _ Eb) as (evs & T & F).
    exists ((dialOf node, answer s (dialOf node)) :: evs
            ++ [(OpClose (clientOf node), answer s2 (OpClose (clientOf node)))]).
    split.
    + unfold sshclient.Close, emit, bind, ask, ret. cbn [snd trace].
      fold (answer s2 (OpClose (clientOf node))). rewrite T.
      cbn [after trace]. now rewrite <- !app_assoc.
    + apply (Sessions_held (IP node) (Port node)); [exact Ed | exact F | constructor].
  - injection En as <- <-.
    exists [(dialOf node, answer s (dialOf node))]. split; [reflexivity |].
    apply Sessions_refused; [rewrite Ed; discriminate | constructor].
Qed.

Lemma inSessions_downloadKubeconfig (i : Installer) (master : Node) :
  inSessions (downloadKubeconfig i master).
Proof.
  unfold downloadKubeconfig. cbv zeta.
  apply (session_within master (fun c => _)).
  unfold sshclient.DownloadBytes.
  appends_by ltac:(first [reflexivity | exact I]).
Qed.

Lemma inSessions_showClusterInfo (i : Installer) (master : Node) :
  inSessions (showClusterInfo i master).
Proof.
  intros s r s' E. unfold showClusterInfo in E. cbv zeta in E.
  unfold bind at 1, try at 1 in E. rewrite New_run in E.
  destruct (failure (answer s (dialOf master))) as [e'|] eqn:Ed.
  - injection E as <- <-.
    exists [(dialOf master, answer s (dialOf master))]. split; [reflexivity |].
    apply Sessions_refused; [rewrite Ed; discriminate | constructor].
  - unfold defer in E.
    match type of E with
    | (let (_, _) := ?b ?s1 in _) = _ => destruct (b s1) as [x s2] eqn:Eb
    end.
    injection E as <- <-.
    assert (A : appends (within (clientOf master))
                  (r0 <- try (runCmd (clientOf master) "kubectl get nodes") ;;
                   match r0 with
                   | Err _ => ret tt
                   | Ok _ => _ <- sshclient.Run (clientOf master) "kubectl get nodes" ;;
                             ret tt
                   end)).
    { unfold runCmd, sshclient.Run.
      appends_by ltac:(first [reflexivity | exact I]). }
    destruct (A _ _ _ Eb) as (evs & T & F).
    exists ((dialOf master, answer s (dialOf master)) :: evs
            ++ [(OpClose (clientOf master), answer s2 (OpClose (clientOf master)))]).
    split.
    + unfold sshclient.Close, emit, bind, ask, ret. cbn [snd trace].
      fold (answer s2 (OpClose (clientOf master))). rewrite T.
      cbn [after trace]. now rewrite <- !app_assoc.
    + apply (Sessions_held (IP master) (Port master)); [exact Ed | exact F | constructor].
Qed.

Lemma inSessions_Apply (i : Installer) : inSessions (Apply i).
Proof.
  intros s r s' E.
  destruct (Servers (cfg i)) as [|primary others] eqn:Es.
  - unfold Apply in E. rewrite Es in E. exact (inSessions_fail _ _ _ _ E).
  - rewrite (Apply_targets i primary others s Es) in E. revert E.
    apply inSessions_bind; [apply inSessions_provisionAll | intros _].
    apply inSessions_bind;
      [apply inSessions_try, inSessions_downloadKubeconfig | intros _].
    apply inSessions_bind; [apply inSessions_showClusterInfo | intros _].
    apply inSessions_ret.
Qed.

(** *** Unit files *)

Lemma appends_impl {A : Type} (P Q : Event -> Prop) (m : M A) :
  (forall ev, P ev -> Q ev) -> appends P m -> appends Q m.
Proof.
  intros HPQ Hm s r s' E. destruct (Hm _ _ _ E) as (evs & T & F).
  exists evs. split; [exact T |]. eapply List.Forall_impl; [exact HPQ | exact F].
Qed.

Lemma script_units (i : Installer) (primaryIP : string) (t : Target)
    (td : string) (b : bool) (ev : Event) :
  In (fst ev) (script i primaryIP t td b) -> unitFor i primaryIP t ev.
Proof.
  unfold script, unitFor, isUnitPath. cbv zeta. intros Hin c data path E Hp.
  rewrite E in Hin.
  repeat (apply in_app_or in Hin as [Hin | Hin]);
    repeat match type of Hin with
           | In _ (if ?x then _ else _) => destruct x
           | In _ (match ?x with _ => _ end) => destruct x
           end;
    simpl in Hin;
    repeat (destruct Hin as [Hin | Hin];
            [ try discriminate Hin; injection Hin as <- <- <-;
              first [ now repeat split
                    | destruct Hp as [Hp | Hp]; discriminate Hp ]
            | ]);
    destruct Hin.
Qed.

Lemma unitFor_other (i : Installer) (primaryIP : string) (t : Target) (ev : Event) :
  (forall c data path, fst ev <> OpUploadBytes c data path) ->
  unitFor i primaryIP t ev.
Proof. intros Hev c data path E. now apply Hev in E. Qed.

Lemma appends_provision_units (i : Installer) (primaryIP : string) (t : Target) :
  appends (unitFor i primaryIP t) (provision i primaryIP t).
Proof.
  intros s r s' E.
  destruct (provision_played i primaryIP t s s' r E)
    as [(rd & e & Hd & _ & T) | (rd & rc & evs & b & Hd & T & Hf & _)].
  - eexists. split; [exact T |].
    apply List.Forall_cons; [| apply List.Forall_nil].
    apply unitFor_other. intros; discriminate.
  - eexists. split; [exact T |].
    apply List.Forall_cons; [apply unitFor_other; intros; discriminate |].
    apply Forall_app. split.
    + eapply follows_alphabet; [exact Hf | |].
      * intros ev Hl. apply unitFor_other. intros c data path E'.
        rewrite E' in Hl. discriminate Hl.
      * intros ev. apply script_units.
    + apply List.Forall_cons; [| apply List.Forall_nil].
      apply unitFor_other. intros; discriminate.
Qed.

Lemma appends_provisionAll_units (i : Installer) (primaryIP : string)
    (ts : list Target) :
  appends (unitAmong i primaryIP ts) (provisionAll i primaryIP ts).
Proof.
  induction ts as [|t ts IH]; [apply appends_ret |].
  cbn [provisionAll]. apply appends_bind.
  - eapply appends_impl; [| apply appends_provision_units].
    intros ev Hev c data path E Hp. exists t. split; [now left | now apply Hev].
  - intros _. eapply appends_impl; [| exact IH].
    intros ev Hev c data path E Hp.
    destruct (Hev c data path E Hp) as (t' & Hin & Ht). exists t'. split; [now right | exact Ht].
Qed.

Ltac no_upload := intros ? ? ? E'; discriminate E'.

Lemma appends_fetch_units (i : Installer) (primaryIP : string) (ts : list Target)
    (master : Node) :
  appends (unitAmong i primaryIP ts)
    (_ <- try (downloadKubeconfig i master) ;; showClusterInfo i master ;; ret tt).
Proof.
  eapply appends_impl with (P := fun ev => forall c data path,
                                     fst ev <> OpUploadBytes c data path).
  - intros ev Hev c data path E. now apply Hev in E.
  - unfold_steps. appends_by ltac:(intros ? ? ?; discriminate).
Qed.

(** *** Local files *)

Lemma saveKubeconfig_writes (master : Node) (content : string) :
  appends (writesKubeconfig master) (saveKubeconfig master content).
Proof.
  unfold saveKubeconfig.
  destruct (replaceKubeconfigServer content (IP master))
    as [[modified replaced] [e|]] eqn:Er; [apply appends_fail |].
  appends_by ltac:(intros path data perm E';
                   injection E' as <- <- <-;
                   split; [reflexivity |]; split; [reflexivity |];
                   now exists content, replaced).
Qed.

Ltac no_write := intros ? ? ? E'; discriminate E'.

Lemma downloadKubeconfig_writes (i : Installer) (master : Node) :
  appends (writesKubeconfig master) (downloadKubeconfig i master).
Proof.
  unfold downloadKubeconfig. cbv zeta.
  change (fun content => let '(modified, replaced, err) :=
                           replaceKubeconfigServer content (IP master) in _)
    with (saveKubeconfig master).
  unfold sshclient.New, sshclient.Close, sshclient.DownloadBytes.
  repeat first [ apply saveKubeconfig_writes | appends_step | no_write ].
Qed.

Lemma provisionAll_writes (i : Installer) (primaryIP : string) (ts : list Target)
    (master : Node) :
  appends (writesKubeconfig master) (provisionAll i primaryIP ts).
Proof.
  induction ts as [|t ts IH]; [apply appends_ret |].
  cbn [provisionAll]. apply appends_bind; [| now intros _].
  destruct t; cbn [provision]; unfold_steps; appends_by no_write.
Qed.

Lemma showClusterInfo_writes (i : Installer) (master : Node) :
  appends (writesKubeconfig master) (showClusterInfo i master).
Proof. unfold_steps. appends_by no_write. Qed.

(** *** The last part of [Apply] *)

Lemma session_appends {A : Type} (P : Event -> Prop) (node : Node)
    (body : Client -> M A) :
  (forall r, P (dialOf node, r)) ->
  (forall r, P (OpClose (clientOf node), r)) ->
  appends P (body (clientOf node)) ->
  appends P
    (bind (sshclient.New (IP node) (Port node)
             (if String.eqb (User node) "" then "root" else User node)
             {| sshclient.Password := Password node;
                sshclient.KeyPath := KeyPath node |})
       (fun c => defer (sshclient.Close c) (body c))).
Proof.
  intros Hd Hc Hb s r s' E.
  apply bind_cases in E as [(c & s1 & En & E) | (e & En & ->)];
    rewrite New_run in En;
    destruct (failure (answer s (dialOf node))) as [e'|] eqn:Ed;
    try discriminate.
  - injection En as <- <-. unfold defer in E.
    destruct (body (clientOf node) (after s (dialOf node))) as [x s2] eqn:Eb.
    injection E as -> <-.
    destruct (Hb _ _ _ Eb) as (evs & T & F).
    exists ((dialOf node, answer s (dialOf node)) :: evs
            ++ [(OpClose (clientOf node), answer s2 (OpClose (clientOf node)))]).
    split.
    + unfold sshclient.Close, emit, bind, ask, ret. cbn [snd trace].
      fold (answer s2 (OpClose (clientOf node))). rewrite T.
      cbn [after trace]. now rewrite <- !app_assoc.
    + apply List.Forall_cons; [apply Hd |]. apply Forall_app. split; [exact F |].
      apply List.Forall_cons; [apply Hc | apply List.Forall_nil].
  - injection En as <- <-.
    exists [(dialOf node, answer s (dialOf node))]. split; [reflexivity |].
    apply List.Forall_cons; [apply Hd | apply List.Forall_nil].
Qed.

Lemma showClusterInfo_session (i : Installer) (master : Node) (s : State) :
  showClusterInfo i master s
  = (Ok tt,
     snd (bind (sshclient.New (IP master) (Port master)
                  (if String.eqb (User master) "" then "root" else User master)
                  {| sshclient.Password := Password master;
                     sshclient.KeyPath := KeyPath master |})
            (fun c =>
               defer (sshclient.Close c)
                 (r <- try (runCmd c "kubectl get nodes") ;;
                  match r with
                  | Err _ => ret tt
                  | Ok _ => _ <- sshclient.Run c "kubectl get nodes" ;; ret tt
                  end)) s)).
Proof.
  pose proof (showClusterInfo_Ok i master s) as Hok.
  destruct (showClusterInfo i master s) as [r s'] eqn:E. cbn [fst] in Hok. subst r.
  f_equal. unfold showClusterInfo in E. cbv zeta in E.
  unfold bind at 1, try at 1 in E. unfold bind at 1.
  destruct (sshclient.New _ _ _ _ s) as [[c | e] s1].
  - now rewrite E.
  - now injection E as <-.
Qed.

Lemma downloadKubeconfig_reads (i : Installer) (master : Node) :
  appends (readsOnly i master) (downloadKubeconfig i master).
Proof.
  unfold downloadKubeconfig. cbv zeta.
  apply (session_appends _ master (fun c => _)); [reflexivity | reflexivity |].
  unfold sshclient.DownloadBytes.
  appends_by ltac:(first [ reflexivity
                         | split; [reflexivity | first [now left | now right]] ]).
Qed.

Lemma showClusterInfo_reads (i : Installer) (master : Node) :
  appends (readsOnly i master) (showClusterInfo i master).
Proof.
  intros s r s' E. rewrite showClusterInfo_session in E. injection E as _ <-.
  match goal with
  | |- context [snd (?m s)] => destruct (m s) as [x s2] eqn:Em
  end.
  cbn [snd]. revert Em.
  apply (session_appends _ master (fun c => _)); [reflexivity | reflexivity |].
  unfold runCmd, sshclient.Run.
  appends_by ltac:(now split).
Qed.
End WithEnv.
End runs_facts.

Module runs_properties.
Import install_facts assets_facts script_facts runs_facts.
Local Open Scope monad_scope.

(** X14.  The events of a run of [Apply] are a sequence of sessions, one
    after the other: every session begins with a dial; a refused dial is
    followed by the next dial or by nothing; an accepted dial is followed
    by commands and transfers on that very session and by local
    operations, and then by the close of that session.  So [Apply] never
    has two sessions open, never uses a session before its dial or after
    its close, and closes every session that it opened, whether the run
    succeeds or fails. *)
Theorem apply_sessions `{GoLib} `{Environment} (i : Installer) (s : State) :
  exists evs, trace (snd (Apply i s)) = trace s ++ evs /\ Sessions evs.
Proof.
  destruct (Apply i s) as [r s'] eqn:E. exact (inSessions_Apply i s r s' E).
Qed.

(** X15.  In a run of [Apply], every file that is uploaded to one of the
    two unit paths ([/etc/systemd/system/k3s.service] and
    [/etc/systemd/system/k3s-agent.service]) is the unit of a configured
    node: it goes over the session of that node, to the path of its role,
    and its text is the unit generated for that node with the address of
    the first server as primary address -- the server unit with
    [--cluster-init] for the server at index 0 only. *)
Theorem units_by_role `{GoLib} `{Environment} (i : Installer)
    (primary : Node) (others : list Node) (s : State) :
  Servers (cfg i) = primary :: others ->
  exists evs,
    trace (snd (Apply i s)) = trace s ++ evs
    /\ Forall (unitAmong i (IP primary) (targets (cfg i))) evs.
Proof.
  intros Es. destruct (Apply i s) as [r s'] eqn:E. cbn [snd].
  rewrite (Apply_targets i primary others s Es) in E. revert E.
  apply appends_bind; [apply appends_provisionAll_units | intros _].
  apply appends_fetch_units.
Qed.

(** The sample cluster of one server and one agent. *)
Lemma units_by_role_witness :
  exists evs,
    trace (snd (@Apply sample.lib healthy oneServerOneAgent emptyState)) = evs
    /\ Forall (unitAmong oneServerOneAgent "192.168.1.11"
                 [ServerAt 0 server1; AgentOf agent1]) evs.
Proof.
  destruct (@units_by_role sample.lib healthy oneServerOneAgent server1 []
              emptyState eq_refl) as (evs & T & F).
  exists evs. split; [exact T | exact F].
Defined.

(** X16.  The only local file that a run of [Apply] writes with
    [os.WriteFile] is [kubeconfig], with mode 0600, and what it writes is
    a document that [replaceKubeconfigServer] returned without an error
    for the address of the first server: a kubeconfig that cannot be
    patched is never written. *)
Theorem apply_writes_kubeconfig_only `{GoLib} `{Environment} (i : Installer)
    (primary : Node) (others : list Node) (s : State) :
  Servers (cfg i) = primary :: others ->
  exists evs,
    trace (snd (Apply i s)) = trace s ++ evs
    /\ Forall (writesKubeconfig primary) evs.
Proof.
  intros Es. destruct (Apply i s) as [r s'] eqn:E. cbn [snd].
  rewrite (Apply_targets i primary others s Es) in E. revert E.
  apply appends_bind; [apply provisionAll_writes | intros _].
  apply appends_bind; [apply appends_try, downloadKubeconfig_writes | intros _].
  apply appends_bind; [apply showClusterInfo_writes | intros _].
  apply appends_ret.
Qed.

Lemma apply_writes_kubeconfig_only_witness :
  exists evs,
    trace (snd (@Apply sample.lib healthy oneServerOneAgent emptyState)) = evs
    /\ Forall (@writesKubeconfig sample.lib server1) evs.
Proof.
  destruct (@apply_writes_kubeconfig_only sample.lib healthy oneServerOneAgent
              server1 [] emptyState eq_refl) as (evs & T & F).
  exists evs. split; [exact T | exact F].
Defined.

(** X17.  Once every node is provisioned, the rest of [Apply] changes
    nothing on any node: all it does is to open sessions to the first
    server, to fetch the kubeconfig from the path under the data
    directory or from [/etc/rancher/k3s/k3s.yaml], to run
    [kubectl get nodes], to close these sessions, and to write the local
    file [kubeconfig].  It uploads nothing, runs no other command and
    talks to no other node. *)
Theorem last_part_reads_only `{GoLib} `{Environment} (i : Installer)
    (primary : Node) (others : list Node) (s0 s1 : State) :
  Servers (cfg i) = primary :: others ->
  provisionAll i (IP primary) (targets (cfg i)) s0 = (Ok tt, s1) ->
  exists evs,
    trace (snd (Apply i s0)) = trace s1 ++ evs
    /\ Forall (readsOnly i primary) evs.
Proof.
  intros Es Hall. rewrite (Apply_targets i primary others s0 Es).
  rewrite (bind_Ok _ _ _ _ _ Hall).
  match goal with
  | |- context [snd (?m s1)] => destruct (m s1) as [r s'] eqn:E
  end.
  cbn [snd]. revert E.
  apply appends_bind; [apply appends_try, downloadKubeconfig_reads | intros _].
  apply appends_bind; [apply showClusterInfo_reads | intros _].
  apply appends_ret.
Qed.

Lemma last_part_reads_only_witness :
  exists evs,
    trace (snd (@Apply sample.lib healthy oneServerOneAgent emptyState))
    = trace (snd (@provisionAll sample.lib healthy oneServerOneAgent "192.168.1.11"
                    [ServerAt 0 server1; AgentOf agent1] emptyState)) ++ evs
    /\ Forall (@readsOnly sample.lib oneServerOneAgent server1) evs.
Proof.
  apply (@last_part_reads_only sample.lib healthy oneServerOneAgent server1 []
           emptyState _ eq_refl).
  vm_compute. reflexivity.
Defined.
End runs_properties.
(** ** The asset manager during a run *)

Module manager_facts.
Import install_facts assets_facts script_facts runs_facts.
Local Open Scope monad_scope.

Section Records.
Context `{GoLib} `{Environment}.
Variable Q : string -> string -> Prop.

Lemma records_same {A : Type} (m : M A) :
  (forall s r s', m s = (r, s') -> assetManager s' = assetManager s) ->
  records Q m.
Proof.
  intros Hm s r s' E. rewrite (Hm _ _ _ E). split; [reflexivity |].
  exists []. split; [now rewrite app_nil_r | constructor].
Qed.

Lemma records_ret {A : Type} (a : A) : records Q (ret a).
Proof. apply records_same. intros s r s' E. now injection E as _ <-. Qed.

Lemma records_fail {A : Type} (e : error) : records Q (@fail A e).
Proof. apply records_same. intros s r s' E. now injection E as _ <-. Qed.

Lemma records_lift {A : Type} (x : result A) : records Q (lift x).
Proof. apply records_same. intros s r s' E. now injection E as _ <-. Qed.

Lemma records_check (err : option error) : records Q (check err).
Proof. destruct err; [apply records_fail | apply records_ret]. Qed.

Lemma records_ask (op : Op) : records Q (ask op).
Proof. apply records_same. intros s r s' E. now injection E as _ <-. Qed.

Lemma records_bind {A B : Type} (m : M A) (k : A -> M B) :
  records Q m -> (forall a, records Q (k a)) -> records Q (bind m k).
Proof.
  intros Hm Hk s r s' E. apply bind_cases in E as [(a & s1 & Em & Ek) | (e & Em & ->)].
  - destruct (Hm _ _ _ Em) as (T1 & a1 & D1 & F1).
    destruct (Hk a _ _ _ Ek) as (T2 & a2 & D2 & F2).
    split; [congruence |]. exists (a1 ++ a2).
    split; [now rewrite D2, D1, app_assoc |].
    apply Forall_app. split; [exact F1 | now rewrite <- T1].
  - exact (Hm _ _ _ Em).
Qed.

Lemma records_emit (op : Op) : records Q (emit op).
Proof. apply records_bind; [apply records_ask | intros _; apply records_ret]. Qed.

Lemma records_try {A : Type} (m : M A) : records Q m -> records Q (try m).
Proof.
  intros Hm s r s' E. unfold try in E. destruct (m s) as [x s1] eqn:Em.
  injection E as <- <-. exact (Hm _ _ _ Em).
Qed.

Lemma records_defer {A : Type} (cleanup : M unit) (body : M A) :
  records Q cleanup -> records Q body -> records Q (defer cleanup body).
Proof.
  intros Hc Hb s r s' E. unfold defer in E.
  destruct (body s) as [x s1] eqn:Eb. injection E as <- <-.
  destruct (cleanup s1) as [y s2] eqn:Ec. cbn [snd].
  destruct (Hb _ _ _ Eb) as (T1 & a1 & D1 & F1).
  destruct (Hc _ _ _ Ec) as (T2 & a2 & D2 & F2).
  split; [congruence |]. exists (a1 ++ a2).
  split; [now rewrite D2, D1, app_assoc |].
  apply Forall_app. split; [exact F1 | now rewrite <- T1].
Qed.
End Records.

Ltac records_step :=
  match goal with
  | |- records _ (bind _ _) => apply records_bind; [| intros ?]
  | |- records _ (ret _) => apply records_ret
  | |- records _ (fail _) => apply records_fail
  | |- records _ (lift _) => apply records_lift
  | |- records _ (check _) => apply records_check
  | |- records _ (try _) => apply records_try
  | |- records _ (defer _ _) => apply records_defer
  | |- records _ (ask _) => apply records_ask
  | |- records _ (emit _) => apply records_emit
  | |- records _ (match ?x with _ => _ end) => destruct x
  | |- records _ (if ?x then _ else _) => destruct x
  | |- records _ (let '(_, _) := ?x in _) => destruct x
  end.

Section WithEnv.
Context `{GoLib} `{Environment}.

Lemma records_impl {A : Type} (P Q : string -> string -> Prop) (m : M A) :
  (forall td p, P td p -> Q td p) -> records P m -> records Q m.
Proof.
  intros HPQ Hm s r s' E. destruct (Hm _ _ _ E) as (T & a & D & F).
  split; [exact T |]. exists a. split; [exact D |].
  eapply List.Forall_impl; [apply HPQ | exact F].
Qed.

(** [ResolveAsset] records the file of a download, and nothing for a
    local path or a failed download. *)
Lemma records_ResolveAsset (source description : string) :
  records (fun td p => isURL source = true
                       /\ p = filepath_Join [td; getFilenameFromURL source])
    (ResolveAsset source description).
Proof.
  intros s r s' E. unfold ResolveAsset in E.
  destruct (isURL source) eqn:Hurl.
  - unfold bind at 1, try at 1 in E.
    destruct (download source s) as [[p | e] s1] eqn:Ed.
    + unfold bind, recordDownload, ret in E. injection E as _ <-.
      apply download_Ok in Ed as (_ & Hp & Hm & _).
      cbn [assetManager tempDir downloadedFiles]. rewrite Hm.
      split; [reflexivity |]. exists [p]. split; [reflexivity |].
      repeat constructor. exact Hp.
    + unfold fail in E. injection E as _ <-.
      rewrite (download_manager _ _ _ _ Ed). split; [reflexivity |].
      exists []. split; [now rewrite app_nil_r | constructor].
  - assert (Hm : assetManager s' = assetManager s).
    { revert E. unfold bind, ask, ret, fail.
      destruct (failure _) as [e|]; [destruct (IsNotExist e) |];
        intros E; now injection E as _ <-. }
    rewrite Hm. split; [reflexivity |].
    exists []. split; [now rewrite app_nil_r | constructor].
Qed.

Lemma records_binary (i : Installer) :
  records (recordedAsset i)
    (ResolveAsset (K3sBinary (Assets (cfg i))) "k3s binary").
Proof.
  eapply records_impl; [| apply records_ResolveAsset].
  intros td p [Hu Hp]. exists (K3sBinary (Assets (cfg i))). auto.
Qed.

Lemma records_images (i : Installer) :
  records (recordedAsset i)
    (ResolveAsset (K3sAirgapTarball (Assets (cfg i))) "airgap images").
Proof.
  eapply records_impl; [| apply records_ResolveAsset].
  intros td p [Hu Hp]. exists (K3sAirgapTarball (Assets (cfg i))). auto.
Qed.

Ltac records_auto i :=
  repeat first [ apply (records_binary i) | apply (records_images i) | records_step ].

Lemma records_provision (i : Installer) (primaryIP : string) (t : Target) :
  records (recordedAsset i) (provision i primaryIP t).
Proof.
  destruct t; cbn [provision];
    unfold installServer, installAgent, prepareNode, uploadAssets, runCmd,
      uninstallScriptContent, agentUninstallScriptContent,
      sshclient.New, sshclient.Close, sshclient.Run, sshclient.Upload,
      sshclient.UploadBytes; cbv zeta;
    records_auto i.
Qed.

Lemma records_provisionAll (i : Installer) (primaryIP : string) (ts : list Target) :
  records (recordedAsset i) (provisionAll i primaryIP ts).
Proof.
  induction ts as [|t ts IH]; [apply records_ret |].
  cbn [provisionAll]. apply records_bind; [apply records_provision | now intros _].
Qed.

Lemma records_Apply (i : Installer) : records (recordedAsset i) (Apply i).
Proof.
  intros s r s' E.
  destruct (Servers (cfg i)) as [|primary others] eqn:Es.
  - unfold Apply in E. rewrite Es in E. exact (records_fail _ _ _ _ _ E).
  - rewrite (Apply_targets i primary others s Es) in E. revert E.
    apply records_bind; [apply records_provisionAll | intros _].
    unfold downloadKubeconfig, showClusterInfo, runCmd,
      sshclient.New, sshclient.Close, sshclient.Run, sshclient.DownloadBytes.
    cbv zeta. records_auto i.
Qed.
End WithEnv.
End manager_facts.

Module manager_properties.
Import manager_facts.

(** X18.  A run of [Apply] never changes the temp directory of the asset
    manager, and it only appends to the list of downloaded files.  Every
    path it appends is the download of the configured binary or images
    archive, which then is an http(s) reference, to the file of that name
    in the temp directory: an asset given as a local path is never
    recorded, and every recorded file lies where [Cleanup] removes it. *)
Theorem asset_manager_grows `{GoLib} `{Environment} (i : Installer) (s : State) :
  let td := tempDir (assetManager s) in
  let am' := assetManager (snd (Apply i s)) in
  tempDir am' = td
  /\ exists added,
       downloadedFiles am' = downloadedFiles (assetManager s) ++ added
       /\ Forall (recordedAsset i td) added.
Proof.
  intros td am'. subst td am'.
  destruct (Apply i s) as [r s'] eqn:E. exact (records_Apply i s r s' E).
Qed.
End manager_properties.
(** ** The lines of a unit *)

Module lines_facts.
Import strings strings_facts unit_facts words_facts.

Lemma has_byte_Join (ch : ascii) (l : list string) :
  has_byte ch " " = false ->
  Forall (fun w => has_byte ch w = false) l ->
  has_byte ch (Join l " ") = false.
Proof.
  intros Hsp F. induction F as [|w l Hw F IH]; [reflexivity |].
  destruct l as [|v l]; [exact Hw |].
  rewrite Join_cons, !has_byte_append, Hw, Hsp, IH. reflexivity.
Qed.

Lemma joinTarget_lf (ip : string) :
  has_byte lf ip = false -> has_byte lf (joinTarget ip) = false.
Proof.
  intros Hip. unfold joinTarget. now rewrite !has_byte_append, Hip.
Qed.

Lemma serverItems_lf (c : Cluster) (node : Node) (ip : string) (b : bool) :
  Forall (fun v => has_byte lf v = false) (ip :: serverValues c node) ->
  Forall (fun w => has_byte lf w = false) (flat_map words (serverItems c node ip b)).
Proof.
  intros F. inversion F as [|? ? Hip F']; subst. unfold serverValues in F'.
  apply joinTarget_lf in Hip.
  inversion F' as [|? ? H1 F1]; subst. inversion F1 as [|? ? H2 F2]; subst.
  inversion F2 as [|? ? H3 F3]; subst. inversion F3 as [|? ? H4 F4]; subst.
  inversion F4 as [|? ? H5 F5]; subst.
  apply Forall_app in F5 as [Hsan F5]. apply Forall_app in F5 as [Hdis F5].
  apply Forall_app in F5 as [Hlab F5]. inversion F5 as [|? ? Htok _]; subst.
  unfold serverItems. rewrite !flat_map_app.
  destruct b, (EmbeddedRegistry c); cbn [flat_map words app]; words_free.
Qed.

Lemma agentItems_lf (c : Cluster) (node : Node) (ip : string) :
  Forall (fun v => has_byte lf v = false) (ip :: agentValues c node) ->
  Forall (fun w => has_byte lf w = false) (flat_map words (agentItems c node ip)).
Proof.
  intros F. inversion F as [|? ? Hip F']; subst. unfold agentValues in F'.
  apply joinTarget_lf in Hip.
  inversion F' as [|? ? H1 F1]; subst. inversion F1 as [|? ? H2 F2]; subst.
  apply Forall_app in F2 as [Hlab F5]. inversion F5 as [|? ? Htok _]; subst.
  unfold agentItems. rewrite !flat_map_app.
  cbn [flat_map words app]; words_free.
Qed.

(** A unit text is its ten lines, each ended by a line feed. *)
Lemma unitService_lines (name exec : string) :
  unitService name exec
  = Join (unitLines name exec ++ [""]) (String lf "").
Proof.
  unfold unitService, unitLines, LF, lf. cbv zeta.
  repeat (rewrite ?append_assoc; simpl). reflexivity.
Qed.

Lemma Split_unit (name exec : string) :
  has_byte lf name = false -> has_byte lf exec = false ->
  Split (unitService name exec) lf = unitLines name exec ++ [""].
Proof.
  intros Hn He. rewrite unitService_lines. apply Split_Join; [discriminate |].
  unfold unitLines. cbn [app].
  repeat (apply List.Forall_cons; [first [reflexivity | idtac] |]);
    try apply List.Forall_nil.
  - now rewrite has_byte_append, Hn.
  - now rewrite has_byte_append, He.
Qed.
End lines_facts.

Module lines_properties.
Import strings strings_facts unit_facts words_facts lines_facts.

(** X19.  If neither the primary address nor any configured value that
    goes into the command line contains a line feed, a generated unit
    consists of exactly ten lines: the nine fixed ones and the
    [ExecStart] line, which holds the whole command.  No configured value
    can then add a line, and with it a directive, to the unit.  This
    holds for the server unit and for the agent unit. *)
Theorem unit_has_ten_lines (i : Installer) (node : Node) (ip : string) (b : bool) :
  let c := cluster (cfg i) in
  (Forall (fun v => has_byte lf v = false) (ip :: serverValues c node) ->
   Split (serverServiceContent i node ip b) lf
   = unitLines "k3s"
       ("/usr/local/bin/k3s "
        +:+ Join (serverArgs i node ip b ++ ["--token"; Token c]) " ")
     ++ [""])
  /\
  (Forall (fun v => has_byte lf v = false) (ip :: agentValues c node) ->
   Split (agentServiceContent i node ip) lf
   = unitLines "k3s-agent" ("/usr/local/bin/k3s " +:+ Join (agentArgs i node ip) " ")
     ++ [""]).
Proof.
  intros c. split; intros F.
  - assert (E : serverServiceContent i node ip b
                = unitService "k3s"
                    ("/usr/local/bin/k3s "
                     +:+ Join (serverArgs i node ip b ++ ["--token"; Token c]) " ")).
    { unfold serverServiceContent. cbv zeta. fold c.
      rewrite Join_app by (try apply serverArgs_nonempty; discriminate).
      reflexivity. }
    rewrite E. apply Split_unit; [reflexivity |].
    rewrite has_byte_append.
    change (has_byte lf "/usr/local/bin/k3s ") with false. cbn [orb].
    apply has_byte_Join; [reflexivity |].
    unfold c. rewrite serverArgs_items. now apply serverItems_lf.
  - unfold agentServiceContent. cbv zeta.
    apply Split_unit; [reflexivity |].
    rewrite has_byte_append.
    change (has_byte lf "/usr/local/bin/k3s ") with false. cbn [orb].
    apply has_byte_Join; [reflexivity |].
    rewrite agentArgs_items. now apply agentItems_lf.
Qed.

Lemma unit_has_ten_lines_witness :
  Split
    (agentServiceContent (sampleInstaller (sampleCluster "k3air-token") [] [])
       (sampleNode "k3s-agent-1" "192.168.1.21" []) "192.168.1.11") lf
  = ["[Unit]"; "Description=k3s-agent"; "After=network.target"; "[Service]";
     "Type=notify";
     "ExecStart=/usr/local/bin/k3s agent --server https://192.168.1.11:6443 "
     +:+ "--data-dir /var/lib/rancher/k3s --node-name k3s-agent-1 --token k3air-token";
     "Restart=always"; "LimitNOFILE=1048576"; "[Install]";
     "WantedBy=multi-user.target"; ""].
Proof.
  destruct (unit_has_ten_lines (sampleInstaller (sampleCluster "k3air-token") [] [])
              (sampleNode "k3s-agent-1" "192.168.1.21" []) "192.168.1.11" false)
    as [_ Ha].
  rewrite Ha; [reflexivity |]. repeat constructor.
Defined.
End lines_properties.
(** ** What a successful run has done *)

Module success_facts.
Import install_facts assets_facts script_facts runs_facts manager_facts.
Local Open Scope monad_scope.

Section WithEnv.
Context `{GoLib} `{Environment}.

Lemma provisionAll_Ok (i : Installer) (primaryIP : string) (ts : list Target)
    (s s' : State) :
  provisionAll i primaryIP ts s = (Ok tt, s') ->
  exists evs,
    trace s' = trace s ++ evs
    /\ Provisioned i primaryIP (tempDir (assetManager s)) ts evs.
Proof.
  revert s. induction ts as [|t ts IH]; intros s E.
  - injection E as <-. exists []. split; [now rewrite app_nil_r | constructor].
  - cbn [provisionAll] in E. apply bind_inv_Ok in E as ([] & s1 & Et & E).
    destruct (provision_played i primaryIP t s s1 (Ok tt) Et)
      as [(rd & e & _ & Hr & _) | (rd & rc & evs & b & Hd & T & _ & Hc)];
      [discriminate Hr |].
    destruct (records_provision i primaryIP t s _ s1 Et) as [Htd _].
    destruct (IH _ E) as (rest & T2 & P2). rewrite Htd in P2.
    exists ((dialOf (nodeOf t), rd) :: evs
            ++ (OpClose (clientOf (nodeOf t)), rc) :: rest).
    split.
    + rewrite T2, T. rewrite <- !app_assoc. cbn [app].
      rewrite <- !app_assoc. reflexivity.
    + apply (Provisioned_cons i primaryIP _ t ts rd rc evs rest b);
        [exact Hd | exact (Hc I) | exact P2].
Qed.

Lemma Apply_Ok (i : Installer) (primary : Node) (others : list Node) (s s' : State) :
  Servers (cfg i) = primary :: others ->
  Apply i s = (Ok tt, s') ->
  exists s1 evs,
    provisionAll i (IP primary) (targets (cfg i)) s = (Ok tt, s1)
    /\ trace s' = trace s1 ++ evs.
Proof.
  intros Es E. rewrite (Apply_targets i primary others s Es) in E.
  apply bind_inv_Ok in E as ([] & s1 & Ep & E).
  exists s1. 
  assert (A : appends (fun _ => True)
                (_ <- try (downloadKubeconfig i primary) ;;
                 showClusterInfo i primary ;; ret tt)).
  { unfold_steps. appends_by ltac:(exact I). }
  destruct (A _ _ _ E) as (evs & T & _).
  exists evs. split; [exact Ep | exact T].
Qed.
End WithEnv.
End success_facts.

Module success_properties.
Import install_facts success_facts.

(** X20.  If [Apply] returns no error, every configured node was
    provisioned in full: the trace of the run holds, for the servers in
    declared order and then the agents in declared order, one session
    each, accepted at the dial, whose commands and transfers are the whole
    script of that node with every step succeeded, closed before the
    next node is dialled; what follows these sessions is the last part of
    [Apply]. *)
Theorem apply_success `{GoLib} `{Environment} (i : Installer)
    (primary : Node) (others : list Node) (s s' : State) :
  Servers (cfg i) = primary :: others ->
  Apply i s = (Ok tt, s') ->
  exists nodes rest,
    trace s' = trace s ++ nodes ++ rest
    /\ Provisioned i (IP primary) (tempDir (assetManager s)) (targets (cfg i)) nodes.
Proof.
  intros Es E.
  destruct (Apply_Ok i primary others s s' Es E) as (s1 & rest & Ep & T).
  destruct (provisionAll_Ok i (IP primary) _ s s1 Ep) as (nodes & T1 & P).
  exists nodes, rest. split; [| exact P].
  now rewrite T, T1, app_assoc.
Qed.

Lemma apply_success_witness :
  exists nodes rest,
    trace (snd (@Apply sample.lib healthy oneServerOneAgent emptyState))
    = nodes ++ rest
    /\ @Provisioned sample.lib oneServerOneAgent "192.168.1.11" "/tmp/k3air-assets-1"
         [ServerAt 0 server1; AgentOf agent1] nodes.
Proof.
  apply (@apply_success sample.lib healthy oneServerOneAgent server1 []
           emptyState _ eq_refl).
  vm_compute. reflexivity.
Defined.
End success_properties.

(** ** The saved kubeconfig *)

Module saved_facts.
Import install_facts assets_facts script_facts.
Local Open Scope monad_scope.

Section WithEnv.
Context `{GoLib} `{Environment}.

Lemma saveKubeconfig_Ok (master : Node) (content : string) (s s' : State) :
  saveKubeconfig master content s = (Ok tt, s') ->
  exists modified replaced,
    replaceKubeconfigServer content (IP master) = (modified, replaced, None)
    /\ failure (answer s (OpWriteFile "kubeconfig" modified 384)) = None
    /\ s' = after s (OpWriteFile "kubeconfig" modified 384).
Proof.
  unfold saveKubeconfig.
  destruct (replaceKubeconfigServer content (IP master))
    as [[modified replaced] [e|]] eqn:Er; [discriminate |].
  unfold bind, ask, ret, fail.
  fold (answer s (OpWriteFile "kubeconfig" modified 384)).
  fold (after s (OpWriteFile "kubeconfig" modified 384)).
  destruct (failure (answer s (OpWriteFile "kubeconfig" modified 384))) eqn:Ew;
    [discriminate |].
  intros E. injection E as <-. now exists modified, replaced.
Qed.

(** The body of [downloadKubeconfig] when it succeeds. *)
Lemma fetch_and_save_Ok (i : Installer) (master : Node) (s s' : State) :
  let c := clientOf master in
  let dataDirPath :=
    filepath_Join [DataDir (cluster (cfg i)); "server"; "cred"; "k3s.yaml"] in
  (r <- try (sshclient.DownloadBytes c dataDirPath) ;;
   content <-
     match r with
     | Ok content => ret content
     | Err _ =>
         r <- try (sshclient.DownloadBytes c "/etc/rancher/k3s/k3s.yaml") ;;
         match r with
         | Err err => fail (Errorf ("failed to download kubeconfig: " +:+ Error err))
         | Ok content => ret content
         end
     end ;;
   saveKubeconfig master content) s = (Ok tt, s') ->
  exists pre path rf modified replaced rw,
    (path = dataDirPath \/ path = "/etc/rancher/k3s/k3s.yaml")
    /\ failure rf = None
    /\ replaceKubeconfigServer (stdout rf) (IP master) = (modified, replaced, None)
    /\ failure rw = None
    /\ trace s' = trace s ++ pre ++ [(OpDownloadBytes c path, rf);
                                     (OpWriteFile "kubeconfig" modified 384, rw)].
Proof.
  intros c dataDirPath E.
  apply bind_inv_Ok in E as (r1 & s1 & E1 & E).
  unfold try in E1. rewrite DownloadBytes_run in E1.
  set (op1 := OpDownloadBytes c dataDirPath) in *.
  apply bind_inv_Ok in E as (content & s2 & Ec & E).
  apply saveKubeconfig_Ok in E as (modified & replaced & Er & Ew & ->).
  destruct (failure (answer s op1)) as [e1|] eqn:F1; injection E1 as <- <-.
  - apply bind_inv_Ok in Ec as (r2 & s3 & E2 & Ec).
    unfold try in E2. rewrite DownloadBytes_run in E2.
    set (op2 := OpDownloadBytes c "/etc/rancher/k3s/k3s.yaml") in *.
    destruct (failure (answer (after s op1) op2)) as [e2|] eqn:F2;
      injection E2 as <- <-; [discriminate Ec |].
    injection Ec as <- <-.
    exists [(op1, answer s op1)], "/etc/rancher/k3s/k3s.yaml",
           (answer (after s op1) op2), modified, replaced,
           (answer (after (after s op1) op2) (OpWriteFile "kubeconfig" modified 384)).
    split; [now right |]. split; [exact F2 |]. split; [exact Er |].
    split; [exact Ew |]. cbn [after trace]. now rewrite <- !app_assoc.
  - injection Ec as <- <-.
    exists [], dataDirPath, (answer s op1), modified, replaced,
           (answer (after s op1) (OpWriteFile "kubeconfig" modified 384)).
    split; [now left |]. split; [exact F1 |]. split; [exact Er |].
    split; [exact Ew |]. cbn [after trace]. now rewrite <- !app_assoc.
Qed.
End WithEnv.
End saved_facts.

Module saved_properties.
Import install_facts saved_facts.
Local Open Scope monad_scope.

(** X21.  If [downloadKubeconfig] returns no error, the local file
    [kubeconfig] holds the patched version of what was fetched: the last
    three events of the call are a successful read of the kubeconfig from
    the first server (from the path under the data directory, or from
    [/etc/rancher/k3s/k3s.yaml]), the successful write of [kubeconfig]
    with mode 0600, whose content is what [replaceKubeconfigServer]
    returned without an error for the bytes of that read and the address
    of the first server, and the close of the session. *)
Theorem kubeconfig_saved `{GoLib} `{Environment} (i : Installer) (master : Node)
    (s s' : State) :
  downloadKubeconfig i master s = (Ok tt, s') ->
  let c := clientOf master in
  exists pre path rf modified replaced rw rc,
    (path = filepath_Join [DataDir (cluster (cfg i)); "server"; "cred"; "k3s.yaml"]
     \/ path = "/etc/rancher/k3s/k3s.yaml")
    /\ failure rf = None
    /\ replaceKubeconfigServer (stdout rf) (IP master) = (modified, replaced, None)
    /\ failure rw = None
    /\ trace s' = trace s ++ pre ++ [(OpDownloadBytes c path, rf);
                                     (OpWriteFile "kubeconfig" modified 384, rw);
                                     (OpClose c, rc)].
Proof.
  intros E c. unfold downloadKubeconfig in E. cbv zeta in E.
  apply bind_inv_Ok in E as (c' & s1 & En & E).
  rewrite New_run in En.
  destruct (failure (answer s (dialOf master))) eqn:Ed; [discriminate |].
  injection En as <- <-. unfold defer in E.
  match type of E with
  | (let (_, _) := ?b ?s1 in _) = _ => destruct (b s1) as [x s2] eqn:Eb
  end.
  injection E as -> <-.
  change (fun content => let '(modified, replaced, err) :=
                           replaceKubeconfigServer content (IP master) in _)
    with (saveKubeconfig master) in Eb.
  apply fetch_and_save_Ok in Eb
    as (pre & path & rf & modified & replaced & rw & Hp & Hf & Hr & Hw & T).
  exists ((dialOf master, answer s (dialOf master)) :: pre), path, rf, modified,
         replaced, rw, (answer s2 (OpClose (clientOf master))).
  split; [exact Hp |]. split; [exact Hf |]. split; [exact Hr |]. split; [exact Hw |].
  unfold sshclient.Close, emit, bind, ask, ret. cbn [snd trace].
  fold (answer s2 (OpClose (clientOf master))). rewrite T.
  cbn [after trace]. rewrite <- ?app_assoc. cbn [app]. rewrite <- ?app_assoc.
  reflexivity.
Qed.

(** The kubeconfig of the sample cluster: fetched with the loopback
    address, written with the address of the first server. *)
Lemma kubeconfig_saved_witness :
  let s' := snd (@downloadKubeconfig sample.lib healthy oneServerOneAgent server1
                   emptyState) in
  exists pre path rf modified replaced rw rc,
    (path = "/var/lib/rancher/k3s/server/cred/k3s.yaml"
     \/ path = "/etc/rancher/k3s/k3s.yaml")
    /\ failure rf = None
    /\ @replaceKubeconfigServer sample.lib (stdout rf) "192.168.1.11"
       = (modified, replaced, None)
    /\ failure rw = None
    /\ trace s' = pre ++ [(OpDownloadBytes (clientOf server1) path, rf);
                          (OpWriteFile "kubeconfig" modified 384, rw);
                          (OpClose (clientOf server1), rc)].
Proof.
  intros s'.
  assert (E : @downloadKubeconfig sample.lib healthy oneServerOneAgent server1
                emptyState = (Ok tt, s'))
    by (vm_compute; reflexivity).
  exact (@kubeconfig_saved sample.lib healthy oneServerOneAgent server1
           emptyState s' E).
Defined.
End saved_properties.
